(** * The import transformer of [src/functions/transform.js]

    A shallow embedding of the handler's [try] block: the three passes over
    the parsed rows (SKU index, parent/child relationships, row rewriting)
    with the helpers they call, followed by the properties of the
    specification that were checked against it.

    What the embedding covers and what it leaves out:
    - [Papa.parse] and [Papa.unparse] are the external CSV library.  The
      model starts from [data], the rows [parseCsv] returns, and ends with
      [modifiedData], the rows handed to [Papa.unparse]; the envelope of
      the response, which [only_csv] selects, is not part of it.
    - Every cell of a parsed row is a string, as [Papa.parse] with
      [header: true] and without [dynamicTyping] delivers it.  The array
      Papa keeps under [__parsed_extra] for a line with too many fields is
      left out.
    - A string of the model is a sequence of UTF-16 code units below 256.
    - A JavaScript object is the ordered list of its own enumerable
      properties plus the lookup through [Object.prototype], which every
      object literal of the source inherits from.
    - A number is what [parseInt] can return: not-a-number, an integer
      that a double holds, or an infinity.
    - An exception, thrown by the source or raised by the engine, ends the
      [try] block; the model returns it as an error. *)

From Stdlib Require Import String Ascii List ZArith NArith Lia Bool.
From Stdlib Require Import DecimalString.
Import ListNotations.

Open Scope string_scope.
Open Scope list_scope.

(** ** Strings *)

Module Str.

Definition isDigit (c : ascii) : bool :=
  let n := nat_of_ascii c in (48 <=? n)%nat && (n <=? 57)%nat.

Definition isUpper (c : ascii) : bool :=
  let n := nat_of_ascii c in (65 <=? n)%nat && (n <=? 90)%nat.

Definition isLower (c : ascii) : bool :=
  let n := nat_of_ascii c in (97 <=? n)%nat && (n <=? 122)%nat.

(** [\w] of a regular expression without the [u] and [i] flags:
    [[A-Za-z0-9_]]. *)
Definition isWord (c : ascii) : bool :=
  isDigit c || isUpper c || isLower c || Ascii.eqb c "_".

(** White space and line terminators, as [String.prototype.trim] and
    [parseInt] strip them: TAB, LF, VT, FF, CR, SP and NBSP are the ones
    below 256. *)
Definition isWhiteSpace (c : ascii) : bool :=
  let n := nat_of_ascii c in
  ((9 <=? n)%nat && (n <=? 13)%nat) || (n =? 32)%nat || (n =? 160)%nat.

Fixpoint rev (s : string) : string :=
  match s with
  | "" => ""
  | String c r => rev r ++ String c ""
  end.

Fixpoint trimStart (s : string) : string :=
  match s with
  | "" => ""
  | String c r => if isWhiteSpace c then trimStart r else s
  end.

Definition trimEnd (s : string) : string := rev (trimStart (rev s)).

(** [s.trim()] *)
Definition trim (s : string) : string := trimEnd (trimStart s).

(** [c] occurs in [s]. *)
Fixpoint occurs (c : ascii) (s : string) : bool :=
  match s with
  | "" => false
  | String d r => Ascii.eqb c d || occurs c r
  end.

(** [s.split(sep)] for a non-empty separator: the occurrences of [sep] are
    found from left to right and do not overlap.  [skip] counts the
    characters of a separator occurrence still to be passed over. *)
Fixpoint splitFrom (sep : string) (skip : nat) (s : string) : list string :=
  match s with
  | "" => [""]
  | String c r =>
      match skip with
      | S n => splitFrom sep n r
      | O =>
          if String.prefix sep s
          then "" :: splitFrom sep (String.length sep - 1) r
          else match splitFrom sep 0 r with
               | p :: ps => String c p :: ps
               | [] => [String c ""]
               end
      end
  end.

Definition split (sep s : string) : list string := splitFrom sep 0 s.

(** [l.join(sep)] on an array of strings. *)
Definition join (sep : string) (l : list string) : string :=
  String.concat sep l.

End Str.

(** ** Objects *)

Module Obj.

(** The own enumerable string-keyed properties, in the order [Object.keys]
    lists them. *)
Definition t (V : Type) : Type := list (string * V).

(** The properties every object inherits from [Object.prototype]. *)
Definition prototypeNames : list string :=
  [ "constructor"; "__defineGetter__"; "__defineSetter__"; "hasOwnProperty";
    "__lookupGetter__"; "__lookupSetter__"; "isPrototypeOf";
    "propertyIsEnumerable"; "toString"; "valueOf"; "__proto__";
    "toLocaleString" ].

Definition inPrototype (k : string) : bool :=
  existsb (String.eqb k) prototypeNames.

(** What [o[k]] finds. *)
Inductive property (V : Type) : Type :=
| Own (v : V)        (* an own property *)
| Inherited          (* a function or object found on [Object.prototype] *)
| Missing.           (* [undefined] *)

Arguments Own {V} v.
Arguments Inherited {V}.
Arguments Missing {V}.

Fixpoint getOwn {V} (o : t V) (k : string) : option V :=
  match o with
  | [] => None
  | (k', v) :: r => if String.eqb k' k then Some v else getOwn r k
  end.

Definition get {V} (o : t V) (k : string) : property V :=
  match getOwn o k with
  | Some v => Own v
  | None => if inPrototype k then Inherited else Missing
  end.

(** [Object.keys(o)] *)
Definition keys {V} (o : t V) : list string := map fst o.

Fixpoint digitsValue (acc : N) (s : string) : option N :=
  match s with
  | "" => Some acc
  | String c r =>
      if Str.isDigit c
      then digitsValue (10 * acc + N.of_nat (nat_of_ascii c - 48)) r
      else None
  end.

(** An array index is the canonical decimal form of an integer below
    [2^32 - 1]; such keys come first in [Object.keys], in ascending order. *)
Definition arrayIndex (k : string) : option N :=
  match k with
  | "" => None
  | String c r =>
      if Ascii.eqb c "0" && negb (String.eqb r "") then None
      else match digitsValue 0 k with
           | Some n => if (n <? 4294967295)%N then Some n else None
           | None => None
           end
  end.

Fixpoint replace {V} (o : t V) (k : string) (v : V) : t V :=
  match o with
  | [] => []
  | (k', v') :: r =>
      if String.eqb k' k then (k', v) :: r else (k', v') :: replace r k v
  end.

Fixpoint insertIndex {V} (n : N) (k : string) (v : V) (o : t V) : t V :=
  match o with
  | [] => [(k, v)]
  | (k', v') :: r =>
      match arrayIndex k' with
      | Some m =>
          if (m <? n)%N then (k', v') :: insertIndex n k v r
          else (k, v) :: o
      | None => (k, v) :: o
      end
  end.

(** [o[k] = v].  Assigning to [__proto__] creates no own property; an
    existing key keeps its place; a new array index goes among the array
    indices; any other new key goes last. *)
Definition set {V} (o : t V) (k : string) (v : V) : t V :=
  if String.eqb k "__proto__" then o
  else match getOwn o k with
       | Some _ => replace o k v
       | None =>
           match arrayIndex k with
           | Some n => insertIndex n k v o
           | None => o ++ [(k, v)]
           end
       end.

(** [delete o[k]] *)
Fixpoint delete {V} (o : t V) (k : string) : t V :=
  match o with
  | [] => []
  | (k', v) :: r =>
      if String.eqb k' k then delete r k else (k', v) :: delete r k
  end.

End Obj.

(** ** Numbers *)

Module Num.

(** The values [parseInt] can return.  [Finite 0] stands for both zeros:
    the source only tests a number for truthiness and compares two with
    [>=], and neither tells [-0] from [0]. *)
Inductive t : Type :=
| NaN
| Finite (z : Z)
| Infinity (negative : bool).

(** Rounding of a non-negative integer to the nearest double, ties to even:
    only the 53 leading bits are kept. *)
Definition roundMagnitude (m : Z) : Z :=
  let bits := (Z.log2 m + 1)%Z in
  if (bits <=? 53)%Z then m
  else
    let sh := (bits - 53)%Z in
    let q := Z.shiftr m sh in
    let r := Z.land m (Z.ones sh) in
    let half := Z.shiftl 1 (sh - 1) in
    let q' := if (half <? r)%Z || ((r =? half)%Z && Z.odd q)
              then (q + 1)%Z else q in
    Z.shiftl q' sh.

(** The Number value for a mathematical integer. *)
Definition ofZ (z : Z) : t :=
  let m := roundMagnitude (Z.abs z) in
  if (2 ^ 1024 <=? m)%Z then Infinity (z <? 0)%Z
  else Finite (Z.sgn z * m).

Definition truthy (n : t) : bool :=
  match n with
  | NaN => false
  | Finite z => negb (z =? 0)%Z
  | Infinity _ => true
  end.

(** [a >= b] *)
Definition ge (a b : t) : bool :=
  match a, b with
  | NaN, _ | _, NaN => false
  | Finite x, Finite y => (y <=? x)%Z
  | Infinity false, _ => true
  | _, Infinity true => true
  | Infinity true, _ => false
  | Finite _, Infinity false => false
  end.

Definition digitValue (radix : Z) (c : ascii) : option Z :=
  let n := Z.of_nat (nat_of_ascii c) in
  let d := if Str.isDigit c then Some (n - 48)%Z
           else if Str.isLower c then Some (n - 87)%Z
           else if Str.isUpper c then Some (n - 55)%Z
           else None in
  match d with
  | Some v => if (v <? radix)%Z then Some v else None
  | None => None
  end.

(** The longest prefix of [s] made of digits of the radix. *)
Fixpoint digitsPrefix (radix : Z) (s : string) : list Z :=
  match s with
  | "" => []
  | String c r =>
      match digitValue radix c with
      | Some d => d :: digitsPrefix radix r
      | None => []
      end
  end.

Definition mathInt (radix : Z) (ds : list Z) : Z :=
  fold_left (fun acc d => (acc * radix + d)%Z) ds 0%Z.

Definition stripSign (s : string) : bool * string :=
  match s with
  | String "-" r => (true, r)
  | String "+" r => (false, r)
  | _ => (false, s)
  end.

Definition stripPrefix (s : string) : Z * string :=
  match s with
  | String "0" (String "x" r) => (16%Z, r)
  | String "0" (String "X" r) => (16%Z, r)
  | _ => (10%Z, s)
  end.

(** [parseInt(s)] without a radix argument. *)
Definition parseInt (input : string) : t :=
  let (negative, s) := stripSign (Str.trimStart input) in
  let (radix, s) := stripPrefix s in
  match digitsPrefix radix s with
  | [] => NaN
  | ds => ofZ (if negative then - mathInt radix ds else mathInt radix ds)
  end.

End Num.

(** ** Cells *)

(** What a property of a row can hold while the handler runs. *)
Inductive value : Type :=
| VUndefined
| VStr (s : string)
| VNum (n : Z)              (* [is_in_stock] after the override *)
| VBuiltin (name : string). (* what [Object.prototype] holds under [name] *)

Definition truthy (v : value) : bool :=
  match v with
  | VUndefined => false
  | VStr s => negb (String.eqb s "")
  | VNum n => negb (n =? 0)%Z
  | VBuiltin _ => true
  end.

(** The string a template literal puts for a value.  The text of a built-in
    function is the one V8 prints. *)
Definition toString (v : value) : string :=
  match v with
  | VUndefined => "undefined"
  | VStr s => s
  | VNum n => NilZero.string_of_int (Z.to_int n)
  | VBuiltin name =>
      if String.eqb name "__proto__" then "[object Object]"
      else "function "
           ++ (if String.eqb name "constructor" then "Object" else name)
           ++ "() { [native code] }"
  end.

(** A row as [Papa.parse] delivers it: every cell is a string. *)
Definition record : Type := Obj.t string.

(** A row while and after it is rewritten. *)
Definition row : Type := Obj.t value.

Definition ofRecord (r : record) : row :=
  map (fun kv => (fst kv, VStr (snd kv))) r.

(** [r[k]] on a parsed row. *)
Definition cell (r : record) (k : string) : value :=
  match Obj.get r k with
  | Obj.Own s => VStr s
  | Obj.Inherited => VBuiltin k
  | Obj.Missing => VUndefined
  end.

(** [r[k]] on a row being rewritten. *)
Definition read (r : row) (k : string) : value :=
  match Obj.get r k with
  | Obj.Own v => v
  | Obj.Inherited => VBuiltin k
  | Obj.Missing => VUndefined
  end.

(** ** Errors *)

(** The [TypeError]s the engine itself raises inside the [try] block. *)
Inductive fault : Type :=
| KeysOfUndefined     (* [Object.keys(data[0])] when there is no row *)
| SkuUndefined        (* [row.sku.trim()], [row.sku.length] without [sku] *)
| GroupsOfNull        (* [attr.match(...).groups] when nothing matches *)
| PushNotAFunction    (* [.push] on an inherited property *)
| MapNotAFunction.    (* [.map] on an inherited property *)

(** What the [catch] clause receives.  Either way it answers with status
    code 401 and [{status: 'error', message: e.message}]. *)
Inductive error : Type :=
| Thrown (message : string)   (* [throw new Error(message)] *)
| TypeError (f : fault).      (* the message is the engine's *)

Inductive result (A : Type) : Type :=
| Ok (a : A)
| Err (e : error).

Arguments Ok {A} a.
Arguments Err {A} e.

Definition bind {A B} (m : result A) (f : A -> result B) : result B :=
  match m with
  | Ok a => f a
  | Err e => Err e
  end.

Notation "x <- m ;; k" := (bind m (fun x => k))
  (at level 61, m at next level, right associativity).

(** [l.forEach((x, i) => ...)] over a body that updates a state or throws. *)
Fixpoint forEach {S A} (body : S -> nat -> A -> result S)
    (l : list A) (i : nat) (st : S) : result S :=
  match l with
  | [] => Ok st
  | x :: r => st' <- body st i x ;; forEach body r (Datatypes.S i) st'
  end.

(** ** The helpers of the source *)

(** The callback of [headers.filter] with its flag
    [passedAdditionalAttributeHeader] threaded through. *)
Fixpoint filterHeaders (passedAdditionalAttributeHeader : bool)
    (headers : list string) : list string :=
  match headers with
  | [] => []
  | key :: rest =>
      if passedAdditionalAttributeHeader then key :: filterHeaders true rest
      else if String.eqb key "additional_attributes"
           then filterHeaders true rest
           else filterHeaders false rest
  end.

Definition findAdditionalAttributeHeaders (headers : list string)
  : list string :=
  filterHeaders false headers.

(** [columns.indexOf(key) !== -1] *)
Definition includes (columns : list string) (key : string) : bool :=
  existsb (String.eqb key) columns.

(** [columns] is always an array at the two call sites, so the guards
    [!columns] and [!Array.isArray(columns)] never fire. *)
Definition extractColumns (data : row) (columns : list string) : row :=
  fold_left
    (fun result key =>
       if includes columns key then Obj.set result key (read data key)
       else result)
    (Obj.keys data) [].

Definition purgeColumns (data : row) (columns : list string) : row :=
  fold_left
    (fun result key =>
       if includes columns key then Obj.delete result key else result)
    (Obj.keys data) data.

Definition convertColumnsToStringKeyValue (data : row)
    (multiValueSeperator : string) : string :=
  Str.join multiValueSeperator
    (map (fun key => (key ++ "=" ++ toString (read data key))%string)
         (Obj.keys data)).

(** *** The regular expression of [parseConfigurableAttributes]

    In order: the group [attributeCode], any number of characters that are
    neither an opening parenthesis nor [\W]; at most one [\W]; an opening
    parenthesis; the group [label], any number of characters other than a
    closing parenthesis; a closing parenthesis. *)

Record groups : Type := { attributeCode : string; label : string }.

(** The label and the closing parenthesis at the start of [s]: the label is
    what stands before the first closing parenthesis. *)
Fixpoint matchLabel (s : string) : option string :=
  match s with
  | "" => None
  | String c r =>
      if Ascii.eqb c ")" then Some ""
      else option_map (String c) (matchLabel r)
  end.

(** The opening parenthesis, then the label. *)
Definition matchParen (s : string) : option string :=
  match s with
  | String "(" r => matchLabel r
  | _ => None
  end.

(** Everything after the code, at the start of [s]: the optional [\W] is
    tried first, then the match without it. *)
Definition matchRest (s : string) : option string :=
  match s with
  | "" => None
  | String c r =>
      match (if Str.isWord c then None else matchParen r) with
      | Some l => Some l
      | None => matchParen s
      end
  end.

(** The whole pattern at the start of [s]: the code takes as many
    characters as it can and gives them back one by one. *)
Fixpoint matchHere (s : string) : option groups :=
  match s with
  | "" => None
  | String c r =>
      if Str.isWord c then
        match matchHere r with
        | Some g =>
            Some {| attributeCode := String c (attributeCode g);
                    label := label g |}
        | None =>
            option_map (fun l => {| attributeCode := ""; label := l |})
                       (matchRest s)
        end
      else
        option_map (fun l => {| attributeCode := ""; label := l |})
                   (matchRest s)
  end.

(** [attr.match(re)]: the leftmost position with a match, [None] for
    [null]. *)
Fixpoint regexMatch (s : string) : option groups :=
  match matchHere s with
  | Some g => Some g
  | None =>
      match s with
      | "" => None
      | String _ r => regexMatch r
      end
  end.

(** [.groups] of a [null] match is the engine's [TypeError]; the array
    [matches] is truthy whenever it exists, so the branch returning [false]
    is never taken. *)
Fixpoint matchAll (pieces : list string) : result (list groups) :=
  match pieces with
  | [] => Ok []
  | attr :: rest =>
      match regexMatch attr with
      | Some g => gs <- matchAll rest ;; Ok (g :: gs)
      | None => Err (TypeError GroupsOfNull)
      end
  end.

Definition parseConfigurableAttributes (configurableAttributes : string)
  : result (list groups) :=
  matchAll (Str.split "," configurableAttributes).

(** ** The handler *)

(** [event.queryStringParameters], the three parameters the rewriting
    depends on ([only_csv] only selects the envelope of the response). *)
Record query : Type := {
  multi_value_seperator : option string;
  value_group_seperator : option string;
  auto_stock_status_threshold : option string
}.

Record options : Type := {
  multiValueSeperator : string;
  valueGroupSeperator : string;
  autoStockStatusThreshold : option Num.t   (* [None] is [null] *)
}.

(** [p || fallback] on a parameter that is a string or [undefined]. *)
Definition orDefault (p : option string) (fallback : string) : string :=
  match p with
  | Some s => if String.eqb s "" then fallback else s
  | None => fallback
  end.

Definition establishOptions (q : query) : options :=
  {| multiValueSeperator := orDefault (multi_value_seperator q) "|";
     valueGroupSeperator := orDefault (value_group_seperator q) "$";
     autoStockStatusThreshold :=
       let n := Num.parseInt (match auto_stock_status_threshold q with
                              | Some s => s
                              | None => "undefined"
                              end) in
       if Num.truthy n then Some n else None |}.

(** *** Index SKUs *)

Record index : Type := {
  skuIndex : Obj.t nat;
  duplicateSkus : list string
}.

Definition indexRow (st : index) (i : nat) (r : record) : result index :=
  match Obj.getOwn r "sku" with
  | None => Err (TypeError SkuUndefined)
  | Some sku =>
      if (String.length (Str.trim sku) =? 0)%nat then Ok st
      else
        Ok {| skuIndex := Obj.set (skuIndex st) sku i;
              duplicateSkus :=
                match Obj.get (skuIndex st) sku with
                | Obj.Missing => duplicateSkus st
                | _ => duplicateSkus st ++ [sku]
                end |}
  end.

Definition indexSkus (data : list record) : result index :=
  forEach indexRow data 0%nat {| skuIndex := []; duplicateSkus := [] |}.

(** [duplicateSkus.length.length] is [undefined], so the plural is never
    chosen. *)
Definition duplicateMessage (duplicateSkus : list string) : string :=
  "Can't handle duplicate SKU" ++ "" ++ ": " ++ Str.join ", " duplicateSkus.

(** *** Interdependencies *)

Record relations : Type := {
  configurableChildrenByParent : Obj.t (list string);
  configurableLabelsByParent : Obj.t string;
  configurableParentByChildren : Obj.t string;
  configurableAttributeValuesByChildren : Obj.t (Obj.t value)
}.

Definition noRelations : relations :=
  {| configurableChildrenByParent := [];
     configurableLabelsByParent := [];
     configurableParentByChildren := [];
     configurableAttributeValuesByChildren := [] |}.

Definition missingValueMessage (code sku : string) : string :=
  "Couldn't find value for " ++ code ++ " on child simple product " ++ sku.

(** The body of [configurableAttributes.forEach]: [values] is the map
    [configurableAttributeValuesByChildren].  The SKU is an own key of it:
    it was assigned just before, and the one SKU an assignment leaves out,
    [__proto__], was reported by the first pass. *)
Definition storeValue (r : record) (sku : string)
    (values : Obj.t (Obj.t value)) (_ : nat) (attr : groups)
  : result (Obj.t (Obj.t value)) :=
  let v := cell r (attributeCode attr) in
  if negb (truthy v)
  then Err (Thrown (missingValueMessage (attributeCode attr) sku))
  else
    match Obj.get values sku with
    | Obj.Own o => Ok (Obj.set values sku (Obj.set o (attributeCode attr) v))
    | _ => Ok values
    end.

Definition labelsOf (multiValueSeperator : string) (attrs : list groups)
  : string :=
  Str.join multiValueSeperator
    (map (fun attr => (attributeCode attr ++ "=" ++ label attr)%string) attrs).

(** A string cell is truthy when it is there and not empty. *)
Definition populated (c : option string) : option string :=
  match c with
  | Some s => if String.eqb s "" then None else Some s
  | None => None
  end.

(** Establish configurable parent/child relationships: the body of the
    [if] on [row.parent_sku && row.configurable_attributes]. *)
Definition establishRelationship (opts : options) (st : relations)
    (r : record) (sku parent_sku configurable_attributes : string)
  : result relations :=
  let children :=
    match Obj.get (configurableChildrenByParent st) parent_sku with
    | Obj.Missing => Obj.set (configurableChildrenByParent st) parent_sku []
    | _ => configurableChildrenByParent st
    end in
  configurableAttributes <-
    parseConfigurableAttributes configurable_attributes ;;
  children <-
    match Obj.get children parent_sku with
    | Obj.Own l => Ok (Obj.set children parent_sku (l ++ [sku]))
    | _ => Err (TypeError PushNotAFunction)
    end ;;
  values <-
    forEach (storeValue r sku) configurableAttributes 0%nat
      (Obj.set (configurableAttributeValuesByChildren st) sku []) ;;
  Ok {| configurableChildrenByParent := children;
        configurableLabelsByParent :=
          Obj.set (configurableLabelsByParent st) parent_sku
            (labelsOf (multiValueSeperator opts) configurableAttributes);
        configurableParentByChildren :=
          Obj.set (configurableParentByChildren st) sku parent_sku;
        configurableAttributeValuesByChildren := values |}.

(** The body of the second [data.forEach]. *)
Definition relateRow (opts : options) (st : relations) (_ : nat)
    (r : record) : result relations :=
  match Obj.getOwn r "sku" with
  | None => Err (TypeError SkuUndefined)
  | Some sku =>
      if (String.length sku =? 0)%nat then Ok st
      else
        match populated (Obj.getOwn r "parent_sku"),
              populated (Obj.getOwn r "configurable_attributes") with
        | Some parent_sku, Some configurable_attributes =>
            establishRelationship opts st r sku parent_sku
              configurable_attributes
        | _, _ => Ok st
        end
  end.

Definition buildRelationships (opts : options) (data : list record)
  : result relations :=
  forEach (relateRow opts) data 0%nat noRelations.

(** *** Modifying the rows *)

(** [Object.assign(target, source)] *)
Definition assign (target source : row) : row :=
  fold_left (fun o key => Obj.set o key (read source key))
            (Obj.keys source) target.

(** [configurableAttributeValuesByChildren[childSku]] as
    [Object.assign] takes it: a child SKU without an own entry
    contributes nothing. *)
Definition attributeValuesOf (rels : relations) (childSku : string) : row :=
  match Obj.get (configurableAttributeValuesByChildren rels) childSku with
  | Obj.Own values => values
  | _ => []
  end.

(** The object [variations] built for a child at a parent row. *)
Definition variationsOf (rels : relations) (childSku : string) : row :=
  assign [("sku", VStr childSku)] (attributeValuesOf rels childSku).

(** The argument of [.map] at a parent row. *)
Definition encodeChild (opts : options) (rels : relations)
    (childSku : string) : string :=
  convertColumnsToStringKeyValue (variationsOf rels childSku)
    (multiValueSeperator opts).

Definition encodeVariations (opts : options) (rels : relations)
    (children : list string) : string :=
  Str.join (valueGroupSeperator opts) (map (encodeChild opts rels) children).

(** Add any placeholder columns, for consistency.  The array
    [additionalAttributeHeaders] is truthy even when it is empty. *)
Definition addPlaceholders (rels : relations) (r : row) : row :=
  let r :=
    if (List.length (Obj.keys (configurableChildrenByParent rels)) =? 0)%nat
    then r
    else Obj.set (Obj.set r "configurable_variations" (VStr ""))
                 "configurable_variation_labels" (VStr "") in
  Obj.set r "additional_attributes" (VStr "").

(** Add configurable data to parent. *)
Definition addConfigurableData (opts : options) (rels : relations)
    (sku : string) (r : row) : result row :=
  match Obj.get (configurableChildrenByParent rels) sku with
  | Obj.Missing => Ok r
  | Obj.Inherited => Err (TypeError MapNotAFunction)
  | Obj.Own children =>
      Ok (Obj.set
            (Obj.set r "configurable_variations"
                     (VStr (encodeVariations opts rels children)))
            "configurable_variation_labels"
            (match Obj.get (configurableLabelsByParent rels) sku with
             | Obj.Own labels => VStr labels
             | Obj.Inherited => VBuiltin sku
             | Obj.Missing => VUndefined
             end))
  end.

(** Squash additional attribute keys/values. *)
Definition squashAdditionalAttributes (opts : options)
    (additionalAttributeHeaders : list string) (r : row) : row :=
  let additionalAttributes := extractColumns r additionalAttributeHeaders in
  Obj.set r "additional_attributes"
    (VStr (convertColumnsToStringKeyValue additionalAttributes
             (multiValueSeperator opts))).

(** Auto stock status. *)
Definition autoStockStatus (opts : options) (r : row) : row :=
  match autoStockStatusThreshold opts with
  | None => r
  | Some threshold =>
      if Num.truthy threshold && truthy (read r "qty")
         && truthy (read r "is_in_stock")
      then
        let qty := Num.parseInt (toString (read r "qty")) in
        if Num.ge qty threshold
        then Obj.set r "is_in_stock" (VNum 1)
        else Obj.set r "is_in_stock" (VNum 0)
      else r
  end.

(** Remove any and all fake columns. *)
Definition purgeFakeColumns (additionalAttributeHeaders : list string)
    (r : row) : row :=
  purgeColumns (purgeColumns r ["parent_sku"; "configurable_attributes"])
               additionalAttributeHeaders.

(** The body of the third [data.forEach]; [modifiedData] is the state. *)
Definition modifyRow (opts : options) (rels : relations)
    (additionalAttributeHeaders : list string)
    (modifiedData : list row) (_ : nat) (r : record) : result (list row) :=
  match Obj.getOwn r "sku" with
  | None => Err (TypeError SkuUndefined)
  | Some sku =>
      if (String.length (Str.trim sku) =? 0)%nat then Ok modifiedData
      else
        r1 <- addConfigurableData opts rels sku
                (addPlaceholders rels (ofRecord r)) ;;
        Ok (modifiedData ++
            [purgeFakeColumns additionalAttributeHeaders
               (autoStockStatus opts
                  (squashAdditionalAttributes opts
                     additionalAttributeHeaders r1))])
  end.

Definition modifyRows (opts : options) (rels : relations)
    (additionalAttributeHeaders : list string) (data : list record)
  : result (list row) :=
  forEach (modifyRow opts rels additionalAttributeHeaders) data 0%nat [].

(** The [try] block of the handler: [Ok modifiedData] goes on to
    [Papa.unparse] and a response with status code 200, [Err e] to the
    [catch] clause. *)
Definition transform (opts : options) (data : list record)
  : result (list row) :=
  match data with
  | [] => Err (TypeError KeysOfUndefined)
  | first :: _ =>
      let additionalAttributeHeaders :=
        findAdditionalAttributeHeaders (Obj.keys first) in
      idx <- indexSkus data ;;
      match duplicateSkus idx with
      | _ :: _ => Err (Thrown (duplicateMessage (duplicateSkus idx)))
      | [] =>
          rels <- buildRelationships opts data ;;
          modifyRows opts rels additionalAttributeHeaders data
      end
  end.

Definition handler (q : query) (data : list record) : result (list row) :=
  transform (establishOptions q) data.

(** ** Notions of the specification *)

(** "A non-numeric string": after leading white space and one optional
    sign it does not begin with a decimal digit. *)
Definition nonNumeric (s : string) : bool :=
  match snd (Num.stripSign (Str.trimStart s)) with
  | "" => true
  | String c _ => negb (Str.isDigit c)
  end.

(** The three columns the steps before the override write. *)
Definition written (k : string) : Prop :=
  k = "configurable_variations" \/ k = "configurable_variation_labels"
  \/ k = "additional_attributes".

(** A request without query parameters: the default separators, no
    threshold. *)
Definition noParameters : query :=
  {| multi_value_seperator := None;
     value_group_seperator := None;
     auto_stock_status_threshold := None |}.

(** A blank SKU, as the first and the third pass test it. *)
Definition blank (sku : string) : bool :=
  (String.length (Str.trim sku) =? 0)%nat.

(** The SKUs of the rows that are not blank, in input order. *)
Fixpoint nonBlankSkus (data : list record) : list string :=
  match data with
  | [] => []
  | r :: rest =>
      match Obj.getOwn r "sku" with
      | Some sku =>
          if blank sku then nonBlankSkus rest else sku :: nonBlankSkus rest
      | None => nonBlankSkus rest
      end
  end.

(** The rows that are not blank, in input order. *)
Definition nonBlankRows (data : list record) : list record :=
  filter (fun r => match Obj.getOwn r "sku" with
                   | Some sku => negb (blank sku)
                   | None => false
                   end) data.

(** A child row as the second pass takes it: its SKU is not the empty
    string and its [parent_sku] and [configurable_attributes] cells are
    populated.  The result is the SKU, the parent SKU and the attribute
    specification. *)
Definition child (r : record) : option (string * string * string) :=
  match Obj.getOwn r "sku",
        populated (Obj.getOwn r "parent_sku"),
        populated (Obj.getOwn r "configurable_attributes") with
  | Some sku, Some parent, Some spec =>
      if (String.length sku =? 0)%nat then None else Some (sku, parent, spec)
  | _, _, _ => None
  end.

(** The row is a child of the parent SKU. *)
Definition isChildOf (parent : string) (r : record) : bool :=
  match child r with
  | Some (_, p, _) => String.eqb p parent
  | None => false
  end.

(** The row is a child with the SKU. *)
Definition hasChildSku (sku : string) (r : record) : bool :=
  match child r with
  | Some (s, _, _) => String.eqb s sku
  | None => false
  end.

(** [row.sku], for a row that has the cell. *)
Definition skuOf (r : record) : string :=
  match Obj.getOwn r "sku" with
  | Some sku => sku
  | None => ""
  end.

(** The parsed specification of a child row, empty when it does not
    parse. *)
Definition specOf (r : record) : list groups :=
  match child r with
  | Some (_, _, spec) =>
      match parseConfigurableAttributes spec with
      | Ok attrs => attrs
      | Err _ => []
      end
  | None => []
  end.

(** The attribute values a child row contributes. *)
Definition valuesFrom (r : record) (attrs : list groups) (o : Obj.t value)
  : Obj.t value :=
  fold_left
    (fun o attr =>
       Obj.set o (attributeCode attr) (cell r (attributeCode attr)))
    attrs o.

(** The first attribute code of a specification for which [row[code]] is
    falsy: no cell, or an empty one, and, where there is no cell, a code
    that names no property of [Object.prototype]. *)
Fixpoint firstMissing (r : record) (attrs : list groups) : option string :=
  match attrs with
  | [] => None
  | attr :: rest =>
      if truthy (cell r (attributeCode attr)) then firstMissing r rest
      else Some (attributeCode attr)
  end.

(** The list under a key, empty when the key is not there. *)
Definition orEmpty {A} (o : option (list A)) : list A :=
  match o with
  | Some l => l
  | None => []
  end.

(** The last element of a list. *)
Fixpoint lastOf {A} (l : list A) : option A :=
  match l with
  | [] => None
  | x :: r =>
      match lastOf r with
      | Some y => Some y
      | None => Some x
      end
  end.

(** A row passes the checks of the second pass: it has a [sku] cell and,
    when it is a child row, its parent SKU names no property of
    [Object.prototype], its specification parses and [row[code]] is truthy
    for every attribute code of it. *)
Definition passesChecks (r : record) : Prop :=
  (exists sku, Obj.getOwn r "sku" = Some sku)
  /\ forall sku parent spec,
       child r = Some (sku, parent, spec) ->
       Obj.inPrototype parent = false
       /\ exists attrs,
            parseConfigurableAttributes spec = Ok attrs
            /\ firstMissing r attrs = None.

(** What the third pass makes of one row that is not blank. *)
Definition rewriteRow (opts : options) (rels : relations)
    (additionalAttributeHeaders : list string) (r : record) : result row :=
  r1 <- addConfigurableData opts rels (skuOf r)
          (addPlaceholders rels (ofRecord r)) ;;
  Ok (purgeFakeColumns additionalAttributeHeaders
        (autoStockStatus opts
           (squashAdditionalAttributes opts additionalAttributeHeaders r1))).

(** The headers of the dataset, read off its first row. *)
Definition headersOf (data : list record) : list string :=
  match data with
  | [] => []
  | first :: _ => Obj.keys first
  end.

(** Decoding, in the words of the specification: split on the group
    separator, then each group on the multi-value separator, then each
    pair on [=]. *)
Definition decodeVariations (opts : options) (s : string)
  : list (list (list string)) :=
  map (fun group =>
         map (Str.split "=") (Str.split (multiValueSeperator opts) group))
      (Str.split (valueGroupSeperator opts) s).

(** What was encoded for a child: the keys of [variations] with the text
    of their values. *)
Definition encodedPairs (rels : relations) (childSku : string)
  : list (list string) :=
  map (fun key => [key; toString (read (variationsOf rels childSku) key)])
      (Obj.keys (variationsOf rels childSku)).

(** No character of [s] occurs in [sep]. *)
Definition avoids (sep s : string) : Prop :=
  forall c, Str.occurs c s = true -> Str.occurs c sep = false.

(** The same as a test. *)
Fixpoint avoidsb (sep s : string) : bool :=
  match s with
  | "" => true
  | String c r => negb (Str.occurs c sep) && avoidsb sep r
  end.

(** A key or a value that can be told from the punctuation of the
    encoding. *)
Definition plain (opts : options) (s : string) : Prop :=
  avoids "=" s
  /\ avoids (multiValueSeperator opts) s
  /\ avoids (valueGroupSeperator opts) s.

(** ** Notions for the further properties *)

(** The piece has an opening parenthesis and, somewhere after it, a
    closing one. *)
Definition parenthesised (piece : string) : Prop :=
  exists before inside after,
    piece = (before ++ "(" ++ inside ++ ")" ++ after)%string.

(** Every character of the string is a word character. *)
Fixpoint allWord (s : string) : bool :=
  match s with
  | "" => true
  | String c r => Str.isWord c && allWord r
  end.

(** The entry [code(label)] of a specification. *)
Definition entry (attr : groups) : string :=
  (attributeCode attr ++ "(" ++ label attr ++ ")")%string.

(** A code of word characters and a label that has neither a comma nor a
    closing parenthesis and does not begin with an opening one. *)
Definition wellFormed (attr : groups) : Prop :=
  allWord (attributeCode attr) = true
  /\ Str.occurs ")" (label attr) = false
  /\ Str.occurs "," (label attr) = false
  /\ String.prefix "(" (label attr) = false.

(** What the pattern reads in a piece: the code, at most one character that
    is not a word character, and the label between parentheses. *)
Definition reads (piece : string) (attr : groups) : Prop :=
  exists before gap after,
    piece = (before ++ attributeCode attr ++ gap
               ++ "(" ++ label attr ++ ")" ++ after)%string
    /\ (gap = "" \/ exists c, gap = String c "" /\ Str.isWord c = false).

(** The columns the third pass removes from a row. *)
Definition purged (additionalAttributeHeaders : list string) (k : string)
  : Prop :=
  k = "parent_sku" \/ k = "configurable_attributes"
  \/ In k additionalAttributeHeaders.

(** The columns the third pass may write or remove. *)
Definition rewritten (additionalAttributeHeaders : list string) (k : string)
  : Prop :=
  written k \/ k = "is_in_stock" \/ purged additionalAttributeHeaders k.

(** The dataset has a child row. *)
Definition anyChild (data : list record) : bool :=
  existsb (fun r => match child r with Some _ => true | None => false end)
          data.

(** The integer a non-empty string of decimal digits writes. *)
Definition decimal (s : string) : option Z :=
  match s with
  | "" => None
  | _ => option_map Z.of_N (Obj.digitsValue 0 s)
  end.

(** The object [variations] of a child row: [Object.assign] of
    [{sku: childSku}] and its values, [row[code]] for each code of its
    specification, assigned in the order of the specification. *)
Definition variationsFrom (c : record) : row :=
  assign [("sku", VStr (skuOf c))] (valuesFrom c (specOf c) []).

(** ** Sample datasets *)

Module Sample.

(** A threshold of ten, and one that is not a number. *)
Definition thresholdTen : query :=
  {| multi_value_seperator := None;
     value_group_seperator := None;
     auto_stock_status_threshold := Some "10" |}.

Definition thresholdNone : query :=
  {| multi_value_seperator := None;
     value_group_seperator := None;
     auto_stock_status_threshold := Some " -none" |}.


(** A parent with two children, some stock columns and one additional
    attribute. *)
Definition family : list record :=
  [ [("sku", "P"); ("parent_sku", ""); ("configurable_attributes", "");
     ("color", ""); ("size", ""); ("qty", "10"); ("is_in_stock", "0");
     ("additional_attributes", ""); ("brand", "x")];
    [("sku", "C1"); ("parent_sku", "P");
     ("configurable_attributes", "color(Color),size(Size)");
     ("color", "red"); ("size", "S"); ("qty", "9"); ("is_in_stock", "1");
     ("additional_attributes", ""); ("brand", "y")];
    [("sku", "C2"); ("parent_sku", "P");
     ("configurable_attributes", "color(Color),size(Size)");
     ("color", "blue"); ("size", "M"); ("qty", "x"); ("is_in_stock", "1");
     ("additional_attributes", ""); ("brand", "")] ].

(** The same family in a file whose header row already has a
    [configurable_variations] column, after [additional_attributes]. *)
Definition familyWithTrailingColumn : list record :=
  [ [("sku", "P"); ("parent_sku", ""); ("configurable_attributes", "");
     ("color", ""); ("size", ""); ("additional_attributes", "");
     ("configurable_variations", "")];
    [("sku", "C1"); ("parent_sku", "P");
     ("configurable_attributes", "color(Color),size(Size)");
     ("color", "red"); ("size", "S"); ("additional_attributes", "");
     ("configurable_variations", "")];
    [("sku", "C2"); ("parent_sku", "P");
     ("configurable_attributes", "color(Color),size(Size)");
     ("color", "blue"); ("size", "M"); ("additional_attributes", "");
     ("configurable_variations", "")] ].




(** One product whose SKU is the name of an inherited property. *)
Definition constructorOnly : list record :=
  [ [("sku", "constructor"); ("qty", "1")] ].

(** A child whose SKU is a single space. *)
Definition whitespaceSkuChild : list record :=
  [ [("sku", "P"); ("parent_sku", ""); ("configurable_attributes", "");
     ("color", "")];
    [("sku", " "); ("parent_sku", "P");
     ("configurable_attributes", "color(Color)"); ("color", "red")] ].

(** A child whose parent is not in the dataset. *)
Definition orphan : list record :=
  [ [("sku", "A"); ("parent_sku", ""); ("configurable_attributes", "");
     ("color", "")];
    [("sku", "C"); ("parent_sku", "GONE");
     ("configurable_attributes", "color(Color)"); ("color", "red")] ].

(** A child whose parent SKU names a property of [Object.prototype]. *)
Definition inheritedParent : list record :=
  [ [("sku", "C1"); ("parent_sku", "toString");
     ("configurable_attributes", "size(Size)"); ("size", "S")] ].

(** A SKU that comes three times. *)
Definition repeated : list record :=
  [ [("sku", "A")]; [("sku", "B")]; [("sku", "A")]; [("sku", "A")] ].

(** The dataset [orphan] with [toString] as the parent SKU of the child. *)
Definition inheritedOrphan : list record :=
  [ [("sku", "A"); ("parent_sku", ""); ("configurable_attributes", "");
     ("color", "")];
    [("sku", "C"); ("parent_sku", "toString");
     ("configurable_attributes", "color(Color)"); ("color", "red")] ].

(** A child whose specification names [toString], for which it has no
    cell. *)
Definition inheritedCode : list record :=
  [ [("sku", "P"); ("parent_sku", ""); ("configurable_attributes", "")];
    [("sku", "C1"); ("parent_sku", "P");
     ("configurable_attributes", "toString(T)")] ].

(** A child with a value that contains the multi-value separator. *)
Definition separatorInValue : list record :=
  [ [("sku", "P"); ("parent_sku", ""); ("configurable_attributes", "");
     ("color", "")];
    [("sku", "C1"); ("parent_sku", "P");
     ("configurable_attributes", "color(Color)"); ("color", "a|b")] ].

End Sample.

(** The datasets the first pass accepts: every row has a [sku] cell, the
    SKUs that are not blank are pairwise distinct, and none of them names
    a property of [Object.prototype]. *)
Definition acceptedSkus (data : list record) : Prop :=
  (forall r, In r data -> exists sku, Obj.getOwn r "sku" = Some sku)
  /\ NoDup (nonBlankSkus data)
  /\ (forall s, In s (nonBlankSkus data) -> Obj.inPrototype s = false).

(** The SKUs of a list that repeat an earlier one, once per occurrence
    after the first; [seen] holds the SKUs met so far. *)
Fixpoint repeats (seen skus : list string) : list string :=
  match skus with
  | [] => []
  | s :: rest =>
      (if existsb (String.eqb s) seen then [s] else [])
      ++ repeats (s :: seen) rest
  end.

(** The row has no non-empty cell in the column. *)
Definition lacksValue (r : record) (code : string) : Prop :=
  populated (Obj.getOwn r code) = None.

(** * Properties *)

(** ** Objects: reading after writing *)

Module ObjFacts.
Import Obj.

Lemma getOwn_replace {V} (o : t V) k v k' :
  getOwn (replace o k v) k' =
  match getOwn o k with
  | Some _ => if String.eqb k k' then Some v else getOwn o k'
  | None => getOwn o k'
  end.
Proof.
  induction o as [|[k0 v0] o IH]; simpl; [reflexivity|].
  destruct (String.eqb_spec k0 k) as [->|Hk0]; simpl.
  - destruct (String.eqb k k'); reflexivity.
  - rewrite IH. destruct (getOwn o k); [|reflexivity].
    destruct (String.eqb_spec k0 k') as [->|]; [|reflexivity].
    destruct (String.eqb_spec k k'); congruence.
Qed.

Lemma getOwn_insertIndex {V} n (o : t V) k v k' :
  getOwn o k = None ->
  getOwn (insertIndex n k v o) k' =
  if String.eqb k k' then Some v else getOwn o k'.
Proof.
  induction o as [|[k0 v0] o IH]; simpl; intros Hk; [reflexivity|].
  destruct (String.eqb_spec k0 k) as [->|Hk0]; [discriminate|].
  destruct (arrayIndex k0) as [m|]; [destruct (m <? n)%N|]; simpl;
    try reflexivity.
  rewrite (IH Hk).
  destruct (String.eqb_spec k0 k') as [->|]; [|reflexivity].
  destruct (String.eqb_spec k k'); congruence.
Qed.

Lemma getOwn_app {V} (o : t V) k v k' :
  getOwn o k = None ->
  getOwn (o ++ [(k, v)]) k' =
  if String.eqb k k' then Some v else getOwn o k'.
Proof.
  induction o as [|[k0 v0] o IH]; simpl; intros Hk; [reflexivity|].
  destruct (String.eqb_spec k0 k) as [->|Hk0]; [discriminate|].
  rewrite (IH Hk).
  destruct (String.eqb_spec k0 k') as [->|]; [|reflexivity].
  destruct (String.eqb_spec k k'); congruence.
Qed.

(** [o[k] = v] changes what [o[k]] finds and nothing else; assigning to
    [__proto__] changes nothing. *)
Lemma getOwn_set {V} (o : t V) k v k' :
  getOwn (set o k v) k' =
  if String.eqb k "__proto__" then getOwn o k'
  else if String.eqb k k' then Some v else getOwn o k'.
Proof.
  unfold set. destruct (String.eqb k "__proto__"); [reflexivity|].
  destruct (getOwn o k) eqn:Hk.
  - rewrite getOwn_replace, Hk. reflexivity.
  - destruct (arrayIndex k).
    + apply getOwn_insertIndex, Hk.
    + apply getOwn_app, Hk.
Qed.

Lemma getOwn_set_same {V} (o : t V) k v :
  k <> "__proto__" -> getOwn (set o k v) k = Some v.
Proof.
  intros H. rewrite getOwn_set.
  destruct (String.eqb_spec k "__proto__"); [contradiction|].
  now rewrite String.eqb_refl.
Qed.

Lemma getOwn_set_other {V} (o : t V) k v k' :
  k <> k' -> getOwn (set o k v) k' = getOwn o k'.
Proof.
  intros H. rewrite getOwn_set.
  destruct (String.eqb k "__proto__"); [reflexivity|].
  destruct (String.eqb_spec k k'); [contradiction|reflexivity].
Qed.

Lemma get_set_other {V} (o : t V) k v k' :
  k <> k' -> get (set o k v) k' = get o k'.
Proof. intros H. unfold get. now rewrite getOwn_set_other. Qed.

Lemma get_set_same {V} (o : t V) k v :
  k <> "__proto__" -> get (set o k v) k = Own v.
Proof. intros H. unfold get. now rewrite getOwn_set_same. Qed.

Lemma get_missing {V} (o : t V) k :
  get o k = Missing <-> getOwn o k = None /\ inPrototype k = false.
Proof.
  unfold get. destruct (getOwn o k); [|destruct (inPrototype k)];
    split; intros H; try discriminate; try tauto; destruct H; discriminate.
Qed.

Lemma get_own {V} (o : t V) k v :
  get o k = Own v <-> getOwn o k = Some v.
Proof.
  unfold get. destruct (getOwn o k); [|destruct (inPrototype k)];
    split; intros H; try discriminate; congruence.
Qed.

Lemma inPrototype_proto : inPrototype "__proto__" = true.
Proof. reflexivity. Qed.

Lemma not_inPrototype_proto k : inPrototype k = false -> k <> "__proto__".
Proof. intros H ->. discriminate. Qed.

Lemma getOwn_delete {V} (o : t V) k k' :
  getOwn (delete o k) k' = if String.eqb k k' then None else getOwn o k'.
Proof.
  induction o as [|[k0 v0] o IH]; simpl.
  - now destruct (String.eqb k k').
  - destruct (String.eqb_spec k0 k) as [->|Hk0]; simpl.
    + rewrite IH. destruct (String.eqb k k'); reflexivity.
    + rewrite IH. destruct (String.eqb_spec k0 k') as [->|]; [|reflexivity].
      destruct (String.eqb_spec k k'); congruence.
Qed.

Lemma getOwn_keys {V} (o : t V) k :
  getOwn o k <> None <-> In k (keys o).
Proof.
  induction o as [|[k0 v0] o IH]; simpl.
  - tauto.
  - destruct (String.eqb_spec k0 k) as [->|Hk0].
    + split; [auto|discriminate].
    + rewrite IH. tauto.
Qed.

End ObjFacts.

(** ** Rows: reading after writing *)

Import ObjFacts.

Lemma read_set_same (r : row) k v :
  k <> "__proto__" -> read (Obj.set r k v) k = v.
Proof. intros H. unfold read. now rewrite get_set_same. Qed.

Lemma read_set_other (r : row) k v k' :
  k <> k' -> read (Obj.set r k v) k' = read r k'.
Proof. intros H. unfold read. now rewrite get_set_other. Qed.

Lemma getOwn_ofRecord (rec : record) k :
  Obj.getOwn (ofRecord rec) k = option_map VStr (Obj.getOwn rec k).
Proof.
  induction rec as [|[k0 s] rec IH]; simpl; [reflexivity|].
  destruct (String.eqb k0 k); [reflexivity|apply IH].
Qed.

Lemma read_ofRecord (rec : record) k : read (ofRecord rec) k = cell rec k.
Proof.
  unfold read, cell, Obj.get. rewrite getOwn_ofRecord.
  destruct (Obj.getOwn rec k); simpl; [reflexivity|].
  destruct (Obj.inPrototype k); reflexivity.
Qed.

Lemma read_addPlaceholders rels (r : row) k :
  ~ written k -> read (addPlaceholders rels r) k = read r k.
Proof.
  unfold written, addPlaceholders. intros H.
  rewrite read_set_other by (intros <-; tauto).
  destruct (_ =? _)%nat; [reflexivity|].
  rewrite !read_set_other by (intros <-; tauto). reflexivity.
Qed.

Lemma read_addConfigurableData opts rels sku (r r1 : row) k :
  addConfigurableData opts rels sku r = Ok r1 ->
  ~ written k -> read r1 k = read r k.
Proof.
  unfold written, addConfigurableData. intros H Hk.
  destruct (Obj.get _ sku); inversion H; subst; [|reflexivity].
  rewrite !read_set_other by (intros <-; tauto). reflexivity.
Qed.

Lemma read_squashAdditionalAttributes opts addl (r : row) k :
  ~ written k -> read (squashAdditionalAttributes opts addl r) k = read r k.
Proof.
  unfold written, squashAdditionalAttributes. intros H.
  rewrite read_set_other by (intros <-; tauto). reflexivity.
Qed.

(** Up to the override a row keeps the cells it was parsed with, but for
    the three written columns. *)
Lemma read_before_override opts rels addl sku (rec : record) (r1 : row) k :
  addConfigurableData opts rels sku (addPlaceholders rels (ofRecord rec))
  = Ok r1 ->
  ~ written k ->
  read (squashAdditionalAttributes opts addl r1) k = cell rec k.
Proof.
  intros H Hk. rewrite read_squashAdditionalAttributes by assumption.
  rewrite (read_addConfigurableData _ _ _ _ _ _ H) by assumption.
  rewrite read_addPlaceholders by assumption. apply read_ofRecord.
Qed.

Lemma cell_populated (rec : record) k :
  Obj.inPrototype k = false ->
  match populated (Obj.getOwn rec k) with
  | Some s => cell rec k = VStr s /\ truthy (cell rec k) = true
  | None => truthy (cell rec k) = false
  end.
Proof.
  intros Hk. unfold cell, Obj.get, populated. rewrite Hk.
  destruct (Obj.getOwn rec k) as [s|]; [|reflexivity].
  destruct (String.eqb_spec s "") as [->|Hs]; [reflexivity|].
  split; [reflexivity|]. simpl.
  destruct (String.eqb_spec s ""); [contradiction|reflexivity].
Qed.

(** ** The additional-attribute locator *)

Lemma filterHeaders_passed l : filterHeaders true l = l.
Proof. induction l as [|h l IH]; simpl; [|rewrite IH]; reflexivity. Qed.

Lemma filterHeaders_before before after :
  ~ In "additional_attributes" before ->
  filterHeaders false (before ++ "additional_attributes" :: after) = after.
Proof.
  induction before as [|h before IH]; simpl; intros H.
  - apply filterHeaders_passed.
  - destruct (String.eqb_spec h "additional_attributes") as [->|_];
      [tauto|]. apply IH. tauto.
Qed.

Lemma filterHeaders_absent l :
  ~ In "additional_attributes" l -> filterHeaders false l = [].
Proof.
  induction l as [|h l IH]; simpl; intros H; [reflexivity|].
  destruct (String.eqb_spec h "additional_attributes") as [->|_];
    [tauto|]. apply IH. tauto.
Qed.

(** C5, as amended: the locator returns the headers that stand strictly
    after the first header named [additional_attributes], in their
    original order, the marker itself left out; for a header list without
    the marker the result is empty. *)
Theorem additional_attribute_headers_follow_marker (headers : list string) :
  (forall before after,
      headers = before ++ "additional_attributes" :: after ->
      ~ In "additional_attributes" before ->
      findAdditionalAttributeHeaders headers = after)
  /\ (~ In "additional_attributes" headers ->
      findAdditionalAttributeHeaders headers = []).
Proof.
  split.
  - intros before after -> H. now apply filterHeaders_before.
  - apply filterHeaders_absent.
Qed.

Lemma additional_attribute_headers_follow_marker_witness :
  findAdditionalAttributeHeaders
    ["sku"; "qty"; "additional_attributes"; "brand"; "material"]
  = ["brand"; "material"]
  /\ findAdditionalAttributeHeaders ["sku"; "qty"] = [].
Proof.
  split.
  - apply (proj1 (additional_attribute_headers_follow_marker _)
             ["sku"; "qty"] ["brand"; "material"]); [reflexivity|].
    simpl. intros [H|[H|[]]]; discriminate H.
  - apply (proj2 (additional_attribute_headers_follow_marker _)).
    simpl. intros [H|[H|[]]]; discriminate H.
Defined.

(** C5 as it was stated fails twice: the marker is not part of the result,
    and a dataset without the marker still gets an [additional_attributes]
    column on its output rows. *)
Lemma marker_header_not_included :
  findAdditionalAttributeHeaders ["sku"; "additional_attributes"; "brand"]
  <> ["additional_attributes"; "brand"]
  /\ findAdditionalAttributeHeaders ["sku"] = []
  /\ transform (establishOptions
                  {| multi_value_seperator := None;
                     value_group_seperator := None;
                     auto_stock_status_threshold := None |})
               [[("sku", "A")]]
     = Ok [[("sku", VStr "A"); ("additional_attributes", VStr "")]].
Proof. repeat split. discriminate. Qed.

(** ** The stock-status override *)


Lemma ge_NaN threshold : Num.ge Num.NaN threshold = false.
Proof. reflexivity. Qed.


(** ** A threshold that parses to nothing *)

Lemma digitValue_nondigit c :
  Str.isDigit c = false -> Num.digitValue 10 c = None.
Proof.
  destruct c as [[] [] [] [] [] [] [] []]; intros H;
    try discriminate H; reflexivity.
Qed.

Lemma stripPrefix_nondigit c r :
  Str.isDigit c = false -> Num.stripPrefix (String c r) = (10%Z, String c r).
Proof.
  destruct c as [[] [] [] [] [] [] [] []]; intros H;
    try discriminate H; reflexivity.
Qed.

Lemma parseInt_nonNumeric s : nonNumeric s = true -> Num.parseInt s = Num.NaN.
Proof.
  unfold nonNumeric, Num.parseInt.
  destruct (Num.stripSign (Str.trimStart s)) as [negative t]. simpl.
  destruct t as [|c r]; [reflexivity|]. intros H.
  apply negb_true_iff in H. rewrite (stripPrefix_nondigit c r H).
  simpl. now rewrite (digitValue_nondigit c H).
Qed.

Lemma threshold_null (q : query) s :
  auto_stock_status_threshold q = Some s ->
  s = "0" \/ nonNumeric s = true ->
  autoStockStatusThreshold (establishOptions q) = None.
Proof.
  intros Hq Hs. simpl. rewrite Hq.
  destruct Hs as [->|Hs]; [reflexivity|].
  now rewrite (parseInt_nonNumeric s Hs).
Qed.

(** C9: when [auto_stock_status_threshold] is supplied as [0] or as a
    non-numeric string the parsed threshold is [null]; the override then
    leaves every row as it is, whatever its [qty] and [is_in_stock], and
    the handler answers as if the option had not been given. *)
Theorem zero_or_non_numeric_threshold_disables (q : query) (s : string) :
  auto_stock_status_threshold q = Some s ->
  s = "0" \/ nonNumeric s = true ->
  autoStockStatusThreshold (establishOptions q) = None
  /\ (forall r : row, autoStockStatus (establishOptions q) r = r)
  /\ (forall data,
        handler q data =
        handler {| multi_value_seperator := multi_value_seperator q;
                   value_group_seperator := value_group_seperator q;
                   auto_stock_status_threshold := None |} data).
Proof.
  intros Hq Hs. pose proof (threshold_null q s Hq Hs) as Hnull.
  split; [exact Hnull|]. split.
  - intros r. unfold autoStockStatus. now rewrite Hnull.
  - intros data. unfold handler. f_equal.
    unfold establishOptions in *. simpl in *. now rewrite Hnull.
Qed.

Lemma zero_or_non_numeric_threshold_disables_witness :
  (" -none" = "0" \/ nonNumeric " -none" = true)
  /\ autoStockStatus (establishOptions Sample.thresholdNone)
       [("sku", VStr "A"); ("qty", VStr "5"); ("is_in_stock", VStr "1")]
     = [("sku", VStr "A"); ("qty", VStr "5"); ("is_in_stock", VStr "1")].
Proof.
  assert (H : " -none" = "0" \/ nonNumeric " -none" = true)
    by (right; reflexivity).
  split; [exact H|].
  exact (proj1 (proj2 (zero_or_non_numeric_threshold_disables
                         Sample.thresholdNone " -none" eq_refl H)) _).
Defined.

(** ** Loops *)


Lemma bind_ok {A B} (m : result A) (f : A -> result B) b :
  bind m f = Ok b -> exists a, m = Ok a /\ f a = Ok b.
Proof. destruct m as [a|e]; simpl; [eauto|discriminate]. Qed.

(** ** The SKU index *)

Lemma blank_proto k : Obj.inPrototype k = true -> blank k = false.
Proof.
  unfold Obj.inPrototype. simpl. intros H.
  repeat (apply orb_true_iff in H; destruct H as [H|H];
          [apply String.eqb_eq in H; subst; reflexivity|]).
  discriminate H.
Qed.

(** When the first pass ends without a duplicate, every row has a [sku]
    cell, the SKUs that are not blank are pairwise distinct, and none of
    them names a property of [Object.prototype]. *)
Lemma indexRows_no_duplicates data : forall i st st',
  forEach indexRow data i st = Ok st' ->
  duplicateSkus st' = [] ->
  duplicateSkus st = []
  /\ (forall r, In r data -> exists sku, Obj.getOwn r "sku" = Some sku)
  /\ NoDup (nonBlankSkus data)
  /\ (forall s, In s (nonBlankSkus data) ->
        Obj.get (skuIndex st) s = Obj.Missing).
Proof.
  induction data as [|r data IH]; simpl; intros i st st' H Hd.
  - inversion H; subst. repeat split; try tauto. constructor.
  - apply bind_ok in H. destruct H as (st1 & Hr & Hrest).
    destruct (IH _ _ _ Hrest Hd) as (Hd1 & Hsku & Hnodup & Hmiss).
    unfold indexRow in Hr.
    destruct (Obj.getOwn r "sku") as [sku|] eqn:Esku; [|discriminate].
    fold (blank sku) in Hr. destruct (blank sku) eqn:Eb.
    + inversion Hr; subst st1. repeat split; try assumption.
      intros r' [<-|Hin]; [eauto|auto].
    + inversion Hr; subst st1. simpl in *. clear Hr.
      destruct (Obj.get (skuIndex st) sku) eqn:Eget;
        try (now destruct (duplicateSkus st)).
      apply get_missing in Eget. destruct Eget as [Eown Eproto].
      assert (Hother : forall s, In s (nonBlankSkus data) -> s <> sku).
      { intros s Hs ->. specialize (Hmiss _ Hs).
        rewrite get_set_same in Hmiss by now apply not_inPrototype_proto.
        discriminate. }
      repeat split; try assumption.
      * intros r' [<-|Hin]; [eauto|auto].
      * constructor; [|assumption]. intros Hin. now apply (Hother sku).
      * intros s [<-|Hs]; [now apply get_missing|].
        specialize (Hmiss _ Hs).
        rewrite get_set_other in Hmiss; [assumption|].
        intros E. symmetry in E. now apply (Hother s).
Qed.

Lemma indexSkus_no_duplicates data idx :
  indexSkus data = Ok idx ->
  duplicateSkus idx = [] ->
  (forall r, In r data -> exists sku, Obj.getOwn r "sku" = Some sku)
  /\ NoDup (nonBlankSkus data)
  /\ (forall s, In s (nonBlankSkus data) -> Obj.inPrototype s = false).
Proof.
  intros H Hd.
  destruct (indexRows_no_duplicates _ _ _ _ H Hd) as (_ & Hsku & Hnd & Hm).
  repeat split; try assumption.
  intros s Hs. exact (proj2 (proj1 (get_missing _ s) (Hm s Hs))).
Qed.

(** ** Relationships: one row *)

Lemma relateRow_child opts st i r sku parent spec :
  child r = Some (sku, parent, spec) ->
  relateRow opts st i r = establishRelationship opts st r sku parent spec.
Proof.
  unfold child, relateRow. intros H.
  destruct (Obj.getOwn r "sku") as [s|]; [|discriminate].
  destruct (populated (Obj.getOwn r "parent_sku")) as [p|]; [|discriminate].
  destruct (populated (Obj.getOwn r "configurable_attributes")) as [c|];
    [|discriminate].
  destruct (String.length s =? 0)%nat; [discriminate|].
  now inversion H; subst.
Qed.

Lemma relateRow_not_child opts st i r sku :
  Obj.getOwn r "sku" = Some sku ->
  child r = None ->
  relateRow opts st i r = Ok st.
Proof.
  unfold child, relateRow. intros -> H.
  destruct (String.length sku =? 0)%nat; [reflexivity|].
  destruct (populated (Obj.getOwn r "parent_sku")) as [p|]; [|reflexivity].
  destruct (populated (Obj.getOwn r "configurable_attributes")) as [c|];
    [discriminate|reflexivity].
Qed.

Lemma relateRow_sku opts st i r st1 :
  relateRow opts st i r = Ok st1 ->
  exists sku, Obj.getOwn r "sku" = Some sku.
Proof.
  unfold relateRow. destruct (Obj.getOwn r "sku"); [eauto|discriminate].
Qed.

Lemma storeValue_missing r sku vs i a :
  truthy (cell r (attributeCode a)) = false ->
  storeValue r sku vs i a
  = Err (Thrown (missingValueMessage (attributeCode a) sku)).
Proof. unfold storeValue. now intros ->. Qed.

Lemma storeValue_present r sku vs i a :
  truthy (cell r (attributeCode a)) = true ->
  exists vs1,
    storeValue r sku vs i a = Ok vs1
    /\ (forall o, sku <> "__proto__" ->
          Obj.getOwn vs sku = Some o ->
          Obj.getOwn vs1 sku
          = Some (Obj.set o (attributeCode a) (cell r (attributeCode a))))
    /\ (forall s, s <> sku -> Obj.getOwn vs1 s = Obj.getOwn vs s).
Proof.
  unfold storeValue. intros ->. simpl.
  destruct (Obj.get vs sku) as [o| |] eqn:Eget.
  - eexists. split; [reflexivity|]. split.
    + intros o' Hp Ho'. apply get_own in Eget.
      rewrite Ho' in Eget. inversion Eget; subst o'.
      now apply getOwn_set_same.
    + intros s Hs. apply getOwn_set_other. congruence.
  - exists vs. split; [reflexivity|]. split; [|reflexivity].
    intros o' _ Ho'. unfold Obj.get in Eget. rewrite Ho' in Eget.
    discriminate.
  - exists vs. split; [reflexivity|]. split; [|reflexivity].
    intros o' _ Ho'. unfold Obj.get in Eget. rewrite Ho' in Eget.
    discriminate.
Qed.

(** The inner loop over the specification stops at the first attribute
    code without a value and otherwise stores every value under the SKU. *)
Lemma storeValues_run r sku attrs : forall i vs,
  match firstMissing r attrs with
  | Some code =>
      forEach (storeValue r sku) attrs i vs
      = Err (Thrown (missingValueMessage code sku))
  | None =>
      exists vs',
        forEach (storeValue r sku) attrs i vs = Ok vs'
        /\ (forall o, sku <> "__proto__" ->
              Obj.getOwn vs sku = Some o ->
              Obj.getOwn vs' sku = Some (valuesFrom r attrs o))
        /\ (forall s, s <> sku -> Obj.getOwn vs' s = Obj.getOwn vs s)
  end.
Proof.
  induction attrs as [|a attrs IH]; intros i vs; simpl.
  - exists vs. repeat split. intros o _ H. exact H.
  - destruct (truthy (cell r (attributeCode a))) eqn:Ht.
    2: now rewrite (storeValue_missing r sku vs i a Ht).
    destruct (storeValue_present r sku vs i a Ht) as (vs1 & -> & H1 & H2).
    simpl. specialize (IH (S i) vs1).
    destruct (firstMissing r attrs); [exact IH|].
    destruct IH as (vs' & Hrun & Hsku & Hother).
    exists vs'. split; [exact Hrun|]. split.
    + intros o Hp Ho. apply Hsku; [assumption|]. now apply H1.
    + intros s Hs. now rewrite (Hother s Hs), (H2 s Hs).
Qed.

(** What a child row leaves in the maps when it is accepted. *)
Lemma establishRelationship_ok opts st r sku parent spec st1 :
  establishRelationship opts st r sku parent spec = Ok st1 ->
  exists attrs,
    parseConfigurableAttributes spec = Ok attrs
    /\ firstMissing r attrs = None
    /\ (forall K, Obj.inPrototype K = false ->
          Obj.getOwn (configurableChildrenByParent st1) K =
          if String.eqb parent K
          then Some (orEmpty (Obj.getOwn (configurableChildrenByParent st) K)
                     ++ [sku])
          else Obj.getOwn (configurableChildrenByParent st) K)
    /\ (forall K, Obj.inPrototype K = false ->
          Obj.getOwn (configurableLabelsByParent st1) K =
          if String.eqb parent K
          then Some (labelsOf (multiValueSeperator opts) attrs)
          else Obj.getOwn (configurableLabelsByParent st) K)
    /\ (forall s, s <> "__proto__" ->
          Obj.getOwn (configurableAttributeValuesByChildren st1) s =
          if String.eqb sku s
          then Some (valuesFrom r attrs [])
          else Obj.getOwn (configurableAttributeValuesByChildren st) s).
Proof.
  unfold establishRelationship. intros H.
  apply bind_ok in H. destruct H as (attrs & Hparse & H).
  apply bind_ok in H. destruct H as (children & Hpush & H).
  apply bind_ok in H. destruct H as (values & Hvalues & H).
  inversion H; subst st1; clear H. simpl.
  exists attrs. split; [exact Hparse|].
  pose proof (storeValues_run r sku attrs 0%nat
                (Obj.set (configurableAttributeValuesByChildren st) sku []))
    as Hrun.
  destruct (firstMissing r attrs) as [code|].
  { rewrite Hrun in Hvalues. discriminate. }
  destruct Hrun as (vs' & Hrun & Hsku & Hother).
  rewrite Hrun in Hvalues. inversion Hvalues; subst vs'; clear Hvalues.
  split; [reflexivity|]. split; [|split].
  - intros K HK.
    destruct (String.eqb_spec parent K) as [->|Hne].
    + pose proof (not_inPrototype_proto K HK) as HKp.
      unfold Obj.get in Hpush.
      destruct (Obj.getOwn (configurableChildrenByParent st) K) as [l0|] eqn:E0.
      * unfold Obj.get in Hpush. rewrite E0 in Hpush.
        inversion Hpush; subst. simpl. now apply getOwn_set_same.
      * rewrite HK in Hpush. rewrite getOwn_set_same in Hpush by assumption.
        inversion Hpush; subst. simpl. now apply getOwn_set_same.
    + destruct (Obj.get
                 match Obj.get (configurableChildrenByParent st) parent with
                 | Obj.Missing =>
                     Obj.set (configurableChildrenByParent st) parent []
                 | _ => configurableChildrenByParent st
                 end parent) as [l| |]; [|discriminate|discriminate].
      inversion Hpush; subst. rewrite getOwn_set_other by assumption.
      destruct (Obj.get (configurableChildrenByParent st) parent);
        try reflexivity.
      now apply getOwn_set_other.
  - intros K HK. rewrite getOwn_set.
    destruct (String.eqb_spec parent "__proto__") as [->|Hp].
    + destruct (String.eqb_spec "__proto__" K) as [<-|]; [discriminate|].
      reflexivity.
    + reflexivity.
  - intros s Hs. destruct (String.eqb_spec sku s) as [->|Hne].
    + apply Hsku; [assumption|]. now apply getOwn_set_same.
    + rewrite Hother by congruence. now apply getOwn_set_other.
Qed.

(** A child row with a well-formed specification under a parent SKU that
    can be indexed: the first attribute code without a value decides. *)
Lemma establishRelationship_run opts st r sku parent spec attrs :
  parseConfigurableAttributes spec = Ok attrs ->
  Obj.inPrototype parent = false ->
  match firstMissing r attrs with
  | Some code =>
      establishRelationship opts st r sku parent spec
      = Err (Thrown (missingValueMessage code sku))
  | None =>
      exists st1, establishRelationship opts st r sku parent spec = Ok st1
  end.
Proof.
  intros Hparse Hproto. unfold establishRelationship. rewrite Hparse. simpl.
  assert (Hpush : exists l,
    Obj.get
      match Obj.get (configurableChildrenByParent st) parent with
      | Obj.Missing => Obj.set (configurableChildrenByParent st) parent []
      | _ => configurableChildrenByParent st
      end parent = Obj.Own l).
  { destruct (Obj.get (configurableChildrenByParent st) parent) as [l| |] eqn:E.
    - eauto.
    - unfold Obj.get in E. rewrite Hproto in E.
      destruct (Obj.getOwn _ parent); discriminate.
    - exists []. apply get_set_same. now apply not_inPrototype_proto. }
  destruct Hpush as (l & ->). simpl.
  pose proof (storeValues_run r sku attrs 0%nat
                (Obj.set (configurableAttributeValuesByChildren st) sku []))
    as Hrun.
  destruct (firstMissing r attrs) as [code|].
  - now rewrite Hrun.
  - destruct Hrun as (vs' & -> & _). simpl. eauto.
Qed.

Lemma relateRow_lookups opts st i r st1 :
  relateRow opts st i r = Ok st1 ->
  (forall K, Obj.inPrototype K = false ->
     Obj.getOwn (configurableChildrenByParent st1) K =
     if isChildOf K r
     then Some (orEmpty (Obj.getOwn (configurableChildrenByParent st) K)
                ++ [skuOf r])
     else Obj.getOwn (configurableChildrenByParent st) K)
  /\ (forall K, Obj.inPrototype K = false ->
        Obj.getOwn (configurableLabelsByParent st1) K =
        if isChildOf K r
        then Some (labelsOf (multiValueSeperator opts) (specOf r))
        else Obj.getOwn (configurableLabelsByParent st) K)
  /\ (forall s, s <> "__proto__" ->
        Obj.getOwn (configurableAttributeValuesByChildren st1) s =
        if hasChildSku s r
        then Some (valuesFrom r (specOf r) [])
        else Obj.getOwn (configurableAttributeValuesByChildren st) s)
  /\ (forall sku parent spec,
        child r = Some (sku, parent, spec) ->
        parseConfigurableAttributes spec = Ok (specOf r)
        /\ firstMissing r (specOf r) = None).
Proof.
  intros H. destruct (relateRow_sku _ _ _ _ _ H) as (sku0 & Hsku0).
  unfold isChildOf, hasChildSku, specOf.
  destruct (child r) as [[[sku parent] spec]|] eqn:Echild.
  - rewrite (relateRow_child _ _ _ _ _ _ _ Echild) in H.
    destruct (establishRelationship_ok _ _ _ _ _ _ _ H)
      as (attrs & Hparse & Hmiss & Hc & Hl & Hv).
    rewrite Hparse.
    assert (Esku : skuOf r = sku).
    { unfold skuOf. unfold child in Echild. rewrite Hsku0 in *.
      destruct (populated (Obj.getOwn r "parent_sku")); [|discriminate].
      destruct (populated (Obj.getOwn r "configurable_attributes"));
        [|discriminate].
      destruct (String.length sku0 =? 0)%nat; [discriminate|].
      now inversion Echild. }
    rewrite Esku. split; [|split; [|split]].
    + intros K HK. now apply Hc.
    + intros K HK. now apply Hl.
    + intros s Hs. now apply Hv.
    + intros sku' parent' spec' E. inversion E; subst. now split.
  - rewrite (relateRow_not_child _ _ _ _ _ Hsku0 Echild) in H.
    inversion H; subst. repeat split; intros; discriminate.
Qed.

(** ** Relationships: the whole pass *)

Lemma relateRows_lookups opts data : forall i st st',
  forEach (relateRow opts) data i st = Ok st' ->
  (forall K, Obj.inPrototype K = false ->
     Obj.getOwn (configurableChildrenByParent st') K =
     match filter (isChildOf K) data with
     | [] => Obj.getOwn (configurableChildrenByParent st) K
     | cs => Some (orEmpty (Obj.getOwn (configurableChildrenByParent st) K)
                   ++ map skuOf cs)
     end)
  /\ (forall K, Obj.inPrototype K = false ->
        Obj.getOwn (configurableLabelsByParent st') K =
        match lastOf (filter (isChildOf K) data) with
        | Some c => Some (labelsOf (multiValueSeperator opts) (specOf c))
        | None => Obj.getOwn (configurableLabelsByParent st) K
        end)
  /\ (forall s, s <> "__proto__" ->
        Obj.getOwn (configurableAttributeValuesByChildren st') s =
        match lastOf (filter (hasChildSku s) data) with
        | Some c => Some (valuesFrom c (specOf c) [])
        | None => Obj.getOwn (configurableAttributeValuesByChildren st) s
        end).
Proof.
  induction data as [|r data IH]; intros i st st' H; simpl in H.
  - inversion H; subst. repeat split.
  - apply bind_ok in H. destruct H as (st1 & Hr & Hrest).
    destruct (relateRow_lookups _ _ _ _ _ Hr) as (Hc1 & Hl1 & Hv1 & _).
    destruct (IH _ _ _ Hrest) as (Hc & Hl & Hv).
    split; [|split].
    + intros K HK. rewrite (Hc K HK), (Hc1 K HK). simpl.
      destruct (isChildOf K r); simpl.
      * destruct (filter (isChildOf K) data) as [|c cs]; [reflexivity|].
        now rewrite <- app_assoc.
      * reflexivity.
    + intros K HK. rewrite (Hl K HK), (Hl1 K HK). simpl.
      destruct (isChildOf K r); simpl; [|reflexivity].
      destruct (lastOf (filter (isChildOf K) data)); reflexivity.
    + intros s Hs. rewrite (Hv s Hs), (Hv1 s Hs). simpl.
      destruct (hasChildSku s r); simpl; [|reflexivity].
      destruct (lastOf (filter (hasChildSku s) data)); reflexivity.
Qed.

(** The rows a finished second pass has seen. *)
Lemma relateRows_checked opts data : forall i st st',
  forEach (relateRow opts) data i st = Ok st' ->
  forall r, In r data ->
    (exists sku, Obj.getOwn r "sku" = Some sku)
    /\ forall sku parent spec,
         child r = Some (sku, parent, spec) ->
         parseConfigurableAttributes spec = Ok (specOf r)
         /\ firstMissing r (specOf r) = None.
Proof.
  induction data as [|r0 data IH]; intros i st st' H r Hin; [destruct Hin|].
  simpl in H. apply bind_ok in H. destruct H as (st1 & Hr & Hrest).
  destruct Hin as [<-|Hin].
  - split; [exact (relateRow_sku _ _ _ _ _ Hr)|].
    exact (proj2 (proj2 (proj2 (relateRow_lookups _ _ _ _ _ Hr)))).
  - exact (IH _ _ _ Hrest r Hin).
Qed.

Lemma relateRow_passes opts st i r :
  passesChecks r -> exists st1, relateRow opts st i r = Ok st1.
Proof.
  intros ((sku0 & Hsku0) & Hchild).
  destruct (child r) as [[[sku parent] spec]|] eqn:Echild.
  - rewrite (relateRow_child _ _ _ _ _ _ _ Echild).
    destruct (Hchild _ _ _ eq_refl) as (Hproto & attrs & Hparse & Hmiss).
    pose proof (establishRelationship_run opts st r sku parent spec attrs
                  Hparse Hproto) as Hrun.
    now rewrite Hmiss in Hrun.
  - rewrite (relateRow_not_child _ _ _ _ _ Hsku0 Echild). eauto.
Qed.

(** No check of the second pass looks beyond the row at hand: a dataset
    whose rows pass one by one passes as a whole. *)
Lemma relateRows_succeed opts data :
  (forall r, In r data -> passesChecks r) ->
  forall i st, exists st', forEach (relateRow opts) data i st = Ok st'.
Proof.
  induction data as [|r data IH]; intros Hall i st; simpl; [eauto|].
  destruct (relateRow_passes opts st i r (Hall r (or_introl eq_refl)))
    as (st1 & ->). simpl.
  apply IH. intros r' Hin. apply Hall. now right.
Qed.

(** A row that passes when it is processed alone passes the checks. *)
Lemma alone_passesChecks opts r st1 :
  relateRow opts noRelations 0%nat r = Ok st1 -> passesChecks r.
Proof.
  intros H. split; [exact (relateRow_sku _ _ _ _ _ H)|].
  intros sku parent spec Echild.
  destruct (relateRow_lookups _ _ _ _ _ H) as (_ & _ & _ & Hc).
  destruct (Hc _ _ _ Echild) as (Hparse & Hmiss).
  split; [|eauto].
  rewrite (relateRow_child _ _ _ _ _ _ _ Echild) in H.
  unfold establishRelationship in H. rewrite Hparse in H. simpl in H.
  unfold Obj.get in H. simpl in H.
  destruct (Obj.inPrototype parent); [discriminate|reflexivity].
Qed.

(** ** Rewriting the rows *)

Lemma modifyRow_blank opts rels addl acc i r sku :
  Obj.getOwn r "sku" = Some sku -> blank sku = true ->
  modifyRow opts rels addl acc i r = Ok acc.
Proof. unfold modifyRow, blank. now intros -> ->. Qed.

Lemma modifyRow_nonBlank opts rels addl acc i r sku :
  Obj.getOwn r "sku" = Some sku -> blank sku = false ->
  modifyRow opts rels addl acc i r =
  (r' <- rewriteRow opts rels addl r ;; Ok (acc ++ [r'])).
Proof.
  unfold modifyRow, blank, rewriteRow, skuOf. intros -> ->.
  now destruct (addConfigurableData _ _ _ _).
Qed.

(** The output lists, in input order, what [rewriteRow] makes of the rows
    that are not blank. *)
Lemma modifyRows_ok opts rels addl data : forall i acc out,
  forEach (modifyRow opts rels addl) data i acc = Ok out ->
  exists rows,
    out = acc ++ rows
    /\ Forall2 (fun r r' => rewriteRow opts rels addl r = Ok r')
               (nonBlankRows data) rows.
Proof.
  induction data as [|r data IH]; intros i acc out H; simpl in H.
  - inversion H; subst. exists []. rewrite app_nil_r. split; constructor.
  - apply bind_ok in H. destruct H as (acc1 & Hr & Hrest).
    destruct (IH _ _ _ Hrest) as (rows & -> & Hrows).
    unfold nonBlankRows. simpl. fold (nonBlankRows data).
    destruct (Obj.getOwn r "sku") as [sku|] eqn:Esku.
    2: { unfold modifyRow in Hr. rewrite Esku in Hr. discriminate. }
    destruct (blank sku) eqn:Eb; simpl.
    + rewrite (modifyRow_blank _ _ _ _ _ _ _ Esku Eb) in Hr.
      inversion Hr; subst. eauto.
    + rewrite (modifyRow_nonBlank _ _ _ _ _ _ _ Esku Eb) in Hr.
      apply bind_ok in Hr. destruct Hr as (r' & Hr' & Hacc).
      inversion Hacc; subst. exists (r' :: rows).
      rewrite <- app_assoc. split; [reflexivity|]. now constructor.
Qed.

Lemma rewriteRow_succeeds opts rels addl r :
  Obj.inPrototype (skuOf r) = false ->
  exists r', rewriteRow opts rels addl r = Ok r'.
Proof.
  intros Hp. unfold rewriteRow, addConfigurableData, Obj.get. rewrite Hp.
  destruct (Obj.getOwn _ (skuOf r)); simpl; eauto.
Qed.

(** Once the first pass has accepted the SKUs the third pass cannot fail. *)
Lemma modifyRows_succeed opts rels addl data :
  (forall r, In r data -> exists sku, Obj.getOwn r "sku" = Some sku) ->
  (forall s, In s (nonBlankSkus data) -> Obj.inPrototype s = false) ->
  forall i acc, exists out,
    forEach (modifyRow opts rels addl) data i acc = Ok out.
Proof.
  induction data as [|r data IH]; intros Hsku Hproto i acc; simpl; [eauto|].
  destruct (Hsku r (or_introl eq_refl)) as (sku & Esku).
  simpl in Hproto. rewrite Esku in Hproto.
  destruct (blank sku) eqn:Eb.
  - rewrite (modifyRow_blank _ _ _ _ _ _ _ Esku Eb). simpl.
    apply IH; [intros r' Hin; apply Hsku; now right|assumption].
  - rewrite (modifyRow_nonBlank _ _ _ _ _ _ _ Esku Eb).
    destruct (rewriteRow_succeeds opts rels addl r) as (r' & ->).
    { unfold skuOf. rewrite Esku. apply Hproto. now left. }
    simpl. apply IH; [intros r'' Hin; apply Hsku; now right|].
    intros s Hs. apply Hproto. now right.
Qed.

(** ** The handler, pass by pass *)

Lemma transform_ok opts data out :
  transform opts data = Ok out ->
  exists idx rels,
    indexSkus data = Ok idx
    /\ duplicateSkus idx = []
    /\ buildRelationships opts data = Ok rels
    /\ modifyRows opts rels (findAdditionalAttributeHeaders (headersOf data))
         data = Ok out.
Proof.
  unfold transform. destruct data as [|first rest]; [discriminate|].
  intros H. apply bind_ok in H. destruct H as (idx & Hidx & H).
  destruct (duplicateSkus idx) eqn:Hd; [|discriminate].
  apply bind_ok in H. destruct H as (rels & Hrels & H).
  exists idx, rels. repeat split; assumption.
Qed.

Lemma transform_passes opts data idx rels :
  data <> [] ->
  indexSkus data = Ok idx ->
  duplicateSkus idx = [] ->
  buildRelationships opts data = Ok rels ->
  exists out, transform opts data = Ok out.
Proof.
  intros Hne Hidx Hd Hrels. unfold transform.
  destruct data as [|first rest]; [contradiction|].
  rewrite Hidx. simpl. rewrite Hd, Hrels. simpl.
  destruct (indexSkus_no_duplicates _ _ Hidx Hd) as (Hsku & _ & Hproto).
  now apply modifyRows_succeed.
Qed.

Lemma Forall2_nth_error {A B} (R : A -> B -> Prop) l l' :
  Forall2 R l l' ->
  forall n x, nth_error l n = Some x ->
  exists y, nth_error l' n = Some y /\ R x y.
Proof.
  induction 1 as [|a b l l' Hab _ IH]; intros n x Hn.
  - destruct n; discriminate.
  - destruct n as [|n]; simpl in *.
    + inversion Hn; subst. eauto.
    + now apply IH.
Qed.

(** The [n]-th row that is not blank becomes the [n]-th output row. *)
Lemma transform_row opts data out n r :
  transform opts data = Ok out ->
  nth_error (nonBlankRows data) n = Some r ->
  exists rels r',
    buildRelationships opts data = Ok rels
    /\ nth_error out n = Some r'
    /\ rewriteRow opts rels (findAdditionalAttributeHeaders (headersOf data))
         r = Ok r'.
Proof.
  intros H Hn.
  destruct (transform_ok _ _ _ H) as (idx & rels & _ & _ & Hrels & Hm).
  destruct (modifyRows_ok _ _ _ _ _ _ _ Hm) as (rows & -> & Hrows).
  destruct (Forall2_nth_error _ _ _ Hrows _ _ Hn) as (r' & Hn' & Hr').
  exists rels, r'. repeat split; assumption.
Qed.

(** ** Purging columns *)

Lemma purge_fold cols ks : forall (r : row) k,
  Obj.getOwn
    (fold_left (fun result key =>
                  if includes cols key then Obj.delete result key
                  else result) ks r) k
  = if includes cols k && existsb (String.eqb k) ks then None
    else Obj.getOwn r k.
Proof.
  induction ks as [|key ks IH]; intros r k; simpl.
  - now rewrite andb_false_r.
  - rewrite IH. destruct (includes cols k) eqn:Ek; simpl.
    + destruct (existsb (String.eqb k) ks); simpl.
      * now rewrite orb_true_r.
      * rewrite orb_false_r.
        destruct (String.eqb_spec k key) as [->|Hne].
        -- rewrite Ek. rewrite getOwn_delete. now rewrite String.eqb_refl.
        -- destruct (includes cols key); [|reflexivity].
           rewrite getOwn_delete.
           destruct (String.eqb_spec key k); congruence.
    + destruct (includes cols key) eqn:Ekey; [|reflexivity].
      rewrite getOwn_delete.
      destruct (String.eqb_spec key k) as [->|]; congruence.
Qed.

Lemma existsb_keys {V} (o : Obj.t V) k :
  existsb (String.eqb k) (Obj.keys o) = false -> Obj.getOwn o k = None.
Proof.
  induction o as [|[k0 v0] o IH]; simpl; [reflexivity|].
  rewrite String.eqb_sym. destruct (String.eqb k0 k); simpl;
    [discriminate|exact IH].
Qed.

Lemma getOwn_purgeColumns (r : row) cols k :
  Obj.getOwn (purgeColumns r cols) k
  = if includes cols k then None else Obj.getOwn r k.
Proof.
  unfold purgeColumns. rewrite purge_fold.
  destruct (includes cols k); simpl; [|reflexivity].
  destruct (existsb (String.eqb k) (Obj.keys r)) eqn:E; [reflexivity|].
  now apply existsb_keys.
Qed.

Lemma read_purgeFakeColumns addl (r : row) k :
  includes ["parent_sku"; "configurable_attributes"] k = false ->
  includes addl k = false ->
  read (purgeFakeColumns addl r) k = read r k.
Proof.
  intros H1 H2. unfold read, Obj.get, purgeFakeColumns.
  now rewrite !getOwn_purgeColumns, H1, H2.
Qed.

Lemma read_autoStockStatus opts (r : row) k :
  k <> "is_in_stock" -> read (autoStockStatus opts r) k = read r k.
Proof.
  intros H. unfold autoStockStatus.
  destruct (autoStockStatusThreshold opts); [|reflexivity].
  destruct (_ && _ && _); [|reflexivity].
  destruct (Num.ge _ _); apply read_set_other; congruence.
Qed.

(** ** A SKU that is not blank belongs to one row *)

Lemma nonBlankSkus_In data r sku :
  In r data -> Obj.getOwn r "sku" = Some sku -> blank sku = false ->
  In sku (nonBlankSkus data).
Proof.
  induction data as [|r0 data IH]; intros Hin Hsku Hb; [destruct Hin|].
  simpl. destruct Hin as [->|Hin].
  - rewrite Hsku, Hb. now left.
  - destruct (Obj.getOwn r0 "sku") as [s0|]; [|auto].
    destruct (blank s0); [auto|right; auto].
Qed.

Lemma nonBlankSkus_NoDup_tail r data :
  NoDup (nonBlankSkus (r :: data)) -> NoDup (nonBlankSkus data).
Proof.
  simpl. destruct (Obj.getOwn r "sku") as [s|]; [|auto].
  destruct (blank s); [auto|]. intros H. now inversion H.
Qed.

Lemma hasChildSku_sku s r :
  hasChildSku s r = true -> Obj.getOwn r "sku" = Some s.
Proof.
  unfold hasChildSku, child.
  destruct (Obj.getOwn r "sku") as [s0|]; [|discriminate].
  destruct (populated _); [|discriminate].
  destruct (populated _); [|discriminate].
  destruct (String.length s0 =? 0)%nat; [discriminate|].
  intros H. apply String.eqb_eq in H. now subst.
Qed.

Lemma filter_nil {A} (f : A -> bool) l :
  (forall x, In x l -> f x = false) -> filter f l = [].
Proof.
  induction l as [|x l IH]; intros H; simpl; [reflexivity|].
  rewrite (H x (or_introl eq_refl)). apply IH. intros y Hy. apply H. now right.
Qed.

(** A child row whose SKU is not blank is the one row that writes the
    attribute values kept under its SKU. *)
Lemma last_child_with_sku data c sku :
  NoDup (nonBlankSkus data) ->
  In c data ->
  hasChildSku sku c = true ->
  blank sku = false ->
  lastOf (filter (hasChildSku sku) data) = Some c.
Proof.
  induction data as [|r data IH]; intros Hnd Hin Hc Hb; [destruct Hin|].
  simpl. destruct Hin as [->|Hin].
  - rewrite Hc. simpl.
    rewrite filter_nil; [reflexivity|].
    intros r' Hr'. destruct (hasChildSku sku r') eqn:E; [|reflexivity].
    exfalso. pose proof (hasChildSku_sku _ _ E) as Hs'.
    pose proof (nonBlankSkus_In _ _ _ Hr' Hs' Hb) as Hin'.
    simpl in Hnd. rewrite (hasChildSku_sku _ _ Hc), Hb in Hnd.
    inversion Hnd; contradiction.
  - pose proof (IH (nonBlankSkus_NoDup_tail _ _ Hnd) Hin Hc Hb) as Hlast.
    destruct (hasChildSku sku r); simpl; now rewrite Hlast.
Qed.

(** ** The configurable columns of a parent row *)

Lemma append_assoc (a b c : string) : ((a ++ b) ++ c = a ++ (b ++ c))%string.
Proof. induction a as [|x a IH]; simpl; [reflexivity|now rewrite IH]. Qed.

Lemma append_cons (x : ascii) (a b : string) :
  (String x a ++ b = String x (a ++ b))%string.
Proof. reflexivity. Qed.

Lemma nonBlankRows_In data r :
  In r (nonBlankRows data) ->
  In r data /\ exists sku, Obj.getOwn r "sku" = Some sku /\ blank sku = false.
Proof.
  unfold nonBlankRows. rewrite filter_In. intros [Hin H].
  split; [assumption|].
  destruct (Obj.getOwn r "sku") as [sku|]; [|discriminate].
  exists sku. split; [reflexivity|]. now apply negb_true_iff.
Qed.

Lemma isChildOf_child parent r :
  isChildOf parent r = true ->
  exists sku spec,
    child r = Some (sku, parent, spec)
    /\ Obj.getOwn r "sku" = Some sku
    /\ populated (Obj.getOwn r "configurable_attributes") = Some spec.
Proof.
  unfold isChildOf, child.
  destruct (Obj.getOwn r "sku") as [s0|]; [|discriminate].
  destruct (populated (Obj.getOwn r "parent_sku")) as [p0|]; [|discriminate].
  destruct (populated (Obj.getOwn r "configurable_attributes")) as [c0|];
    [|discriminate].
  destruct (String.length s0 =? 0)%nat; [discriminate|].
  intros H. apply String.eqb_eq in H. subst. eauto.
Qed.

(** C1, as amended: under the default separators, let [p] be the [n]-th
    row that is not blank, let the child rows of its SKU be [c1] and [c2],
    in input order, both with SKUs that are not blank and with the
    specification [color(Color),size(Size)].  Unless one of the two
    configurable columns is itself a header that follows
    [additional_attributes], and is purged with the other additional
    attributes, the [n]-th output row carries in [configurable_variations]
    the two child encodings joined by the value-group separator, each
    listing [sku] first and then the values in spec order, and in
    [configurable_variation_labels] the labels [color=Color|size=Size]. *)
Theorem parent_row_carries_variations
    (opts : options) (data : list record) (out : list row)
    (p c1 c2 : record) (n : nat) (v1 v2 v3 v4 : string) :
  multiValueSeperator opts = "|" ->
  valueGroupSeperator opts = "$" ->
  transform opts data = Ok out ->
  nth_error (nonBlankRows data) n = Some p ->
  filter (isChildOf (skuOf p)) data = [c1; c2] ->
  blank (skuOf c1) = false -> blank (skuOf c2) = false ->
  Obj.getOwn c1 "configurable_attributes" = Some "color(Color),size(Size)" ->
  Obj.getOwn c2 "configurable_attributes" = Some "color(Color),size(Size)" ->
  Obj.getOwn c1 "color" = Some v1 -> Obj.getOwn c1 "size" = Some v2 ->
  Obj.getOwn c2 "color" = Some v3 -> Obj.getOwn c2 "size" = Some v4 ->
  let purged := findAdditionalAttributeHeaders (headersOf data) in
  includes purged "configurable_variations" = false ->
  includes purged "configurable_variation_labels" = false ->
  exists r',
    nth_error out n = Some r'
    /\ read r' "configurable_variations" =
       VStr ("sku=" ++ skuOf c1 ++ "|color=" ++ v1 ++ "|size=" ++ v2
             ++ "$sku=" ++ skuOf c2 ++ "|color=" ++ v3 ++ "|size=" ++ v4)
    /\ read r' "configurable_variation_labels"
       = VStr "color=Color|size=Size".
Proof.
  intros HM HG Ht Hn Hkids Hb1 Hb2 Hs1 Hs2 Hv1 Hv2 Hv3 Hv4 purged Hp1 Hp2.
  destruct (transform_row _ _ _ _ _ Ht Hn)
    as (rels & r' & Hrels & Hn' & Hrw).
  destruct (transform_ok _ _ _ Ht) as (idx & rels' & Hidx & Hd & Hrels' & _).
  destruct (indexSkus_no_duplicates _ _ Hidx Hd) as (_ & Hnd & Hproto).
  destruct (nonBlankRows_In _ _ (nth_error_In _ _ Hn)) as (Hpin & P & HP & HbP).
  assert (EP : skuOf p = P) by (unfold skuOf; now rewrite HP).
  rewrite EP in *.
  pose proof (Hproto P (nonBlankSkus_In _ _ _ Hpin HP HbP)) as HprotoP.
  assert (Hin1 : In c1 (filter (isChildOf P) data))
    by (rewrite Hkids; simpl; auto).
  assert (Hin2 : In c2 (filter (isChildOf P) data))
    by (rewrite Hkids; simpl; auto).
  apply filter_In in Hin1, Hin2.
  destruct Hin1 as [Hin1 Hch1], Hin2 as [Hin2 Hch2].
  destruct (isChildOf_child _ _ Hch1) as (s1 & spec1 & Ec1 & Es1 & Esp1).
  destruct (isChildOf_child _ _ Hch2) as (s2 & spec2 & Ec2 & Es2 & Esp2).
  rewrite Hs1 in Esp1. rewrite Hs2 in Esp2. simpl in Esp1, Esp2.
  inversion Esp1; subst spec1. inversion Esp2; subst spec2. clear Esp1 Esp2.
  assert (E1 : skuOf c1 = s1) by (unfold skuOf; now rewrite Es1).
  assert (E2 : skuOf c2 = s2) by (unfold skuOf; now rewrite Es2).
  rewrite E1, E2 in *.
  destruct (relateRows_lookups _ _ _ _ _ Hrels) as (Hc & Hl & Hv).
  pose proof (Hc P HprotoP) as HcP. rewrite Hkids in HcP. simpl in HcP.
  rewrite E1, E2 in HcP.
  pose proof (Hl P HprotoP) as HlP. rewrite Hkids in HlP. simpl in HlP.
  assert (Hspec : forall c s,
     child c = Some (s, P, "color(Color),size(Size)") ->
     specOf c = [ {| attributeCode := "color"; label := "Color" |};
                  {| attributeCode := "size"; label := "Size" |} ]).
  { intros c s E. unfold specOf. rewrite E. reflexivity. }
  rewrite (Hspec _ _ Ec2), HM in HlP. 
  assert (Hvals : forall c s va vb,
     In c data ->
     child c = Some (s, P, "color(Color),size(Size)") ->
     blank s = false -> Obj.getOwn c "sku" = Some s ->
     Obj.getOwn c "color" = Some va -> Obj.getOwn c "size" = Some vb ->
     Obj.getOwn (configurableAttributeValuesByChildren rels) s
     = Some [("color", VStr va); ("size", VStr vb)]).
  { intros c s va vb Hin Ec Hb Es Ha Hb'.
    rewrite Hv.
    - rewrite (last_child_with_sku data c s Hnd Hin); try assumption.
      + rewrite (Hspec _ _ Ec). unfold valuesFrom, cell, Obj.get. simpl.
        rewrite Ha, Hb'. reflexivity.
      + unfold hasChildSku. rewrite Ec. apply String.eqb_refl.
    - apply not_inPrototype_proto, Hproto.
      exact (nonBlankSkus_In _ _ _ Hin Es Hb). }
  pose proof (Hvals c1 s1 v1 v2 Hin1 Ec1 Hb1 Es1 Hv1 Hv2) as Hvals1.
  pose proof (Hvals c2 s2 v3 v4 Hin2 Ec2 Hb2 Es2 Hv3 Hv4) as Hvals2.
  exists r'. split; [exact Hn'|].
  unfold rewriteRow in Hrw. rewrite EP in Hrw.
  unfold addConfigurableData in Hrw.
  rewrite (proj2 (get_own _ _ _) HcP) in Hrw.
  rewrite (proj2 (get_own _ _ _) HlP) in Hrw. simpl in Hrw.
  inversion Hrw; subst r'; clear Hrw.
  fold purged.
  split.
  - rewrite read_purgeFakeColumns by (reflexivity || assumption).
    rewrite read_autoStockStatus by discriminate.
    unfold squashAdditionalAttributes.
    rewrite !read_set_other by discriminate.
    rewrite read_set_same by discriminate. f_equal.
    unfold encodeVariations, encodeChild, variationsOf, attributeValuesOf.
    simpl map.
    rewrite (proj2 (get_own _ _ _) Hvals1), (proj2 (get_own _ _ _) Hvals2).
    rewrite HM, HG. 
    unfold assign, convertColumnsToStringKeyValue, Str.join. simpl.
    repeat (rewrite ?append_assoc; simpl). reflexivity.
  - rewrite read_purgeFakeColumns by (reflexivity || assumption).
    rewrite read_autoStockStatus by discriminate.
    unfold squashAdditionalAttributes.
    rewrite !read_set_other by discriminate.
    rewrite read_set_same by discriminate. reflexivity.
Qed.

Lemma parent_row_carries_variations_witness :
  exists r',
    nth_error
      (match handler noParameters Sample.family with
       | Ok out => out
       | Err _ => []
       end) 0 = Some r'
    /\ read r' "configurable_variations"
       = VStr "sku=C1|color=red|size=S$sku=C2|color=blue|size=M"
    /\ read r' "configurable_variation_labels"
       = VStr "color=Color|size=Size".
Proof.
  exact (parent_row_carries_variations
           (establishOptions noParameters) Sample.family _
           (nth 0 Sample.family []) (nth 1 Sample.family [])
           (nth 2 Sample.family []) 0 "red" "S" "blue" "M"
           eq_refl eq_refl eq_refl eq_refl eq_refl eq_refl eq_refl
           eq_refl eq_refl eq_refl eq_refl eq_refl eq_refl
           eq_refl eq_refl).
Defined.

(** C1 as it was stated fails when the header row already has a
    [configurable_variations] column after [additional_attributes]: the
    encoding is written, squashed into [additional_attributes] and
    purged, and the output row of the parent has no such column. *)
Lemma variations_purged_as_additional_attribute :
  filter (isChildOf "P") Sample.familyWithTrailingColumn
  = [nth 1 Sample.familyWithTrailingColumn [];
     nth 2 Sample.familyWithTrailingColumn []]
  /\ exists r' rest,
       handler noParameters Sample.familyWithTrailingColumn
       = Ok (r' :: rest)
       /\ read r' "sku" = VStr "P"
       /\ read r' "configurable_variations" = VUndefined
       /\ read r' "configurable_variations"
          <> VStr "sku=C1|color=red|size=S$sku=C2|color=blue|size=M"
       /\ read r' "additional_attributes"
          = VStr ("configurable_variations="
                  ++ "sku=C1|color=red|size=S$sku=C2|color=blue|size=M").
Proof.
  split; [reflexivity|]. eexists. eexists.
  split; [reflexivity|]. repeat split; vm_compute; try reflexivity.
  discriminate.
Qed.

(** ** The first pass accepts exactly the well-formed SKU columns *)

Lemma indexRows_accept data : forall i st,
  (forall r, In r data -> exists sku, Obj.getOwn r "sku" = Some sku) ->
  NoDup (nonBlankSkus data) ->
  (forall s, In s (nonBlankSkus data) ->
     Obj.get (skuIndex st) s = Obj.Missing) ->
  exists st',
    forEach indexRow data i st = Ok st'
    /\ duplicateSkus st' = duplicateSkus st.
Proof.
  induction data as [|r data IH]; intros i st Hsku Hnd Hmiss; simpl.
  - eauto.
  - destruct (Hsku r (or_introl eq_refl)) as (sku & Esku).
    simpl in Hnd, Hmiss. rewrite Esku in Hnd, Hmiss.
    unfold indexRow at 1. rewrite Esku. fold (blank sku).
    assert (Hsku' : forall r', In r' data ->
              exists sku', Obj.getOwn r' "sku" = Some sku')
      by (intros r' Hr'; apply Hsku; now right).
    destruct (blank sku) eqn:Eb; simpl.
    + now apply IH.
    + inversion Hnd as [|? ? Hnotin Hnd']; subst.
      pose proof (Hmiss sku (or_introl eq_refl)) as Hm. rewrite Hm.
      destruct (IH (S i)
                  {| skuIndex := Obj.set (skuIndex st) sku i;
                     duplicateSkus := duplicateSkus st |} Hsku' Hnd')
        as (st' & Hrun & Hd).
      * simpl. intros s Hs. rewrite get_set_other; [apply Hmiss; now right|].
        intros ->. contradiction.
      * exists st'. split; assumption.
Qed.

Lemma indexSkus_accepts data :
  acceptedSkus data <->
  exists idx, indexSkus data = Ok idx /\ duplicateSkus idx = [].
Proof.
  split.
  - intros (Hsku & Hnd & Hproto).
    destruct (indexRows_accept data 0%nat
                {| skuIndex := []; duplicateSkus := [] |} Hsku Hnd)
      as (st' & Hrun & Hd).
    + intros s Hs. apply get_missing. split; [reflexivity|now apply Hproto].
    + exists st'. split; assumption.
  - intros (idx & Hidx & Hd). exact (indexSkus_no_duplicates _ _ Hidx Hd).
Qed.

(** ** Missing attribute values *)

Lemma firstMissing_spec r attrs :
  match firstMissing r attrs with
  | Some code =>
      exists passed a rest,
        attrs = passed ++ a :: rest
        /\ attributeCode a = code
        /\ truthy (cell r code) = false
        /\ forall b, In b passed -> truthy (cell r (attributeCode b)) = true
  | None => forall a, In a attrs -> truthy (cell r (attributeCode a)) = true
  end.
Proof.
  induction attrs as [|a attrs IH]; simpl.
  - intros a [].
  - destruct (truthy (cell r (attributeCode a))) eqn:Ht.
    + destruct (firstMissing r attrs) as [code|].
      * destruct IH as (passed & a' & rest & -> & Ha' & Hf & Hp).
        exists (a :: passed), a', rest. repeat split; try assumption.
        intros b [<-|Hb]; auto.
      * intros b [<-|Hb]; auto.
    + exists [], a, attrs. repeat split; try assumption. intros b [].
Qed.





Lemma bind_ok_or {A B} (m : result A) (f : A -> result B) e :
  bind m f = Err e -> m = Err e \/ exists a, m = Ok a /\ f a = Err e.
Proof.
  destruct m as [a|e']; simpl; intros H; [eauto|].
  left. now inversion H.
Qed.

Lemma establishRelationship_thrown opts st r sku parent spec m :
  establishRelationship opts st r sku parent spec = Err (Thrown m) ->
  exists attrs code,
    parseConfigurableAttributes spec = Ok attrs
    /\ firstMissing r attrs = Some code
    /\ m = missingValueMessage code sku.
Proof.
  unfold establishRelationship, parseConfigurableAttributes.
  destruct (matchAll (Str.split "," spec)) as [attrs|e] eqn:Hparse; simpl.
  2: { intros H. inversion H; subst. clear H.
       revert Hparse. generalize (Str.split "," spec). intros pieces.
       induction pieces as [|x pieces IH]; simpl; [discriminate|].
       destruct (regexMatch x); [|discriminate].
       destruct (matchAll pieces); simpl; [discriminate|].
       intros H. inversion H; subst. now apply IH. }
  intros H. apply bind_ok_or in H. destruct H as [H|(children & _ & H)].
  { destruct (Obj.get _ parent); discriminate. }
  pose proof (storeValues_run r sku attrs 0%nat
                (Obj.set (configurableAttributeValuesByChildren st) sku []))
    as Hrun.
  destruct (firstMissing r attrs) as [code|] eqn:Emiss.
  - rewrite Hrun in H. simpl in H. inversion H; subst m. eauto.
  - destruct Hrun as (vs' & Hrun & _). rewrite Hrun in H. discriminate.
Qed.

(** The second pass throws an [Error] of its own only for a child row
    that lacks a value. *)
Lemma relateRows_thrown opts data m : forall i st,
  forEach (relateRow opts) data i st = Err (Thrown m) ->
  exists c sku parent spec attrs code,
    In c data
    /\ child c = Some (sku, parent, spec)
    /\ parseConfigurableAttributes spec = Ok attrs
    /\ firstMissing c attrs = Some code
    /\ m = missingValueMessage code sku.
Proof.
  induction data as [|r data IH]; intros i st H; [discriminate|].
  simpl in H. destruct (relateRow opts st i r) as [st1|e] eqn:Hr; simpl in H.
  - destruct (IH _ _ H)
      as (c & sku & parent & spec & attrs & code & Hin & Hrest).
    exists c, sku, parent, spec, attrs, code. split; [now right|exact Hrest].
  - inversion H; subst e; clear H.
    destruct (child r) as [[[sku parent] spec]|] eqn:Echild.
    + rewrite (relateRow_child _ _ _ _ _ _ _ Echild) in Hr.
      destruct (establishRelationship_thrown _ _ _ _ _ _ _ Hr)
        as (attrs & code & Hparse & Hmiss & Hm).
      exists r, sku, parent, spec, attrs, code.
      repeat split; try assumption. now left.
    + destruct (Obj.getOwn r "sku") as [sku|] eqn:Esku.
      * rewrite (relateRow_not_child opts st i _ _ Esku Echild) in Hr.
        discriminate.
      * unfold relateRow in Hr. rewrite Esku in Hr. discriminate.
Qed.

Lemma transform_unfold opts data :
  data <> [] ->
  transform opts data =
  (idx <- indexSkus data ;;
   match duplicateSkus idx with
   | _ :: _ => Err (Thrown (duplicateMessage (duplicateSkus idx)))
   | [] =>
       rels <- buildRelationships opts data ;;
       modifyRows opts rels
         (findAdditionalAttributeHeaders (headersOf data)) data
   end).
Proof. destruct data; [contradiction|reflexivity]. Qed.




(** What C3 leaves aside: a code that names a property of
    [Object.prototype] and has no cell in the row is never reported,
    [row[code]] finding the inherited property; its text is then what is
    encoded for the child. *)
Lemma inherited_code_counts_as_value :
  (forall (r : record) code,
     Obj.inPrototype code = true -> Obj.getOwn r code = None ->
     truthy (cell r code) = true)
  /\ lacksValue (nth 1 Sample.inheritedCode []) "toString"
  /\ handler noParameters Sample.inheritedCode
     = Ok [ [("sku", VStr "P");
             ("configurable_variations",
              VStr "sku=C1|toString=function toString() { [native code] }");
             ("configurable_variation_labels", VStr "toString=T");
             ("additional_attributes", VStr "")];
            [("sku", VStr "C1"); ("configurable_variations", VStr "");
             ("configurable_variation_labels", VStr "");
             ("additional_attributes", VStr "")] ].
Proof.
  split; [|split; reflexivity].
  intros r code Hp Hown. unfold cell, Obj.get. now rewrite Hown, Hp.
Qed.

(** ** A child whose parent is not in the dataset *)




(** ** Splitting what was joined *)

Lemma occurs_append c a b :
  Str.occurs c (a ++ b) = Str.occurs c a || Str.occurs c b.
Proof.
  induction a as [|x a IH]; simpl; [reflexivity|].
  now rewrite IH, orb_assoc.
Qed.

Lemma avoids_append sep a b :
  avoids sep a -> avoids sep b -> avoids sep (a ++ b).
Proof.
  intros Ha Hb c Hc. rewrite occurs_append in Hc.
  apply orb_true_iff in Hc. destruct Hc; auto.
Qed.

Lemma avoids_tail sep x s : avoids sep (String x s) -> avoids sep s.
Proof. intros H c Hc. apply H. simpl. now rewrite Hc, orb_true_r. Qed.

Lemma avoids_sym a b : avoids a b -> avoids b a.
Proof.
  intros H c Hc. destruct (Str.occurs c b) eqn:E; [|reflexivity].
  rewrite (H c E) in Hc. discriminate.
Qed.

Lemma avoids_join sep glue l :
  avoids sep glue -> (forall p, In p l -> avoids sep p) ->
  avoids sep (Str.join glue l).
Proof.
  intros Hg. unfold Str.join. induction l as [|p l IH]; intros Hl.
  - intros c Hc. discriminate.
  - simpl. destruct l as [|q l].
    + apply Hl. now left.
    + apply avoids_append; [apply Hl; now left|].
      apply avoids_append; [exact Hg|].
      apply IH. intros p' Hp'. apply Hl. now right.
Qed.

Lemma prefix_mismatch a sep c s :
  Str.occurs c (String a sep) = false ->
  String.prefix (String a sep) (String c s) = false.
Proof.
  simpl. intros H. apply orb_false_iff in H. destruct H as [H _].
  destruct (Ascii.ascii_dec a c) as [->|Hne].
  - now rewrite Ascii.eqb_refl in H.
  - reflexivity.
Qed.

Lemma prefix_append sep s : String.prefix sep (sep ++ s) = true.
Proof.
  induction sep as [|a sep IH]; simpl.
  - now destruct s.
  - destruct (Ascii.ascii_dec a a); [exact IH|contradiction].
Qed.

Lemma splitFrom_skip sep t s :
  Str.splitFrom sep (String.length t) (t ++ s) = Str.splitFrom sep 0 s.
Proof.
  induction t as [|x t IH]; simpl; [|exact IH].
  destruct s; reflexivity.
Qed.

(** A piece without a character of the separator is found whole. *)
Lemma split_piece sep p :
  sep <> "" -> avoids sep p -> Str.split sep p = [p].
Proof.
  intros Hsep. destruct sep as [|a sep]; [contradiction|]. unfold Str.split.
  induction p as [|c p IH]; intros Hp; [reflexivity|].
  cbn [Str.splitFrom]. rewrite prefix_mismatch.
  - rewrite IH; [reflexivity|]. exact (avoids_tail _ _ _ Hp).
  - apply Hp. simpl. now rewrite Ascii.eqb_refl.
Qed.

Lemma split_piece_then sep p s :
  sep <> "" -> avoids sep p ->
  Str.split sep (p ++ sep ++ s) = p :: Str.split sep s.
Proof.
  intros Hsep. destruct sep as [|a sep]; [contradiction|]. unfold Str.split.
  induction p as [|c p IH]; intros Hp.
  - change ("" ++ String a sep ++ s)%string with (String a (sep ++ s)).
    cbn [Str.splitFrom].
    change (String a (sep ++ s)) with (String a sep ++ s)%string.
    rewrite prefix_append.
    replace (String.length (String a sep) - 1)%nat with (String.length sep)
      by (simpl; now rewrite Nat.sub_0_r).
    now rewrite splitFrom_skip.
  - change (String c p ++ String a sep ++ s)%string
      with (String c (p ++ String a sep ++ s)).
    cbn [Str.splitFrom]. rewrite prefix_mismatch.
    + rewrite IH; [reflexivity|]. exact (avoids_tail _ _ _ Hp).
    + apply Hp. simpl. now rewrite Ascii.eqb_refl.
Qed.

(** Splitting on the separator undoes joining with it, as long as no
    piece has a character of the separator. *)
Lemma split_join sep pieces :
  sep <> "" -> pieces <> [] ->
  (forall p, In p pieces -> avoids sep p) ->
  Str.split sep (Str.join sep pieces) = pieces.
Proof.
  intros Hsep Hne. unfold Str.join.
  induction pieces as [|p pieces IH]; intros Hp; [contradiction|].
  simpl. destruct pieces as [|q pieces].
  - apply split_piece; [assumption|]. apply Hp. now left.
  - rewrite split_piece_then; [|assumption|apply Hp; now left].
    f_equal. apply IH; [discriminate|].
    intros p' Hp'. apply Hp. now right.
Qed.

Lemma avoidsb_avoids sep s : avoidsb sep s = true -> avoids sep s.
Proof.
  induction s as [|x s IH]; simpl; intros H c Hc; [discriminate|].
  apply andb_true_iff in H. destruct H as [Hx Hs].
  apply orb_true_iff in Hc. destruct Hc as [Hc|Hc].
  - apply Ascii.eqb_eq in Hc. subst. now apply negb_true_iff.
  - now apply IH.
Qed.

Lemma orDefault_nonempty p fallback :
  fallback <> "" -> orDefault p fallback <> "".
Proof.
  unfold orDefault. intros H. destruct p as [s|]; [|exact H].
  destruct (String.eqb_spec s ""); assumption.
Qed.

Lemma set_nonempty {V} (o : Obj.t V) k v : o <> [] -> Obj.set o k v <> [].
Proof.
  unfold Obj.set. intros H. destruct (String.eqb k "__proto__"); [exact H|].
  destruct (Obj.getOwn o k) as [old|].
  - destruct o as [|[k0 v0] o]; [contradiction|]. simpl.
    destruct (String.eqb k0 k); discriminate.
  - destruct (Obj.arrayIndex k) as [n|].
    + destruct o as [|[k0 v0] o]; [contradiction|]. simpl.
      destruct (Obj.arrayIndex k0) as [m|]; [destruct (m <? n)%N|];
        discriminate.
    + destruct o; [contradiction|discriminate].
Qed.

Lemma assign_nonempty (target source : row) :
  target <> [] -> assign target source <> [].
Proof.
  unfold assign. generalize (Obj.keys source). intros ks. revert target.
  induction ks as [|k ks IH]; intros target Hne; simpl; [exact Hne|].
  apply IH. now apply set_nonempty.
Qed.

Lemma variationsOf_nonempty rels childSku :
  Obj.keys (variationsOf rels childSku) <> [].
Proof.
  assert (H : variationsOf rels childSku <> [])
    by (apply assign_nonempty; discriminate).
  unfold Obj.keys. destruct (variationsOf rels childSku); [contradiction|].
  discriminate.
Qed.

Lemma map_nonempty {A B} (f : A -> B) l : l <> [] -> map f l <> [].
Proof. destruct l; [contradiction|discriminate]. Qed.

(** Decoding an encoding gives back what was encoded, when the separators
    and the [=] sign can be told from one another and from what is
    encoded. *)
Lemma decode_encode opts rels children :
  multiValueSeperator opts <> "" ->
  valueGroupSeperator opts <> "" ->
  children <> [] ->
  avoids (multiValueSeperator opts) "=" ->
  avoids (valueGroupSeperator opts) "=" ->
  avoids (valueGroupSeperator opts) (multiValueSeperator opts) ->
  (forall child key,
     In child children ->
     In key (Obj.keys (variationsOf rels child)) ->
     plain opts key
     /\ plain opts (toString (read (variationsOf rels child) key))) ->
  decodeVariations opts (encodeVariations opts rels children)
  = map (encodedPairs rels) children.
Proof.
  intros HM HG Hne HMeq HGeq HGM Hplain.
  unfold decodeVariations, encodeVariations.
  rewrite split_join; [|exact HG|now apply map_nonempty|].
  - rewrite map_map. apply map_ext_in. intros child Hchild.
    unfold encodeChild, convertColumnsToStringKeyValue, encodedPairs.
    rewrite split_join;
      [|exact HM|apply map_nonempty, variationsOf_nonempty|].
    + rewrite map_map. apply map_ext_in. intros key Hkey.
      destruct (Hplain child key Hchild Hkey) as ((Hk & _) & (Hv & _)).
      change (key ++ "="
              ++ toString (read (variationsOf rels child) key))%string
        with (Str.join "="
                [key; toString (read (variationsOf rels child) key)]).
      apply split_join; [discriminate|discriminate|].
      intros p [<-|[<-|[]]]; assumption.
    + intros pair Hpair. apply in_map_iff in Hpair.
      destruct Hpair as (key & <- & Hkey).
      destruct (Hplain child key Hchild Hkey) as ((_ & Hk & _) & (_ & Hv & _)).
      repeat apply avoids_append; assumption.
  - intros group Hgroup. apply in_map_iff in Hgroup.
    destruct Hgroup as (child & <- & Hchild).
    unfold encodeChild, convertColumnsToStringKeyValue.
    apply avoids_join; [exact HGM|].
    intros pair Hpair. apply in_map_iff in Hpair.
    destruct Hpair as (key & <- & Hkey).
    destruct (Hplain child key Hchild Hkey) as ((_ & _ & Hk) & (_ & _ & Hv)).
    repeat apply avoids_append; assumption.
Qed.

Lemma assign_fold (source : row) k ks : forall target : row,
  k <> "__proto__" ->
  Obj.getOwn
    (fold_left (fun o key => Obj.set o key (read source key)) ks target) k
  = if existsb (String.eqb k) ks then Some (read source k)
    else Obj.getOwn target k.
Proof.
  induction ks as [|key ks IH]; intros target Hk; simpl; [reflexivity|].
  rewrite (IH _ Hk). destruct (existsb (String.eqb k) ks).
  - now rewrite orb_true_r.
  - rewrite orb_false_r, getOwn_set.
    destruct (String.eqb_spec k key) as [->|Hne].
    + destruct (String.eqb_spec key "__proto__"); [contradiction|].
      now rewrite String.eqb_refl.
    + destruct (String.eqb key "__proto__"); [reflexivity|].
      destruct (String.eqb_spec key k); congruence.
Qed.

Lemma assign_fold_proto (source : row) ks : forall target : row,
  Obj.getOwn
    (fold_left (fun o key => Obj.set o key (read source key)) ks target)
    "__proto__"
  = Obj.getOwn target "__proto__".
Proof.
  induction ks as [|key ks IH]; intros target; simpl; [reflexivity|].
  rewrite IH, getOwn_set.
  destruct (String.eqb_spec key "__proto__") as [->|Hne]; [reflexivity|].
  destruct (String.eqb_spec key "__proto__"); [contradiction|reflexivity].
Qed.

Lemma existsb_keys_own {V} (o : Obj.t V) k :
  existsb (String.eqb k) (Obj.keys o)
  = match Obj.getOwn o k with Some _ => true | None => false end.
Proof.
  induction o as [|[k0 v0] o IH]; simpl; [reflexivity|].
  rewrite String.eqb_sym. destruct (String.eqb k0 k); [reflexivity|exact IH].
Qed.

(** [Object.assign]: the properties of the source come on top of those of
    the target. *)
Lemma getOwn_assign (target source : row) k :
  k <> "__proto__" ->
  Obj.getOwn (assign target source) k
  = match Obj.getOwn source k with
    | Some v => Some v
    | None => Obj.getOwn target k
    end.
Proof.
  intros Hk. unfold assign. rewrite (assign_fold _ _ _ _ Hk).
  rewrite existsb_keys_own. unfold read, Obj.get.
  destruct (Obj.getOwn source k); reflexivity.
Qed.

(** The pairs encoded for a child are [sku] with its SKU, unless an
    attribute is itself called [sku], and every attribute code with its
    value. *)
Lemma encodedPairs_spec rels childSku pair :
  In pair (encodedPairs rels childSku) <->
  (pair = ["sku"; childSku]
   /\ Obj.getOwn (attributeValuesOf rels childSku) "sku" = None)
  \/ (exists code v,
        code <> "__proto__"
        /\ Obj.getOwn (attributeValuesOf rels childSku) code = Some v
        /\ pair = [code; toString v]).
Proof.
  unfold encodedPairs. rewrite in_map_iff. split.
  - intros (key & <- & Hkey). apply getOwn_keys in Hkey.
    destruct (String.eqb_spec key "__proto__") as [->|Hne].
    + exfalso. apply Hkey. unfold variationsOf, assign.
      now rewrite assign_fold_proto.
    + unfold read, Obj.get. unfold variationsOf in *.
      rewrite (getOwn_assign _ _ _ Hne) in Hkey |- *.
      destruct (Obj.getOwn (attributeValuesOf rels childSku) key)
        as [v|] eqn:E.
      * right. exists key, v. repeat split; assumption.
      * left. cbn [Obj.getOwn] in Hkey |- *.
        destruct (String.eqb_spec "sku" key) as [<-|].
        -- split; [reflexivity|exact E].
        -- exfalso. apply Hkey. reflexivity.
  - intros [(-> & Hnone)|(code & v & Hne & Hv & ->)].
    + exists "sku". unfold variationsOf. split.
      * unfold read, Obj.get. rewrite getOwn_assign by discriminate.
        now rewrite Hnone.
      * apply getOwn_keys. rewrite getOwn_assign by discriminate.
        rewrite Hnone. discriminate.
    + exists code. unfold variationsOf. split.
      * unfold read, Obj.get. rewrite (getOwn_assign _ _ _ Hne).
        now rewrite Hv.
      * apply getOwn_keys. rewrite (getOwn_assign _ _ _ Hne), Hv.
        discriminate.
Qed.

Lemma rewriteRow_parent opts rels addl r r' children :
  rewriteRow opts rels addl r = Ok r' ->
  Obj.get (configurableChildrenByParent rels) (skuOf r) = Obj.Own children ->
  includes addl "configurable_variations" = false ->
  read r' "configurable_variations"
  = VStr (encodeVariations opts rels children).
Proof.
  unfold rewriteRow, addConfigurableData. intros H Hget Hp.
  rewrite Hget in H. simpl in H. inversion H; subst r'; clear H.
  rewrite read_purgeFakeColumns by (reflexivity || assumption).
  rewrite read_autoStockStatus by discriminate.
  unfold squashAdditionalAttributes.
  rewrite !read_set_other by discriminate.
  now rewrite read_set_same by discriminate.
Qed.

Lemma children_nonempty opts data rels parent children :
  buildRelationships opts data = Ok rels ->
  Obj.inPrototype parent = false ->
  Obj.get (configurableChildrenByParent rels) parent = Obj.Own children ->
  children <> [].
Proof.
  intros Hrels Hproto Hget. apply get_own in Hget.
  destruct (relateRows_lookups _ _ _ _ _ Hrels) as (Hc & _ & _).
  rewrite (Hc parent Hproto) in Hget.
  destruct (filter (isChildOf parent) data); [discriminate|].
  inversion Hget. discriminate.
Qed.

(** C8, as amended: let [p] be a parent row of a dataset that was
    transformed with success, and [children] the child list kept under its
    SKU.  When the [=] sign and the two separators have no character in
    common, and no key or value encoded for a child has a character of
    any of them, splitting the [configurable_variations] string produced
    for [p] on the value-group separator, each group on the multi-value
    separator and each pair on [=] gives back, child by child and in
    order, the pairs that were encoded; and these are [sku] with the
    child SKU and each attribute code with its value. *)
Theorem variations_round_trip (q : query) (data : list record)
    (out : list row) (rels : relations) (n : nat) (p : record)
    (children : list string) :
  let opts := establishOptions q in
  transform opts data = Ok out ->
  buildRelationships opts data = Ok rels ->
  nth_error (nonBlankRows data) n = Some p ->
  Obj.get (configurableChildrenByParent rels) (skuOf p) = Obj.Own children ->
  avoids (multiValueSeperator opts) "=" ->
  avoids (valueGroupSeperator opts) "=" ->
  avoids (valueGroupSeperator opts) (multiValueSeperator opts) ->
  (forall child key,
     In child children ->
     In key (Obj.keys (variationsOf rels child)) ->
     plain opts key
     /\ plain opts (toString (read (variationsOf rels child) key))) ->
  decodeVariations opts (encodeVariations opts rels children)
  = map (encodedPairs rels) children
  /\ (forall child pair,
        In pair (encodedPairs rels child) <->
        (pair = ["sku"; child]
         /\ Obj.getOwn (attributeValuesOf rels child) "sku" = None)
        \/ (exists code v,
              code <> "__proto__"
              /\ Obj.getOwn (attributeValuesOf rels child) code = Some v
              /\ pair = [code; toString v]))
  /\ exists r',
       nth_error out n = Some r'
       /\ (includes (findAdditionalAttributeHeaders (headersOf data))
                    "configurable_variations" = false ->
           read r' "configurable_variations"
           = VStr (encodeVariations opts rels children)).
Proof.
  intros opts Ht Hrels Hn Hget HMeq HGeq HGM Hplain.
  destruct (transform_ok _ _ _ Ht) as (idx & rels0 & Hidx & Hd & _ & _).
  destruct (indexSkus_no_duplicates _ _ Hidx Hd) as (_ & _ & Hproto).
  destruct (nonBlankRows_In _ _ (nth_error_In _ _ Hn)) as (Hpin & s & Hs & Hb).
  assert (Es : skuOf p = s) by (unfold skuOf; now rewrite Hs).
  assert (Hp : Obj.inPrototype (skuOf p) = false).
  { rewrite Es. apply Hproto. exact (nonBlankSkus_In _ _ _ Hpin Hs Hb). }
  split; [|split].
  - apply decode_encode; try assumption.
    + apply orDefault_nonempty. discriminate.
    + apply orDefault_nonempty. discriminate.
    + exact (children_nonempty _ _ _ _ _ Hrels Hp Hget).
  - intros child pair. apply encodedPairs_spec.
  - destruct (transform_row _ _ _ _ _ Ht Hn)
      as (rels' & r' & Hrels' & Hn' & Hrw).
    rewrite Hrels in Hrels'. inversion Hrels'; subst rels'.
    exists r'. split; [exact Hn'|]. intros Hpurged.
    exact (rewriteRow_parent _ _ _ _ _ _ Hrw Hget Hpurged).
Qed.

Lemma variations_round_trip_witness :
  exists rels,
    buildRelationships (establishOptions noParameters) Sample.family = Ok rels
    /\ decodeVariations (establishOptions noParameters)
         "sku=C1|color=red|size=S$sku=C2|color=blue|size=M"
       = [ [["sku"; "C1"]; ["color"; "red"]; ["size"; "S"]];
           [["sku"; "C2"]; ["color"; "blue"]; ["size"; "M"]] ]
    /\ map (encodedPairs rels) ["C1"; "C2"]
       = [ [["sku"; "C1"]; ["color"; "red"]; ["size"; "S"]];
           [["sku"; "C2"]; ["color"; "blue"]; ["size"; "M"]] ]
    /\ decodeVariations (establishOptions noParameters)
         (encodeVariations (establishOptions noParameters) rels
            ["C1"; "C2"])
       = map (encodedPairs rels) ["C1"; "C2"].
Proof.
  eexists. split; [reflexivity|]. split; [reflexivity|].
  split; [reflexivity|].
  refine (proj1 (variations_round_trip noParameters Sample.family _ _ 0
                   (nth 0 Sample.family []) ["C1"; "C2"]
                   eq_refl eq_refl eq_refl eq_refl _ _ _ _)).
  - apply avoidsb_avoids. reflexivity.
  - apply avoidsb_avoids. reflexivity.
  - apply avoidsb_avoids. reflexivity.
  - intros child key [<-|[<-|[]]] Hkey; vm_compute in Hkey;
      destruct Hkey as [<-|[<-|[<-|[]]]];
      repeat split; apply avoidsb_avoids; vm_compute; reflexivity.
Defined.

(** C8 as it was stated fails when a value contains a separator: nothing
    is escaped, and decoding breaks the value [a|b] in two. *)
Lemma separator_in_value_breaks_round_trip :
  exists rels r' rest,
    buildRelationships (establishOptions noParameters)
      Sample.separatorInValue = Ok rels
    /\ handler noParameters Sample.separatorInValue = Ok (r' :: rest)
    /\ Obj.get (configurableChildrenByParent rels) "P" = Obj.Own ["C1"]
    /\ read r' "configurable_variations" = VStr "sku=C1|color=a|b"
    /\ map (encodedPairs rels) ["C1"] = [ [["sku"; "C1"]; ["color"; "a|b"]] ]
    /\ decodeVariations (establishOptions noParameters) "sku=C1|color=a|b"
       = [ [["sku"; "C1"]; ["color"; "a"]; ["b"]] ]
    /\ decodeVariations (establishOptions noParameters) "sku=C1|color=a|b"
       <> map (encodedPairs rels) ["C1"].
Proof.
  eexists. eexists. eexists. split; [reflexivity|].
  split; [reflexivity|]. repeat split. discriminate.
Qed.

(** ** Duplicate SKUs *)

Lemma existsb_eqb_In s l : existsb (String.eqb s) l = true <-> In s l.
Proof.
  rewrite existsb_exists. split.
  - intros (x & Hx & E). apply String.eqb_eq in E. now subst.
  - intros H. exists s. split; [exact H|apply String.eqb_refl].
Qed.

(** Away from the names of [Object.prototype] the first pass lists every
    repeated SKU once per occurrence after the first. *)
Lemma indexRows_repeats data : forall i st seen,
  (forall r, In r data -> exists sku, Obj.getOwn r "sku" = Some sku) ->
  (forall s, In s (nonBlankSkus data) -> Obj.inPrototype s = false) ->
  (forall s, Obj.inPrototype s = false ->
     (Obj.getOwn (skuIndex st) s <> None <-> In s seen)) ->
  exists st',
    forEach indexRow data i st = Ok st'
    /\ duplicateSkus st'
       = duplicateSkus st ++ repeats seen (nonBlankSkus data).
Proof.
  induction data as [|r data IH]; intros i st seen Hsku Hproto Hseen; simpl.
  - exists st. now rewrite app_nil_r.
  - destruct (Hsku r (or_introl eq_refl)) as (sku & Esku).
    simpl in Hproto. rewrite Esku in Hproto |- *.
    assert (Hsku' : forall r', In r' data ->
              exists sku', Obj.getOwn r' "sku" = Some sku')
      by (intros r' Hr'; apply Hsku; now right).
    unfold indexRow at 1. rewrite Esku. fold (blank sku).
    destruct (blank sku) eqn:Eb; simpl.
    + now apply IH.
    + pose proof (Hproto sku (or_introl eq_refl)) as Hp.
      destruct (IH (S i)
                  {| skuIndex := Obj.set (skuIndex st) sku i;
                     duplicateSkus :=
                       match Obj.get (skuIndex st) sku with
                       | Obj.Missing => duplicateSkus st
                       | _ => duplicateSkus st ++ [sku]
                       end |} (sku :: seen) Hsku')
        as (st' & Hrun & Hd).
      * intros s Hs. apply Hproto. now right.
      * simpl. intros s Hs. rewrite getOwn_set.
        destruct (String.eqb_spec sku "__proto__") as [->|_]; [discriminate|].
        destruct (String.eqb_spec sku s) as [->|Hne].
        -- split; [now left|discriminate].
        -- rewrite (Hseen s Hs). split; [now right|].
           intros [E|H]; [contradiction|exact H].
      * exists st'. split; [exact Hrun|]. rewrite Hd. simpl.
        unfold Obj.get. rewrite Hp.
        destruct (existsb (String.eqb sku) seen) eqn:Eseen.
        -- apply existsb_eqb_In, (Hseen sku Hp) in Eseen.
           destruct (Obj.getOwn (skuIndex st) sku); [|contradiction].
           now rewrite <- app_assoc.
        -- destruct (Obj.getOwn (skuIndex st) sku) eqn:Eown; [|reflexivity].
           exfalso. assert (Hin : In sku seen)
             by (apply (Hseen sku Hp); rewrite Eown; discriminate).
           apply existsb_eqb_In in Hin. congruence.
Qed.

Lemma repeats_nil seen skus :
  repeats seen skus = [] ->
  NoDup skus /\ forall s, In s skus -> ~ In s seen.
Proof.
  revert seen. induction skus as [|s skus IH]; intros seen H; simpl in H.
  - split; [constructor|intros s []].
  - apply app_eq_nil in H. destruct H as [Hs Hrest].
    destruct (IH _ Hrest) as (Hnd & Hnot).
    assert (Hseen : ~ In s seen).
    { intros Hin. apply existsb_eqb_In in Hin. rewrite Hin in Hs.
      discriminate. }
    split.
    + constructor; [|exact Hnd]. intros Hin. apply (Hnot s Hin). now left.
    + intros s' [<-|Hin]; [exact Hseen|].
      intros Hin'. apply (Hnot s' Hin). now right.
Qed.

(** The part of C2 the handler keeps: in a dataset whose rows all have a
    [sku] cell and in which no SKU names a property of [Object.prototype],
    a repeated SKU stops the handler with the duplicate-SKU error, whose
    message lists every repeated SKU once per occurrence after the first,
    and no output; and when no SKU repeats no such error is raised. *)
Lemma duplicate_skus_reported opts data :
  data <> [] ->
  (forall r, In r data -> exists sku, Obj.getOwn r "sku" = Some sku) ->
  (forall s, In s (nonBlankSkus data) -> Obj.inPrototype s = false) ->
  (~ NoDup (nonBlankSkus data) ->
   transform opts data
   = Err (Thrown ("Can't handle duplicate SKU: "
                  ++ Str.join ", " (repeats [] (nonBlankSkus data)))))
  /\ (NoDup (nonBlankSkus data) ->
      forall m, transform opts data <> Err (Thrown (duplicateMessage m))).
Proof.
  intros Hne Hsku Hproto.
  destruct (indexRows_repeats data 0%nat
              {| skuIndex := []; duplicateSkus := [] |} [] Hsku Hproto)
    as (idx & Hidx & Hd).
  { intros s _. simpl. split; [congruence|intros []]. }
  simpl in Hd. rewrite (transform_unfold _ _ Hne).
  unfold indexSkus. rewrite Hidx. simpl. rewrite Hd. split.
  - intros Hdup. destruct (repeats [] (nonBlankSkus data)) eqn:E.
    + exfalso. apply Hdup. exact (proj1 (repeats_nil _ _ E)).
    + reflexivity.
  - intros Hnd m.
    assert (Hacc : acceptedSkus data) by (repeat split; assumption).
    destruct (proj1 (indexSkus_accepts data) Hacc) as (idx' & Hidx' & Hd').
    unfold indexSkus in Hidx'. rewrite Hidx in Hidx'.
    inversion Hidx'; subst idx'. rewrite Hd in Hd'. rewrite Hd'.
    intros H. apply bind_ok_or in H.
    destruct H as [H|(rels & Hrels & H)].
    + unfold buildRelationships in H.
      destruct (relateRows_thrown _ _ _ _ _ H)
        as (c & sku & parent & spec & attrs & code & _ & _ & _ & _ & Hm).
      discriminate Hm.
    + destruct Hacc as (_ & _ & Hp).
      destruct (modifyRows_succeed opts rels
                  (findAdditionalAttributeHeaders (headersOf data)) data
                  Hsku Hp 0%nat []) as (out & Hout).
      unfold modifyRows in H. rewrite Hout in H. discriminate.
Qed.

(** ** Inputs on which the handler departs from the specification *)

(** C2: a dataset whose only SKU is [constructor] has pairwise distinct
    SKUs, yet the handler reports a duplicate: [skuIndex] is a plain
    object, and [typeof skuIndex['constructor']] finds the function
    inherited from [Object.prototype]. *)
Theorem prototype_named_sku_reported_as_duplicate :
  NoDup (nonBlankSkus Sample.constructorOnly)
  /\ handler noParameters Sample.constructorOnly
     = Err (Thrown "Can't handle duplicate SKU: constructor").
Proof. split; [|reflexivity]. repeat constructor. intros []. Qed.

(** The part of C6 the handler keeps: a row with a blank SKU changes
    neither the SKU index nor the output, and a row with an empty SKU
    changes no relationship either. *)
Lemma blank_rows_skipped opts rels addl (r : record) sku :
  Obj.getOwn r "sku" = Some sku ->
  blank sku = true ->
  (forall st i, indexRow st i r = Ok st)
  /\ (forall out i, modifyRow opts rels addl out i r = Ok out)
  /\ (sku = "" -> forall st i, relateRow opts st i r = Ok st).
Proof.
  intros Hsku Hb. split; [|split].
  - intros st i. unfold indexRow. rewrite Hsku. fold (blank sku).
    now rewrite Hb.
  - intros out i. exact (modifyRow_blank _ _ _ _ _ _ _ Hsku Hb).
  - intros -> st i. unfold relateRow. now rewrite Hsku.
Qed.

(** C6: the second pass tests [row.sku.length] where the other two test
    [row.sku.trim().length], so a child row whose SKU is a single space is
    left out of the output but still adds itself, its labels and its
    attribute values to its parent. *)
Theorem whitespace_sku_child_reaches_parent :
  blank " " = true
  /\ handler noParameters Sample.whitespaceSkuChild
     = Ok [ [("sku", VStr "P"); ("color", VStr "");
          ("configurable_variations", VStr "sku= |color=red");
          ("configurable_variation_labels", VStr "color=Color");
          ("additional_attributes", VStr "")] ].
Proof. split; reflexivity. Qed.

(** C7: a child row whose [configurable_attributes] cell is [color], with
    no parenthesised label, stops the handler with the engine's
    [TypeError] for [.groups] of [null]; the [catch] clause reports it,
    but the error is the same whatever the SKU of the row and names none. *)
Theorem malformed_spec_error_names_no_sku (sku : string) :
  sku <> "" ->
  Str.trim sku <> "" ->
  Obj.inPrototype sku = false ->
  handler noParameters
    [ [("sku", sku); ("parent_sku", "P");
       ("configurable_attributes", "color"); ("color", "red")] ]
  = Err (TypeError GroupsOfNull).
Proof.
  intros Hlen Htrim Hproto. unfold handler, transform. simpl.
  unfold indexSkus, indexRow. simpl.
  destruct (Str.trim sku) eqn:E; [contradiction|]. simpl.
  unfold Obj.get. simpl. rewrite Hproto. simpl.
  unfold buildRelationships, relateRow. simpl.
  destruct sku; [contradiction|]. reflexivity.
Qed.

Lemma malformed_spec_error_names_no_sku_witness :
  handler noParameters
    [ [("sku", "C1"); ("parent_sku", "P");
       ("configurable_attributes", "color"); ("color", "red")] ]
  = Err (TypeError GroupsOfNull).
Proof.
  apply (malformed_spec_error_names_no_sku "C1");
    [discriminate | discriminate | reflexivity].
Defined.

(** C10: a child row whose [parent_sku] is the SKU of no row stops the
    handler when that [parent_sku] is [toString].
    [configurableChildrenByParent] is a plain object, so the test that
    should start the child list of a parent met for the first time finds
    the function inherited from [Object.prototype], starts no list, and
    [.push] on that function is the engine's type error.  With [GONE] in the
    place of [toString] the same dataset is transformed. *)
Theorem dangling_child_of_inherited_name_fails :
  (forall r, In r Sample.inheritedOrphan ->
             Obj.getOwn r "sku" <> Some "toString")
  /\ child (nth 1 Sample.inheritedOrphan [])
     = Some ("C", "toString", "color(Color)")
  /\ handler noParameters Sample.inheritedOrphan
     = Err (TypeError PushNotAFunction)
  /\ handler noParameters Sample.orphan
     = Ok [ [("sku", VStr "A"); ("color", VStr "");
             ("configurable_variations", VStr "");
             ("configurable_variation_labels", VStr "");
             ("additional_attributes", VStr "")];
            [("sku", VStr "C"); ("color", VStr "red");
             ("configurable_variations", VStr "");
             ("configurable_variation_labels", VStr "");
             ("additional_attributes", VStr "")] ].
Proof.
  split; [|repeat split].
  intros r [<-|[<-|[]]]; discriminate.
Qed.

(** * Further properties of the helpers and of the passes *)

(** ** Purging and extracting columns *)

Lemma delete_filter {V} (o : Obj.t V) k :
  Obj.delete o k = filter (fun kv => negb (String.eqb (fst kv) k)) o.
Proof.
  induction o as [|[k0 v0] o IH]; simpl; [reflexivity|].
  destruct (String.eqb k0 k); simpl; now rewrite IH.
Qed.

Lemma purge_fold_filter cols ks : forall r : row,
  fold_left (fun result key =>
               if includes cols key then Obj.delete result key else result)
            ks r
  = filter (fun kv => negb (includes cols (fst kv)
                            && existsb (String.eqb (fst kv)) ks)) r.
Proof.
  induction ks as [|key ks IH]; intros r; simpl.
  - rewrite <- (filter_ext (fun _ => true)).
    + induction r as [|x r IHr]; simpl; [reflexivity|now rewrite <- IHr].
    + intros kv. now rewrite andb_false_r.
  - rewrite IH. destruct (includes cols key) eqn:Ekey.
    + rewrite delete_filter.
      induction r as [|[k0 v0] r IHr]; simpl; [reflexivity|].
      destruct (String.eqb_spec k0 key) as [->|Hne]; simpl.
      * rewrite Ekey. simpl. exact IHr.
      * destruct (negb (includes cols k0 && existsb (String.eqb k0) ks));
          simpl; now rewrite IHr.
    + apply filter_ext. intros [k0 v0]. simpl.
      destruct (String.eqb_spec k0 key) as [->|Hne]; simpl; [|reflexivity].
      now rewrite Ekey.
Qed.

Lemma existsb_own_key {V} (o : Obj.t V) kv :
  In kv o -> existsb (String.eqb (fst kv)) (Obj.keys o) = true.
Proof.
  intros H. apply existsb_exists. exists (fst kv). split.
  - unfold Obj.keys. now apply in_map.
  - apply String.eqb_refl.
Qed.

(** X1: [purgeColumns] removes the named columns and nothing else: the
    other cells stay, in their order and with their values. *)
Theorem purgeColumns_keeps_the_rest (r : row) (columns : list string) :
  purgeColumns r columns
  = filter (fun kv => negb (includes columns (fst kv))) r.
Proof.
  unfold purgeColumns. rewrite purge_fold_filter.
  apply filter_ext_in. intros kv Hin.
  now rewrite (existsb_own_key r kv Hin), andb_true_r.
Qed.

Lemma extract_fold (data : row) cols k ks : forall acc : row,
  k <> "__proto__" ->
  Obj.getOwn
    (fold_left (fun result key =>
                  if includes cols key
                  then Obj.set result key (read data key)
                  else result) ks acc) k
  = if includes cols k && existsb (String.eqb k) ks
    then Some (read data k)
    else Obj.getOwn acc k.
Proof.
  induction ks as [|key ks IH]; intros acc Hk; simpl.
  - now rewrite andb_false_r.
  - rewrite (IH _ Hk).
    destruct (includes cols k) eqn:Ek; simpl.
    + destruct (existsb (String.eqb k) ks); [now rewrite orb_true_r|].
      rewrite orb_false_r.
      destruct (String.eqb_spec k key) as [->|Hne].
      * rewrite Ek, getOwn_set.
        destruct (String.eqb_spec key "__proto__"); [contradiction|].
        now rewrite String.eqb_refl.
      * destruct (includes cols key); [|reflexivity].
        apply getOwn_set_other. congruence.
    + destruct (includes cols key) eqn:Ekey; [|reflexivity].
      apply getOwn_set_other. intros ->. congruence.
Qed.

Lemma getOwn_absent {V} (o : Obj.t V) k :
  ~ In k (Obj.keys o) -> Obj.getOwn o k = None.
Proof.
  intros H. destruct (Obj.getOwn o k) eqn:E; [|reflexivity].
  exfalso. apply H, getOwn_keys. now rewrite E.
Qed.

Lemma getOwn_app_absent {V} (pre l : Obj.t V) k :
  ~ In k (Obj.keys pre) -> Obj.getOwn (pre ++ l) k = Obj.getOwn l k.
Proof.
  induction pre as [|[k0 v0] pre IH]; simpl; intros H; [reflexivity|].
  destruct (String.eqb_spec k0 k) as [->|Hne]; [tauto|]. apply IH. tauto.
Qed.

Lemma keys_filter {V} (f : string * V -> bool) (o : Obj.t V) k :
  In k (Obj.keys (filter f o)) -> In k (Obj.keys o).
Proof.
  unfold Obj.keys. rewrite !in_map_iff. intros (kv & E & H).
  apply filter_In in H. exists kv. tauto.
Qed.

Lemma extract_fold_filter (data : row) cols : forall suf pre : row,
  data = pre ++ suf ->
  NoDup (Obj.keys data) ->
  (forall k, In k (Obj.keys data) -> includes cols k = true ->
             k <> "__proto__" /\ Obj.arrayIndex k = None) ->
  fold_left (fun result key =>
               if includes cols key
               then Obj.set result key (read data key)
               else result)
            (Obj.keys suf) (filter (fun kv => includes cols (fst kv)) pre)
  = filter (fun kv => includes cols (fst kv)) data.
Proof.
  induction suf as [|[k v] suf IH]; intros pre Hdata Hnd Hkeys.
  - simpl. subst. now rewrite app_nil_r.
  - simpl.
    assert (Hpre : ~ In k (Obj.keys pre)).
    { subst data. unfold Obj.keys in Hnd |- *. rewrite map_app in Hnd.
      simpl in Hnd. apply NoDup_remove_2 in Hnd.
      intros H. apply Hnd, in_or_app. now left. }
    assert (Hstep :
      (if includes cols k
       then Obj.set (filter (fun kv => includes cols (fst kv)) pre) k
                    (read data k)
       else filter (fun kv => includes cols (fst kv)) pre)
      = filter (fun kv => includes cols (fst kv)) (pre ++ [(k, v)])).
    { rewrite filter_app. simpl.
      destruct (includes cols k) eqn:Ek; [|now rewrite app_nil_r].
      assert (Hin : In k (Obj.keys data)).
      { subst data. unfold Obj.keys. rewrite map_app. apply in_or_app.
        right. now left. }
      destruct (Hkeys k Hin Ek) as (Hproto & Hidx).
      unfold Obj.set.
      destruct (String.eqb_spec k "__proto__"); [contradiction|].
      rewrite getOwn_absent
        by (intros H; apply Hpre; exact (keys_filter _ _ _ H)).
      rewrite Hidx. do 2 f_equal.
      unfold read, Obj.get. subst data.
      rewrite (getOwn_app_absent _ _ _ Hpre). simpl.
      now rewrite String.eqb_refl. }
    rewrite Hstep. apply IH; [|assumption|assumption].
    subst data. now rewrite <- app_assoc.
Qed.

(** X2: [extractColumns] copies exactly the named columns, each with the
    value it has in the row; together with [purgeColumns] it splits the
    row, every cell going to one side.  When the keys of the row are
    distinct and no copied key is an array index, the copied cells also
    keep the order they have in the row. *)
Theorem extractColumns_copies_the_named (r : row) (columns : list string) :
  (forall k, k <> "__proto__" ->
     Obj.getOwn (extractColumns r columns) k
     = (if includes columns k then Obj.getOwn r k else None)
     /\ Obj.getOwn (purgeColumns r columns) k
        = (if includes columns k then None else Obj.getOwn r k))
  /\ (NoDup (Obj.keys r) ->
      (forall k, In k (Obj.keys r) -> includes columns k = true ->
                 k <> "__proto__" /\ Obj.arrayIndex k = None) ->
      extractColumns r columns
      = filter (fun kv => includes columns (fst kv)) r).
Proof.
  split.
  - intros k Hk. split; [|apply getOwn_purgeColumns].
    unfold extractColumns. rewrite (extract_fold _ _ _ _ _ Hk).
    rewrite existsb_keys_own. unfold read, Obj.get. simpl.
    destruct (includes columns k); simpl; [|reflexivity].
    destruct (Obj.getOwn r k); reflexivity.
  - intros Hnd Hkeys. unfold extractColumns.
    exact (extract_fold_filter r columns r [] eq_refl Hnd Hkeys).
Qed.

Lemma extractColumns_copies_the_named_witness :
  Obj.getOwn
    (extractColumns
       [("sku", VStr "A"); ("brand", VStr "x"); ("material", VStr "y")]
       ["brand"; "material"]) "brand" = Some (VStr "x")
  /\ Obj.getOwn
       (purgeColumns
          [("sku", VStr "A"); ("brand", VStr "x"); ("material", VStr "y")]
          ["brand"; "material"]) "brand" = None
  /\ extractColumns
       [("sku", VStr "A"); ("brand", VStr "x"); ("material", VStr "y")]
       ["brand"; "material"]
     = [("brand", VStr "x"); ("material", VStr "y")].
Proof.
  split; [|split].
  - refine (proj1 (proj1 (extractColumns_copies_the_named _ _) "brand" _)).
    discriminate.
  - refine (proj2 (proj1 (extractColumns_copies_the_named _ _) "brand" _)).
    discriminate.
  - refine (proj2 (extractColumns_copies_the_named _ _) _ _).
    + repeat constructor; simpl; intuition discriminate.
    + intros k [<-|[<-|[<-|[]]]] H; try discriminate H;
        (split; [discriminate|reflexivity]).
Defined.

(** ** The key=value encoding *)

(** X3: the encoding of a non-empty object can be read back: splitting
    on the separator and then on [=] gives the keys with the text of
    their values, in the order of [Object.keys], as long as neither a key
    nor a value has a character of the separator or an [=] sign and the
    separator has no [=] sign.  The empty object is encoded as the empty
    string, which reads back as one empty pair. *)
Theorem key_value_encoding_reads_back (data : row) (separator : string) :
  (separator <> "" ->
   data <> [] ->
   avoids separator "=" ->
   (forall key, In key (Obj.keys data) ->
      avoids "=" key /\ avoids separator key
      /\ avoids "=" (toString (read data key))
      /\ avoids separator (toString (read data key))) ->
   map (Str.split "=")
       (Str.split separator
          (convertColumnsToStringKeyValue data separator))
   = map (fun key => [key; toString (read data key)]) (Obj.keys data))
  /\ map (Str.split "=")
         (Str.split separator
            (convertColumnsToStringKeyValue [] separator))
     = [[""]].
Proof.
  split; [|reflexivity].
  intros Hsep Hne Heq Hplain. unfold convertColumnsToStringKeyValue.
  rewrite split_join; [|exact Hsep| |].
  - rewrite map_map. apply map_ext_in. intros key Hkey.
    destruct (Hplain key Hkey) as (Hk & _ & Hv & _).
    change (key ++ "=" ++ toString (read data key))%string
      with (Str.join "=" [key; toString (read data key)]).
    apply split_join; [discriminate|discriminate|].
    intros p [<-|[<-|[]]]; assumption.
  - apply map_nonempty. unfold Obj.keys. now apply map_nonempty.
  - intros pair Hpair. apply in_map_iff in Hpair.
    destruct Hpair as (key & <- & Hkey).
    destruct (Hplain key Hkey) as (_ & Hk & _ & Hv).
    repeat apply avoids_append; assumption.
Qed.

Lemma key_value_encoding_reads_back_witness :
  map (Str.split "=")
      (Str.split "|"
         (convertColumnsToStringKeyValue
            [("brand", VStr "x"); ("material", VStr "wool")] "|"))
  = [["brand"; "x"]; ["material"; "wool"]].
Proof.
  refine (proj1 (key_value_encoding_reads_back
                   [("brand", VStr "x"); ("material", VStr "wool")] "|")
                _ _ _ _).
  - discriminate.
  - discriminate.
  - apply avoidsb_avoids. reflexivity.
  - intros key [<-|[<-|[]]];
      repeat split; apply avoidsb_avoids; reflexivity.
Defined.

(** ** Parsing a specification *)

Lemma matchLabel_some s l :
  matchLabel s = Some l ->
  Str.occurs ")" l = false
  /\ exists after, s = (l ++ ")" ++ after)%string.
Proof.
  revert l. induction s as [|c s IH]; intros l H; [discriminate|].
  cbn [matchLabel] in H. destruct (Ascii.eqb_spec c ")") as [->|Hne].
  - inversion H; subst. split; [reflexivity|]. now exists s.
  - destruct (matchLabel s) as [l'|]; [|discriminate].
    inversion H; subst. destruct (IH l' eq_refl) as (Hocc & after & ->).
    split.
    + cbn [Str.occurs]. rewrite Hocc, orb_false_r.
      apply Ascii.eqb_neq. congruence.
    + now exists after.
Qed.

Lemma matchLabel_closing l after :
  Str.occurs ")" l = false ->
  matchLabel (l ++ ")" ++ after) = Some l.
Proof.
  induction l as [|c l IH]; intros H; [reflexivity|].
  cbn [Str.occurs] in H. apply orb_false_iff in H. destruct H as [Hc Hl].
  change (String c l ++ ")" ++ after)%string
    with (String c (l ++ ")" ++ after)).
  cbn [matchLabel]. rewrite Ascii.eqb_sym in Hc. now rewrite Hc, (IH Hl).
Qed.

Lemma matchLabel_any inside after :
  matchLabel (inside ++ ")" ++ after) <> None.
Proof.
  induction inside as [|c l IH]; [discriminate|].
  change (String c l ++ ")" ++ after)%string
    with (String c (l ++ ")" ++ after)).
  cbn [matchLabel]. destruct (Ascii.eqb c ")"); [discriminate|].
  destruct (matchLabel (l ++ ")" ++ after)); [discriminate|contradiction].
Qed.

Lemma matchParen_some s l :
  matchParen s = Some l ->
  Str.occurs ")" l = false
  /\ exists after, s = ("(" ++ l ++ ")" ++ after)%string.
Proof.
  destruct s as [|c s]; [discriminate|]. unfold matchParen.
  destruct (Ascii.ascii_dec c "(") as [->|Hne].
  - intros H. destruct (matchLabel_some _ _ H) as (Hocc & after & ->).
    split; [exact Hocc|]. now exists after.
  - intros H. exfalso.
    destruct c as [[] [] [] [] [] [] [] []]; try discriminate H.
    now apply Hne.
Qed.

Lemma matchRest_some s l :
  matchRest s = Some l ->
  Str.occurs ")" l = false
  /\ exists gap after,
       s = (gap ++ "(" ++ l ++ ")" ++ after)%string
       /\ (gap = "" \/ exists c, gap = String c "" /\ Str.isWord c = false).
Proof.
  destruct s as [|c s]; [discriminate|]. unfold matchRest.
  destruct (if Str.isWord c then None else matchParen s) as [l'|] eqn:E.
  - intros H. inversion H; subst l'.
    destruct (Str.isWord c) eqn:Ew; [discriminate|].
    destruct (matchParen_some _ _ E) as (Hocc & after & ->).
    split; [exact Hocc|]. exists (String c ""), after.
    split; [reflexivity|]. right. now exists c.
  - intros H. destruct (matchParen_some _ _ H) as (Hocc & after & ->).
    split; [exact Hocc|]. exists "", after. split; [reflexivity|now left].
Qed.

Lemma matchHere_some s g :
  matchHere s = Some g ->
  allWord (attributeCode g) = true
  /\ Str.occurs ")" (label g) = false
  /\ exists gap after,
       s = (attributeCode g ++ gap ++ "(" ++ label g ++ ")" ++ after)%string
       /\ (gap = "" \/ exists c, gap = String c "" /\ Str.isWord c = false).
Proof.
  revert g. induction s as [|c s IH]; intros g H; [discriminate|].
  assert (Hrest : forall g',
    option_map (fun l => {| attributeCode := ""; label := l |})
               (matchRest (String c s)) = Some g' ->
    allWord (attributeCode g') = true
    /\ Str.occurs ")" (label g') = false
    /\ exists gap after,
         String c s
         = (attributeCode g' ++ gap ++ "(" ++ label g' ++ ")" ++ after)%string
         /\ (gap = "" \/ exists c, gap = String c "" /\ Str.isWord c = false)).
  { intros g' Hg'. destruct (matchRest (String c s)) as [l|] eqn:E;
      [|discriminate].
    inversion Hg'; subst g'. cbn [attributeCode label allWord].
    destruct (matchRest_some _ _ E) as (Hocc & gap & after & Hs & Hgap).
    split; [reflexivity|]. split; [exact Hocc|]. now exists gap, after. }
  cbn [matchHere] in H. destruct (Str.isWord c) eqn:Ew; [|now apply Hrest].
  destruct (matchHere s) as [g0|]; [|now apply Hrest].
  inversion H; subst g. cbn [attributeCode label allWord]. rewrite Ew.
  destruct (IH g0 eq_refl) as (Hw & Hocc & gap & after & Hs & Hgap).
  split; [exact Hw|]. split; [exact Hocc|]. exists gap, after.
  split; [|exact Hgap]. rewrite Hs at 1. reflexivity.
Qed.

Lemma reads_cons c s g : reads s g -> reads (String c s) g.
Proof.
  intros (before & gap & after & -> & Hgap).
  exists (String c before), gap, after. now split.
Qed.

Lemma regexMatch_some s g :
  regexMatch s = Some g ->
  allWord (attributeCode g) = true
  /\ Str.occurs ")" (label g) = false
  /\ reads s g.
Proof.
  induction s as [|c s IH].
  - discriminate.
  - cbn [regexMatch].
    destruct (matchHere (String c s)) as [g0|] eqn:E.
    + intros H. inversion H; subst g0.
      destruct (matchHere_some _ _ E) as (Hw & Hocc & gap & after & Hs & Hgap).
      split; [exact Hw|]. split; [exact Hocc|].
      exists "", gap, after. now split.
    + intros H. destruct (IH H) as (Hw & Hocc & Hp).
      split; [exact Hw|]. split; [exact Hocc|]. now apply reads_cons.
Qed.

Lemma reads_parenthesised s g : reads s g -> parenthesised s.
Proof.
  intros (before & gap & after & -> & _).
  exists (before ++ attributeCode g ++ gap)%string, (label g), after.
  now rewrite <- !append_assoc.
Qed.

Lemma parenthesised_matches s : parenthesised s -> regexMatch s <> None.
Proof.
  intros (before & inside & after & ->).
  induction before as [|c before IH].
  - change ("" ++ "(" ++ inside ++ ")" ++ after)%string
      with (String "(" (inside ++ ")" ++ after)).
    cbn [regexMatch matchHere].
    change (Str.isWord "(") with false. cbv iota.
    unfold matchRest. change (Str.isWord "(") with false. cbv iota.
    destruct (matchParen (inside ++ ")" ++ after)) as [l|]; [discriminate|].
    cbn [matchParen].
    pose proof (matchLabel_any inside after) as Hl.
    destruct (matchLabel (inside ++ ")" ++ after)); [discriminate|].
    contradiction.
  - change (String c before ++ "(" ++ inside ++ ")" ++ after)%string
      with (String c (before ++ "(" ++ inside ++ ")" ++ after)).
    cbn [regexMatch].
    destruct (matchHere
                (String c (before ++ "(" ++ inside ++ ")" ++ after)));
      [discriminate|exact IH].
Qed.

Lemma matchAll_ok pieces attrs :
  matchAll pieces = Ok attrs ->
  Forall2 (fun piece attr => regexMatch piece = Some attr) pieces attrs.
Proof.
  revert attrs. induction pieces as [|p pieces IH]; intros attrs H.
  - inversion H. constructor.
  - cbn [matchAll] in H. destruct (regexMatch p) as [g|] eqn:E;
      [|discriminate].
    destruct (matchAll pieces) as [gs|e]; [|discriminate].
    inversion H; subst attrs. constructor; [exact E|now apply IH].
Qed.

Lemma matchAll_err pieces e :
  matchAll pieces = Err e ->
  e = TypeError GroupsOfNull
  /\ exists piece, In piece pieces /\ regexMatch piece = None.
Proof.
  induction pieces as [|p pieces IH]; intros H; [discriminate|].
  cbn [matchAll] in H. destruct (regexMatch p) as [g|] eqn:E.
  - destruct (matchAll pieces) as [gs|e']; [discriminate|].
    inversion H; subst e'. destruct (IH eq_refl) as (He & q & Hq & Hm).
    split; [exact He|]. exists q. split; [now right|exact Hm].
  - inversion H. split; [reflexivity|]. exists p. split; [now left|exact E].
Qed.

Lemma matchAll_matches pieces attrs :
  Forall2 (fun piece attr => regexMatch piece = Some attr) pieces attrs ->
  matchAll pieces = Ok attrs.
Proof.
  induction 1 as [|p g pieces attrs Hp _ IH]; [reflexivity|].
  cbn [matchAll]. now rewrite Hp, IH.
Qed.

(** X4: [parseConfigurableAttributes] returns exactly when every piece
    between the commas of the specification has an opening parenthesis with a
    closing one somewhere after it; whenever it does not return, what is
    thrown is the engine's type error for [.groups] of [null]. *)
Theorem specification_parses_iff_parenthesised spec :
  ((exists attrs, parseConfigurableAttributes spec = Ok attrs)
   <-> Forall parenthesised (Str.split "," spec))
  /\ (forall e, parseConfigurableAttributes spec = Err e ->
                e = TypeError GroupsOfNull).
Proof.
  unfold parseConfigurableAttributes. split; [split|].
  - intros (attrs & H). apply matchAll_ok in H.
    induction H as [|p g pieces attrs Hp _ IH]; constructor; [|exact IH].
    destruct (regexMatch_some _ _ Hp) as (_ & _ & Hr).
    exact (reads_parenthesised _ _ Hr).
  - intros H. destruct (matchAll (Str.split "," spec)) as [attrs|e] eqn:E.
    + now exists attrs.
    + destruct (matchAll_err _ _ E) as (_ & p & Hin & Hm). exfalso.
      rewrite Forall_forall in H.
      exact (parenthesised_matches p (H p Hin) Hm).
  - intros e H. exact (proj1 (matchAll_err _ _ H)).
Qed.

(** X5: when [parseConfigurableAttributes] returns, it gives one attribute
    for each piece between the commas, in order; the code is a run of word
    characters of the piece, the label is what follows the next opening
    parenthesis up to the first closing one, and at most one character that
    is not a word character stands between the two. *)
Theorem parsed_attributes_come_from_pieces spec attrs :
  parseConfigurableAttributes spec = Ok attrs ->
  Forall2
    (fun piece attr =>
       reads piece attr
       /\ allWord (attributeCode attr) = true
       /\ Str.occurs ")" (label attr) = false)
    (Str.split "," spec) attrs.
Proof.
  unfold parseConfigurableAttributes. intros H. apply matchAll_ok in H.
  induction H as [|p g pieces gs Hp _ IH]; constructor; [|exact IH].
  destruct (regexMatch_some _ _ Hp) as (Hw & Hocc & Hr). now repeat split.
Qed.

Lemma parsed_attributes_come_from_pieces_witness :
  Forall2
    (fun piece attr =>
       reads piece attr
       /\ allWord (attributeCode attr) = true
       /\ Str.occurs ")" (label attr) = false)
    (Str.split "," "size=(Size),colour (Colour)x")
    [ {| attributeCode := "size"; label := "Size" |};
      {| attributeCode := "colour"; label := "Colour" |} ].
Proof.
  apply (parsed_attributes_come_from_pieces "size=(Size),colour (Colour)x").
  vm_compute. reflexivity.
Defined.

Lemma allWord_avoids_comma s : allWord s = true -> Str.occurs "," s = false.
Proof.
  induction s as [|c s IH]; [reflexivity|]. cbn [allWord Str.occurs].
  intros H. apply andb_true_iff in H. destruct H as [Hc Hs].
  rewrite (IH Hs), orb_false_r. apply Ascii.eqb_neq. intros <-.
  discriminate Hc.
Qed.

Lemma matchHere_entry code l :
  allWord code = true ->
  Str.occurs ")" l = false ->
  String.prefix "(" l = false ->
  matchHere (code ++ "(" ++ l ++ ")")
  = Some {| attributeCode := code; label := l |}.
Proof.
  intros Hw Hocc Hpre. induction code as [|c code IH].
  - change ("" ++ "(" ++ l ++ ")")%string with (String "(" (l ++ ")")).
    cbn [matchHere]. change (Str.isWord "(") with false. cbv iota.
    unfold matchRest. change (Str.isWord "(") with false. cbv iota.
    assert (Hno : matchParen (l ++ ")") = None).
    { destruct l as [|x l]; [reflexivity|].
      change (String x l ++ ")")%string with (String x (l ++ ")")).
      cbn [String.prefix] in Hpre.
      destruct (Ascii.ascii_dec "(" x) as [<-|Hne].
      - now destruct l.
      - unfold matchParen.
        destruct x as [[] [] [] [] [] [] [] []]; try reflexivity.
        now contradiction Hne. }
    rewrite Hno. cbn [matchParen].
    change (l ++ ")")%string with (l ++ ")" ++ "")%string.
    now rewrite (matchLabel_closing l "" Hocc).
  - cbn [allWord] in Hw. apply andb_true_iff in Hw. destruct Hw as [Hc Hw].
    change (String c code ++ "(" ++ l ++ ")")%string
      with (String c (code ++ "(" ++ l ++ ")")).
    cbn [matchHere]. now rewrite Hc, (IH Hw).
Qed.

Lemma regexMatch_entry attr :
  wellFormed attr -> regexMatch (entry attr) = Some attr.
Proof.
  intros (Hw & Hocc & _ & Hpre). unfold entry.
  pose proof (matchHere_entry _ _ Hw Hocc Hpre) as H.
  destruct attr as [code l]. cbn [attributeCode label] in *.
  destruct (code ++ "(" ++ l ++ ")")%string eqn:E.
  - discriminate H.
  - cbn [regexMatch]. now rewrite H.
Qed.

Lemma entry_avoids_comma attr : wellFormed attr -> avoids "," (entry attr).
Proof.
  intros (Hw & _ & Hcomma & _). apply avoids_sym. intros c Hc.
  cbn [Str.occurs] in Hc. rewrite orb_false_r in Hc.
  apply Ascii.eqb_eq in Hc. subst c. unfold entry.
  rewrite !occurs_append, (allWord_avoids_comma _ Hw), Hcomma. reflexivity.
Qed.

(** X6: a specification written as entries [code(label)] joined by commas
    is parsed back to the same codes and labels, in order, when each code is
    made of word characters and each label has no comma, no closing
    parenthesis and no opening parenthesis in front. *)
Theorem specification_parse_inverts_entries attrs :
  attrs <> [] ->
  Forall wellFormed attrs ->
  parseConfigurableAttributes (Str.join "," (map entry attrs)) = Ok attrs.
Proof.
  intros Hne Hwf. unfold parseConfigurableAttributes.
  rewrite split_join.
  - apply matchAll_matches. induction Hwf as [|g gs Hg _ IH].
    + contradiction.
    + cbn [map]. constructor; [now apply regexMatch_entry|].
      destruct gs as [|g' gs]; [constructor|]. apply IH. discriminate.
  - discriminate.
  - destruct attrs; [contradiction|discriminate].
  - intros p Hin. apply in_map_iff in Hin. destruct Hin as (g & <- & Hg).
    rewrite Forall_forall in Hwf. exact (entry_avoids_comma g (Hwf g Hg)).
Qed.

Lemma specification_parse_inverts_entries_witness :
  parseConfigurableAttributes
    (Str.join ","
       (map entry [ {| attributeCode := "size"; label := "Size" |};
                    {| attributeCode := "colour"; label := "Colour" |} ]))
  = Ok [ {| attributeCode := "size"; label := "Size" |};
         {| attributeCode := "colour"; label := "Colour" |} ].
Proof.
  apply specification_parse_inverts_entries; [discriminate|].
  repeat constructor.
Defined.

(** ** When the handler answers with rows *)

(** The own keys of [configurableChildrenByParent] never name a property of
    [Object.prototype]: a key is only added after the lookup found
    nothing. *)
Lemma establishRelationship_indexable opts st r sku parent spec st1 :
  establishRelationship opts st r sku parent spec = Ok st1 ->
  (forall K, Obj.getOwn (configurableChildrenByParent st) K <> None ->
             Obj.inPrototype K = false) ->
  Obj.inPrototype parent = false
  /\ (forall K, Obj.getOwn (configurableChildrenByParent st1) K <> None ->
                Obj.inPrototype K = false).
Proof.
  unfold establishRelationship. intros H Hinv.
  apply bind_ok in H. destruct H as (attrs & _ & H).
  apply bind_ok in H. destruct H as (children & Hpush & H).
  apply bind_ok in H. destruct H as (values & _ & H).
  inversion H; subst st1; clear H. cbn [configurableChildrenByParent].
  assert (Hparent : Obj.inPrototype parent = false).
  { destruct (Obj.get (configurableChildrenByParent st) parent) as [l| |]
      eqn:E.
    - apply Hinv. apply get_own in E. congruence.
    - rewrite E in Hpush. discriminate.
    - exact (proj2 (proj1 (get_missing _ _) E)). }
  split; [exact Hparent|]. intros K HK.
  destruct (String.eqb_spec parent K) as [<-|Hne]; [exact Hparent|].
  apply Hinv.
  destruct (Obj.get
              match Obj.get (configurableChildrenByParent st) parent with
              | Obj.Missing =>
                  Obj.set (configurableChildrenByParent st) parent []
              | _ => configurableChildrenByParent st
              end parent) as [l| |]; [|discriminate|discriminate].
  inversion Hpush; subst children.
  rewrite getOwn_set_other in HK by assumption.
  destruct (Obj.get (configurableChildrenByParent st) parent);
    try exact HK.
  now rewrite getOwn_set_other in HK.
Qed.

Lemma relateRow_indexable opts st i r st1 :
  relateRow opts st i r = Ok st1 ->
  (forall K, Obj.getOwn (configurableChildrenByParent st) K <> None ->
             Obj.inPrototype K = false) ->
  (forall sku parent spec,
     child r = Some (sku, parent, spec) -> Obj.inPrototype parent = false)
  /\ (forall K, Obj.getOwn (configurableChildrenByParent st1) K <> None ->
                Obj.inPrototype K = false).
Proof.
  intros H Hinv. destruct (relateRow_sku _ _ _ _ _ H) as (sku0 & Hsku0).
  destruct (child r) as [[[sku parent] spec]|] eqn:Echild.
  - rewrite (relateRow_child _ _ _ _ _ _ _ Echild) in H.
    destruct (establishRelationship_indexable _ _ _ _ _ _ _ H Hinv)
      as (Hp & Hinv1).
    split; [|exact Hinv1].
    intros sku' parent' spec' E. now inversion E; subst.
  - rewrite (relateRow_not_child _ _ _ _ _ Hsku0 Echild) in H.
    inversion H; subst st1. split; [discriminate|exact Hinv].
Qed.

Lemma relateRows_indexable opts data : forall i st st',
  forEach (relateRow opts) data i st = Ok st' ->
  (forall K, Obj.getOwn (configurableChildrenByParent st) K <> None ->
             Obj.inPrototype K = false) ->
  (forall r sku parent spec,
     In r data -> child r = Some (sku, parent, spec) ->
     Obj.inPrototype parent = false)
  /\ (forall K, Obj.getOwn (configurableChildrenByParent st') K <> None ->
                Obj.inPrototype K = false).
Proof.
  induction data as [|r0 data IH]; intros i st st' H Hinv.
  - inversion H; subst st'. split; [intros r sku parent spec []|exact Hinv].
  - cbn [forEach] in H. apply bind_ok in H.
    destruct H as (st1 & Hr & Hrest).
    destruct (relateRow_indexable _ _ _ _ _ Hr Hinv) as (Hp0 & Hinv1).
    destruct (IH _ _ _ Hrest Hinv1) as (Hp & Hinv').
    split; [|exact Hinv'].
    intros r sku parent spec [<-|Hin] Hc; [exact (Hp0 _ _ _ Hc)|].
    exact (Hp _ _ _ _ Hin Hc).
Qed.

(** The handler answers with rows exactly when the dataset has a row, the
    first pass accepts its SKUs and every row passes the checks of the
    second pass on its own. *)
Lemma transform_succeeds_iff (opts : options) (data : list record) :
  (exists out, transform opts data = Ok out)
  <-> data <> []
      /\ acceptedSkus data
      /\ (forall r, In r data -> passesChecks r).
Proof.
  split.
  - intros (out & H).
    destruct (transform_ok _ _ _ H) as (idx & rels & Hidx & Hd & Hrels & _).
    split; [intros ->; discriminate H|].
    split; [apply indexSkus_accepts; eauto|].
    intros r Hin. unfold buildRelationships in Hrels.
    destruct (relateRows_checked _ _ _ _ _ Hrels r Hin) as (Hsku & Hc).
    destruct (relateRows_indexable _ _ _ _ _ Hrels) as (Hp & _);
      [intros K HK; now contradiction HK|].
    split; [exact Hsku|]. intros sku parent spec Echild.
    split; [exact (Hp _ _ _ _ Hin Echild)|].
    exists (specOf r). exact (Hc _ _ _ Echild).
  - intros (Hne & Hacc & Hrows).
    destruct (proj1 (indexSkus_accepts data) Hacc) as (idx & Hidx & Hd).
    destruct (relateRows_succeed opts data Hrows 0%nat noRelations)
      as (rels & Hrels).
    exact (transform_passes _ _ _ _ Hne Hidx Hd Hrels).
Qed.

Lemma firstMissing_none r attrs :
  firstMissing r attrs = None
  <-> forall a, In a attrs -> truthy (cell r (attributeCode a)) = true.
Proof.
  pose proof (firstMissing_spec r attrs) as H. split.
  - intros E. now rewrite E in H.
  - intros Hall. destruct (firstMissing r attrs) as [code|]; [|reflexivity].
    destruct H as (passed & a & rest & -> & <- & Hf & _).
    rewrite Hall in Hf; [discriminate|].
    apply in_or_app. right. now left.
Qed.

(** X7: the handler answers with rows exactly when the dataset has a row,
    every row has a [sku] cell, the SKUs that are not blank are pairwise
    distinct and none of them names a property of [Object.prototype], and
    every child row has a parent SKU that names no property of
    [Object.prototype], a specification that parses, and a truthy
    [row[code]] for each attribute code of it.  [row[code]] is truthy when
    the row has a non-empty cell under the code, and also when it has no
    cell under it and the code names a property of [Object.prototype]: the
    lookup then finds the inherited property. *)
Theorem handler_answers_iff_checks_pass (opts : options)
    (data : list record) :
  (exists out, transform opts data = Ok out)
  <-> data <> []
      /\ ((forall r, In r data -> exists sku, Obj.getOwn r "sku" = Some sku)
          /\ NoDup (nonBlankSkus data)
          /\ (forall s, In s (nonBlankSkus data) ->
                        Obj.inPrototype s = false))
      /\ (forall r sku parent spec,
            In r data ->
            child r = Some (sku, parent, spec) ->
            Obj.inPrototype parent = false
            /\ exists attrs,
                 parseConfigurableAttributes spec = Ok attrs
                 /\ forall a, In a attrs ->
                              truthy (cell r (attributeCode a)) = true).
Proof.
  rewrite transform_succeeds_iff. unfold passesChecks.
  split; intros (Hne & Hacc & Hrows); (split; [exact Hne|]);
    (split; [exact Hacc|]).
  - intros r sku parent spec Hin Hc.
    destruct (proj2 (Hrows r Hin) _ _ _ Hc) as (Hp & attrs & Hparse & Hm).
    split; [exact Hp|]. exists attrs. split; [exact Hparse|].
    now apply firstMissing_none.
  - intros r Hin. split; [exact (proj1 Hacc r Hin)|].
    intros sku parent spec Hc.
    destruct (Hrows r sku parent spec Hin Hc) as (Hp & attrs & Hparse & Hm).
    split; [exact Hp|]. exists attrs. split; [exact Hparse|].
    now apply firstMissing_none.
Qed.

(** ** What an error tells about the dataset *)

Lemma indexRows_err data e : forall i st,
  forEach indexRow data i st = Err e ->
  e = TypeError SkuUndefined
  /\ exists r, In r data /\ Obj.getOwn r "sku" = None.
Proof.
  induction data as [|r data IH]; intros i st H; [discriminate|].
  cbn [forEach] in H. apply bind_ok_or in H.
  destruct H as [H|(st1 & _ & H)].
  - unfold indexRow in H.
    destruct (Obj.getOwn r "sku") as [sku|] eqn:Esku.
    + destruct (_ =? _)%nat; discriminate.
    + inversion H. split; [reflexivity|]. exists r. split; [now left|exact Esku].
  - destruct (IH _ _ H) as (He & r' & Hin & Hr').
    split; [exact He|]. exists r'. split; [now right|exact Hr'].
Qed.

Lemma indexRow_sku st i r sku :
  Obj.getOwn r "sku" = Some sku -> exists st1, indexRow st i r = Ok st1.
Proof.
  unfold indexRow. intros ->. destruct (_ =? _)%nat; eauto.
Qed.

Lemma indexRows_missing_cell data r :
  In r data -> Obj.getOwn r "sku" = None ->
  forall i st, forEach indexRow data i st = Err (TypeError SkuUndefined).
Proof.
  intros Hin Hr. induction data as [|r0 data IH]; intros i st;
    [destruct Hin|].
  cbn [forEach]. destruct (Obj.getOwn r0 "sku") as [sku|] eqn:Esku.
  - destruct (indexRow_sku st i r0 sku Esku) as (st1 & ->). cbn [bind].
    destruct Hin as [->|Hin]; [congruence|now apply IH].
  - unfold indexRow. now rewrite Esku.
Qed.

Lemma indexRows_duplicates data : forall i st st',
  forEach indexRow data i st = Ok st' ->
  incl (duplicateSkus st') (duplicateSkus st ++ nonBlankSkus data).
Proof.
  induction data as [|r data IH]; intros i st st' H.
  - inversion H; subst st'. cbn [nonBlankSkus]. rewrite app_nil_r.
    apply incl_refl.
  - cbn [forEach] in H. apply bind_ok in H.
    destruct H as (st1 & Hr & Hrest). specialize (IH _ _ _ Hrest).
    unfold indexRow in Hr. cbn [nonBlankSkus].
    destruct (Obj.getOwn r "sku") as [sku|]; [|discriminate].
    fold (blank sku) in Hr. destruct (blank sku).
    + now inversion Hr; subst st1.
    + inversion Hr; subst st1; clear Hr. cbn [duplicateSkus] in IH.
      intros s Hs. specialize (IH s Hs). rewrite in_app_iff in IH |- *.
      destruct IH as [IH|IH]; [|right; now right].
      destruct (Obj.get (skuIndex st) sku); try (now left);
        rewrite in_app_iff in IH;
        (destruct IH as [IH|[<-|[]]]; [now left|right; now left]).
Qed.

Lemma establishRelationship_type_error opts st r sku parent spec f :
  establishRelationship opts st r sku parent spec = Err (TypeError f) ->
  (f = GroupsOfNull
   /\ parseConfigurableAttributes spec = Err (TypeError GroupsOfNull))
  \/ (f = PushNotAFunction /\ Obj.inPrototype parent = true).
Proof.
  unfold establishRelationship. intros H.
  apply bind_ok_or in H. destruct H as [H|(attrs & Hparse & H)].
  { left. unfold parseConfigurableAttributes in *.
    destruct (matchAll_err _ _ H) as (E & _). split; congruence. }
  apply bind_ok_or in H. destruct H as [H|(children & _ & H)].
  - right.
    destruct (Obj.get (configurableChildrenByParent st) parent) as [l| |]
      eqn:E.
    + rewrite E in H. discriminate.
    + rewrite E in H. inversion H. split; [reflexivity|].
      unfold Obj.get in E.
      destruct (Obj.getOwn _ parent); [discriminate|].
      destruct (Obj.inPrototype parent); [reflexivity|discriminate].
    + apply get_missing in E. destruct E as (_ & Hp).
      rewrite get_set_same in H by now apply not_inPrototype_proto.
      discriminate.
  - exfalso. apply bind_ok_or in H. destruct H as [H|(values & _ & H)];
      [|discriminate].
    pose proof (storeValues_run r sku attrs 0%nat
                  (Obj.set (configurableAttributeValuesByChildren st) sku []))
      as Hrun.
    destruct (firstMissing r attrs).
    + rewrite Hrun in H. discriminate.
    + destruct Hrun as (vs' & Hrun & _). rewrite Hrun in H. discriminate.
Qed.

(** A [TypeError] of the second pass names its cause. *)
Lemma relateRows_type_error opts data f : forall i st,
  forEach (relateRow opts) data i st = Err (TypeError f) ->
  (f = SkuUndefined /\ exists r, In r data /\ Obj.getOwn r "sku" = None)
  \/ exists c sku parent spec,
       In c data /\ child c = Some (sku, parent, spec)
       /\ ((f = GroupsOfNull
            /\ parseConfigurableAttributes spec = Err (TypeError GroupsOfNull))
           \/ (f = PushNotAFunction /\ Obj.inPrototype parent = true)).
Proof.
  induction data as [|r data IH]; intros i st H; [discriminate|].
  cbn [forEach] in H. apply bind_ok_or in H.
  destruct H as [H|(st1 & _ & H)].
  - destruct (Obj.getOwn r "sku") as [sku0|] eqn:Esku.
    + destruct (child r) as [[[sku parent] spec]|] eqn:Echild.
      * rewrite (relateRow_child _ _ _ _ _ _ _ Echild) in H.
        right. exists r, sku, parent, spec.
        split; [now left|]. split; [exact Echild|].
        exact (establishRelationship_type_error _ _ _ _ _ _ _ H).
      * rewrite (relateRow_not_child _ _ _ _ _ Esku Echild) in H.
        discriminate.
    + unfold relateRow in H. rewrite Esku in H. inversion H.
      left. split; [reflexivity|]. exists r. split; [now left|exact Esku].
  - destruct (IH _ _ H) as [(Hf & r' & Hin & Hr')
                           |(c & sku & parent & spec & Hin & Hrest)].
    + left. split; [exact Hf|]. exists r'. split; [now right|exact Hr'].
    + right. exists c, sku, parent, spec. split; [now right|exact Hrest].
Qed.

(** Whatever stops the handler stops it in the first two passes. *)
Lemma transform_err opts data e :
  transform opts data = Err e ->
  data = [] /\ e = TypeError KeysOfUndefined
  \/ indexSkus data = Err e
  \/ (exists idx, indexSkus data = Ok idx /\ duplicateSkus idx <> []
                  /\ e = Thrown (duplicateMessage (duplicateSkus idx)))
  \/ buildRelationships opts data = Err e.
Proof.
  destruct data as [|first rest] eqn:Edata.
  { intros H. inversion H. now left. }
  rewrite <- Edata. intros H. right.
  rewrite transform_unfold in H by (rewrite Edata; discriminate).
  apply bind_ok_or in H. destruct H as [H|(idx & Hidx & H)]; [now left|].
  right. destruct (duplicateSkus idx) as [|d ds] eqn:Hd.
  - right. apply bind_ok_or in H. destruct H as [H|(rels & Hrels & H)];
      [exact H|].
    exfalso.
    destruct (indexSkus_no_duplicates _ _ Hidx Hd) as (Hsku & _ & Hproto).
    destruct (modifyRows_succeed opts rels
                (findAdditionalAttributeHeaders (headersOf data)) data
                Hsku Hproto 0%nat []) as (out & Hout).
    unfold modifyRows in H. rewrite Hout in H. discriminate.
  - left. exists idx. split; [exact Hidx|]. rewrite Hd.
    split; [discriminate|]. now inversion H.
Qed.

(** X8: every failure of the handler names its cause in the dataset.  No
    rows at all, a row without a [sku] cell, a child row whose
    specification does not parse and a child row whose parent SKU names a
    property of [Object.prototype] each give the engine's type error of
    that place.  An error thrown by the handler itself is either the
    duplicate-SKU error, listing SKUs of the dataset, or the missing-value
    error of a child row: it names the SKU of that row and the first code
    of its specification for which [row[code]] is falsy, which a code that
    names a property of [Object.prototype] and has no cell in the row
    never is.  The third pass, whose [.map] could fail on an inherited
    property, never fails. *)
Theorem handler_error_names_its_cause (opts : options)
    (data : list record) (e : error) :
  transform opts data = Err e ->
  match e with
  | TypeError KeysOfUndefined => data = []
  | TypeError SkuUndefined =>
      exists r, In r data /\ Obj.getOwn r "sku" = None
  | TypeError GroupsOfNull =>
      exists c sku parent spec,
        In c data /\ child c = Some (sku, parent, spec)
        /\ parseConfigurableAttributes spec = Err (TypeError GroupsOfNull)
  | TypeError PushNotAFunction =>
      exists c sku parent spec,
        In c data /\ child c = Some (sku, parent, spec)
        /\ Obj.inPrototype parent = true
  | TypeError MapNotAFunction => False
  | Thrown m =>
      (exists dups,
         dups <> [] /\ incl dups (nonBlankSkus data)
         /\ m = duplicateMessage dups)
      \/ (exists c sku parent spec passed a rest,
            In c data /\ child c = Some (sku, parent, spec)
            /\ parseConfigurableAttributes spec = Ok (passed ++ a :: rest)
            /\ (forall b, In b passed ->
                          truthy (cell c (attributeCode b)) = true)
            /\ truthy (cell c (attributeCode a)) = false
            /\ m = missingValueMessage (attributeCode a) sku)
  end.
Proof.
  intros H. apply transform_err in H.
  destruct H as [(-> & ->)|[H|[(idx & Hidx & Hd & ->)|H]]].
  - reflexivity.
  - unfold indexSkus in H. destruct (indexRows_err _ _ _ _ H) as (-> & Hr).
    exact Hr.
  - left. exists (duplicateSkus idx). split; [exact Hd|].
    split; [|reflexivity].
    exact (indexRows_duplicates _ _ _ _ Hidx).
  - unfold buildRelationships in H. destruct e as [m|f].
    + right.
      destruct (relateRows_thrown _ _ _ _ _ H)
        as (c & sku & parent & spec & attrs & code
            & Hin & Hc & Hparse & Hmiss & ->).
      pose proof (firstMissing_spec c attrs) as Hspec.
      rewrite Hmiss in Hspec.
      destruct Hspec as (passed & a & rest & -> & <- & Hfalse & Hpassed).
      exists c, sku, parent, spec, passed, a, rest.
      repeat split; assumption.
    + destruct (relateRows_type_error _ _ _ _ _ H)
        as [(-> & Hr)|(c & sku & parent & spec & Hin & Hc & Hcase)].
      * exact Hr.
      * destruct Hcase as [(-> & Hp)|(-> & Hp)];
          exists c, sku, parent, spec; repeat split; assumption.
Qed.

Lemma handler_error_names_its_cause_witness :
  exists c sku parent spec,
    In c Sample.inheritedParent /\ child c = Some (sku, parent, spec)
    /\ Obj.inPrototype parent = true.
Proof.
  exact (handler_error_names_its_cause (establishOptions noParameters)
           Sample.inheritedParent (TypeError PushNotAFunction) eq_refl).
Defined.

(** X9: a row without a [sku] cell anywhere in the dataset stops the
    handler with the engine's type error for [row.sku.trim()], whatever the
    other rows hold; and that error is raised for no other reason. *)
Theorem row_without_sku_cell_stops_the_handler (opts : options)
    (data : list record) :
  (exists r, In r data /\ Obj.getOwn r "sku" = None)
  <-> transform opts data = Err (TypeError SkuUndefined).
Proof.
  split.
  - intros (r & Hin & Hr).
    rewrite transform_unfold by (intros ->; destruct Hin).
    unfold indexSkus. now rewrite (indexRows_missing_cell data r Hin Hr).
  - intros H. apply transform_err in H.
    destruct H as [(_ & H)|[H|[(idx & _ & _ & H)|H]]]; try discriminate.
    + unfold indexSkus in H. exact (proj2 (indexRows_err _ _ _ _ H)).
    + unfold buildRelationships in H.
      destruct (relateRows_type_error _ _ _ _ _ H)
        as [(_ & Hr)|(c & sku & parent & spec & _ & _ & Hcase)];
        [exact Hr|].
      destruct Hcase as [(Hf & _)|(Hf & _)]; discriminate.
Qed.

(** ** The rows of the answer *)

Lemma transform_rows opts data out :
  transform opts data = Ok out ->
  exists rels,
    buildRelationships opts data = Ok rels
    /\ acceptedSkus data
    /\ Forall2
         (fun r r' =>
            rewriteRow opts rels
              (findAdditionalAttributeHeaders (headersOf data)) r = Ok r')
         (nonBlankRows data) out.
Proof.
  intros H.
  destruct (transform_ok _ _ _ H) as (idx & rels & Hidx & Hd & Hrels & Hm).
  destruct (modifyRows_ok _ _ _ _ _ _ _ Hm) as (rows & -> & Hrows).
  exists rels. split; [exact Hrels|]. split; [|exact Hrows].
  apply indexSkus_accepts. eauto.
Qed.

Lemma includes_In cols k : includes cols k = true <-> In k cols.
Proof. apply existsb_eqb_In. Qed.

Lemma includes_not_In cols k : ~ In k cols -> includes cols k = false.
Proof.
  intros H. destruct (includes cols k) eqn:E; [|reflexivity].
  now apply includes_In in E.
Qed.

Lemma rewriteRow_untouched opts rels addl r r' k :
  rewriteRow opts rels addl r = Ok r' ->
  ~ rewritten addl k ->
  read r' k = cell r k.
Proof.
  unfold rewriteRow, rewritten, purged. intros H Hk.
  apply bind_ok in H. destruct H as (r1 & Hr1 & H).
  inversion H; subst r'; clear H.
  rewrite read_purgeFakeColumns.
  - rewrite read_autoStockStatus by tauto.
    apply (read_before_override _ _ _ _ _ _ _ Hr1). tauto.
  - apply includes_not_In. cbn [In]. intros [<-|[<-|[]]]; tauto.
  - apply includes_not_In. tauto.
Qed.

(** X10: the handler answers with one row for each row of the dataset that
    is not blank, in input order, and every cell of a column it neither
    writes nor removes is the cell that was parsed. *)
Theorem other_columns_pass_through (opts : options) (data : list record)
    (out : list row) :
  transform opts data = Ok out ->
  Forall2
    (fun r r' =>
       forall k,
         ~ rewritten (findAdditionalAttributeHeaders (headersOf data)) k ->
         read r' k = cell r k)
    (nonBlankRows data) out.
Proof.
  intros H. destruct (transform_rows _ _ _ H) as (rels & _ & _ & Hrows).
  revert Hrows. apply Forall2_impl. intros r r' Hr k Hk.
  exact (rewriteRow_untouched _ _ _ _ _ _ Hr Hk).
Qed.

Lemma other_columns_pass_through_witness :
  exists out,
    handler noParameters Sample.family = Ok out
    /\ Forall2
         (fun r r' =>
            forall k,
              ~ rewritten
                  (findAdditionalAttributeHeaders (headersOf Sample.family))
                  k ->
              read r' k = cell r k)
         (nonBlankRows Sample.family) out.
Proof.
  eexists. split; [vm_compute; reflexivity|].
  apply (other_columns_pass_through (establishOptions noParameters)).
  vm_compute. reflexivity.
Defined.

Lemma rewriteRow_purged opts rels addl r r' k :
  rewriteRow opts rels addl r = Ok r' ->
  purged addl k ->
  Obj.getOwn r' k = None.
Proof.
  unfold rewriteRow, purged, purgeFakeColumns. intros H Hk.
  apply bind_ok in H. destruct H as (r1 & _ & H).
  inversion H; subst r'; clear H. rewrite !getOwn_purgeColumns.
  destruct (includes addl k) eqn:E; [reflexivity|].
  destruct Hk as [->|[->|Hk]]; try reflexivity.
  apply includes_In in Hk. congruence.
Qed.

(** X11: no row of the answer has a [parent_sku] cell, a
    [configurable_attributes] cell, or a cell under a header that stands
    after [additional_attributes] in the first row. *)
Theorem purged_columns_leave_every_row (opts : options)
    (data : list record) (out : list row) :
  transform opts data = Ok out ->
  forall r' k,
    In r' out ->
    purged (findAdditionalAttributeHeaders (headersOf data)) k ->
    Obj.getOwn r' k = None.
Proof.
  intros H r' k Hin Hk.
  destruct (transform_rows _ _ _ H) as (rels & _ & _ & Hrows).
  clear H. induction Hrows as [|r0 r0' rs rs' Hr _ IH]; [destruct Hin|].
  destruct Hin as [<-|Hin]; [|exact (IH Hin)].
  exact (rewriteRow_purged _ _ _ _ _ _ Hr Hk).
Qed.

Lemma purged_columns_leave_every_row_witness :
  exists out r',
    handler noParameters Sample.family = Ok out
    /\ nth_error out 0 = Some r'
    /\ Obj.getOwn r' "brand" = None.
Proof.
  eexists. eexists. split; [vm_compute; reflexivity|].
  split; [reflexivity|].
  eapply (purged_columns_leave_every_row (establishOptions noParameters)
            Sample.family).
  - vm_compute. reflexivity.
  - left. reflexivity.
  - right. right. vm_compute. now left.
Defined.

(** *** The [additional_attributes] cell *)

Lemma extract_fold_included (data : row) cols ks : forall acc : row,
  fold_left (fun result key =>
               if includes cols key
               then Obj.set result key (read data key)
               else result) ks acc
  = fold_left (fun result key => Obj.set result key (read data key))
              (filter (includes cols) ks) acc.
Proof.
  induction ks as [|key ks IH]; intros acc; [reflexivity|].
  cbn [fold_left filter]. destruct (includes cols key); cbn [fold_left];
    apply IH.
Qed.

Lemma fold_set_agree (data data' : row) ks : forall acc : row,
  (forall k, In k ks -> read data k = read data' k) ->
  fold_left (fun result key => Obj.set result key (read data key)) ks acc
  = fold_left (fun result key => Obj.set result key (read data' key)) ks acc.
Proof.
  induction ks as [|key ks IH]; intros acc H; [reflexivity|].
  cbn [fold_left]. rewrite (H key (or_introl eq_refl)).
  apply IH. intros k Hk. apply H. now right.
Qed.

Lemma keys_replace {V} (o : Obj.t V) k v :
  Obj.keys (Obj.replace o k v) = Obj.keys o.
Proof.
  induction o as [|[k0 v0] o IH]; [reflexivity|]. cbn [Obj.replace].
  destruct (String.eqb k0 k); [reflexivity|].
  unfold Obj.keys in *. cbn [map fst]. now rewrite IH.
Qed.

Lemma filter_keys_insertIndex {V} (f : string -> bool) n k (v : V) o :
  f k = false ->
  filter f (Obj.keys (Obj.insertIndex n k v o)) = filter f (Obj.keys o).
Proof.
  intros Hk. induction o as [|[k0 v0] o IH]; cbn [Obj.insertIndex].
  - unfold Obj.keys. cbn [map fst filter]. now rewrite Hk.
  - assert (Hhere : filter f (Obj.keys ((k, v) :: (k0, v0) :: o))
                    = filter f (Obj.keys ((k0, v0) :: o))).
    { unfold Obj.keys. cbn [map fst]. cbn [filter]. now rewrite Hk. }
    destruct (Obj.arrayIndex k0) as [m|]; [|exact Hhere].
    destruct (m <? n)%N; [|exact Hhere].
    unfold Obj.keys in *. cbn [map fst filter]. now rewrite IH.
Qed.

Lemma filter_keys_set {V} (f : string -> bool) (o : Obj.t V) k v :
  f k = false ->
  filter f (Obj.keys (Obj.set o k v)) = filter f (Obj.keys o).
Proof.
  intros Hk. unfold Obj.set.
  destruct (String.eqb k "__proto__"); [reflexivity|].
  destruct (Obj.getOwn o k).
  - now rewrite keys_replace.
  - destruct (Obj.arrayIndex k) as [n|].
    + now apply filter_keys_insertIndex.
    + unfold Obj.keys. rewrite map_app, filter_app. cbn [map fst filter].
      rewrite Hk. apply app_nil_r.
Qed.

(** Writing a column that is not extracted does not change what is
    extracted. *)
Lemma extractColumns_set (r : row) cols k v :
  includes cols k = false ->
  extractColumns (Obj.set r k v) cols = extractColumns r cols.
Proof.
  intros Hk. unfold extractColumns. rewrite !extract_fold_included.
  rewrite (filter_keys_set _ _ _ _ Hk). apply fold_set_agree.
  intros key Hin. apply filter_In in Hin. destruct Hin as [_ Hkey].
  apply read_set_other. intros <-. congruence.
Qed.

Lemma extractColumns_before_squash opts rels addl sku (rec : record) r1 :
  addConfigurableData opts rels sku (addPlaceholders rels (ofRecord rec))
  = Ok r1 ->
  (forall k, written k -> ~ In k addl) ->
  extractColumns r1 addl = extractColumns (ofRecord rec) addl.
Proof.
  unfold written. intros H Hw.
  assert (Hv : includes addl "configurable_variations" = false)
    by (apply includes_not_In, Hw; tauto).
  assert (Hl : includes addl "configurable_variation_labels" = false)
    by (apply includes_not_In, Hw; tauto).
  assert (Ha : includes addl "additional_attributes" = false)
    by (apply includes_not_In, Hw; tauto).
  assert (Hp : extractColumns (addPlaceholders rels (ofRecord rec)) addl
               = extractColumns (ofRecord rec) addl).
  { unfold addPlaceholders. rewrite (extractColumns_set _ _ _ _ Ha).
    destruct (_ =? _)%nat; [reflexivity|].
    now rewrite (extractColumns_set _ _ _ _ Hl),
                (extractColumns_set _ _ _ _ Hv). }
  unfold addConfigurableData in H.
  destruct (Obj.get (configurableChildrenByParent rels) sku);
    inversion H; subst r1; [|exact Hp].
  now rewrite (extractColumns_set _ _ _ _ Hl),
              (extractColumns_set _ _ _ _ Hv).
Qed.

Lemma rewriteRow_additional_attributes opts rels addl r r' :
  rewriteRow opts rels addl r = Ok r' ->
  (forall k, written k -> ~ In k addl) ->
  read r' "additional_attributes"
  = VStr (convertColumnsToStringKeyValue
            (extractColumns (ofRecord r) addl) (multiValueSeperator opts)).
Proof.
  unfold rewriteRow. intros H Hw.
  apply bind_ok in H. destruct H as (r1 & Hr1 & H).
  inversion H; subst r'; clear H.
  rewrite read_purgeFakeColumns.
  - rewrite read_autoStockStatus by discriminate.
    unfold squashAdditionalAttributes.
    rewrite read_set_same by discriminate.
    now rewrite (extractColumns_before_squash _ _ _ _ _ _ Hr1 Hw).
  - reflexivity.
  - apply includes_not_In, Hw. unfold written. tauto.
Qed.

(** X12: when none of the three columns the handler writes stands after
    the [additional_attributes] header, the [additional_attributes] cell of
    every row of the answer is the [key=value] encoding, under the
    multi-value separator, of the cells the parsed row has under the
    headers after the marker. *)
Theorem additional_attributes_cell_encodes_the_extracted (opts : options)
    (data : list record) (out : list row) :
  transform opts data = Ok out ->
  (forall k, written k ->
             ~ In k (findAdditionalAttributeHeaders (headersOf data))) ->
  Forall2
    (fun r r' =>
       read r' "additional_attributes"
       = VStr (convertColumnsToStringKeyValue
                 (extractColumns (ofRecord r)
                    (findAdditionalAttributeHeaders (headersOf data)))
                 (multiValueSeperator opts)))
    (nonBlankRows data) out.
Proof.
  intros H Hw. destruct (transform_rows _ _ _ H) as (rels & _ & _ & Hrows).
  revert Hrows. apply Forall2_impl. intros r r' Hr.
  exact (rewriteRow_additional_attributes _ _ _ _ _ Hr Hw).
Qed.

Lemma additional_attributes_cell_encodes_the_extracted_witness :
  exists out,
    handler noParameters Sample.family = Ok out
    /\ Forall2
         (fun r r' =>
            read r' "additional_attributes"
            = VStr (convertColumnsToStringKeyValue
                      (extractColumns (ofRecord r)
                         (findAdditionalAttributeHeaders
                            (headersOf Sample.family)))
                      (multiValueSeperator (establishOptions noParameters))))
         (nonBlankRows Sample.family) out.
Proof.
  eexists. split; [vm_compute; reflexivity|].
  apply (additional_attributes_cell_encodes_the_extracted
           (establishOptions noParameters)).
  - vm_compute. reflexivity.
  - vm_compute. intros k [-> | [-> | ->]] [H | []]; discriminate H.
Defined.

(** *** The placeholder columns *)

Lemma Forall2_In_l {A B} (R : A -> B -> Prop) l l' :
  Forall2 R l l' -> Forall2 (fun x y => In x l /\ R x y) l l'.
Proof.
  induction 1 as [|x y l l' Hxy _ IH]; constructor.
  - split; [now left|exact Hxy].
  - revert IH. apply Forall2_impl. intros a b [Ha Hab].
    split; [now right|exact Hab].
Qed.

(** The children kept under a SKU when the second pass is over. *)
Lemma buildRelationships_children opts data rels K :
  buildRelationships opts data = Ok rels ->
  Obj.inPrototype K = false ->
  Obj.getOwn (configurableChildrenByParent rels) K
  = match filter (isChildOf K) data with
    | [] => None
    | cs => Some (map skuOf cs)
    end.
Proof.
  unfold buildRelationships. intros H HK.
  destruct (relateRows_lookups _ _ _ _ _ H) as (Hc & _).
  rewrite (Hc K HK). now destruct (filter (isChildOf K) data).
Qed.

Lemma anyChild_true data :
  anyChild data = true ->
  exists c sku parent spec, In c data /\ child c = Some (sku, parent, spec).
Proof.
  unfold anyChild. rewrite existsb_exists. intros (c & Hin & Hc).
  destruct (child c) as [[[sku parent] spec]|] eqn:E; [|discriminate].
  now exists c, sku, parent, spec.
Qed.

Lemma anyChild_false data c :
  anyChild data = false -> In c data -> child c = None.
Proof.
  unfold anyChild. intros H Hin.
  destruct (child c) eqn:E; [|reflexivity].
  assert (Ht : existsb
                 (fun r => match child r with Some _ => true | None => false
                           end) data = true).
  { apply existsb_exists. exists c. split; [exact Hin|]. now rewrite E. }
  congruence.
Qed.

Lemma first_own_key {V} (o : Obj.t V) :
  o = [] \/ exists K v, Obj.getOwn o K = Some v.
Proof.
  destruct o as [|[K v] o]; [now left|]. right. exists K, v.
  cbn [Obj.getOwn]. now rewrite String.eqb_refl.
Qed.

(** [configurableChildrenByParent] has a key exactly when the dataset has a
    child row. *)
Lemma buildRelationships_any_child opts data rels :
  buildRelationships opts data = Ok rels ->
  (List.length (Obj.keys (configurableChildrenByParent rels)) =? 0)%nat
  = negb (anyChild data).
Proof.
  intros H. pose proof H as Hrun. unfold buildRelationships in Hrun.
  destruct (relateRows_indexable _ _ _ _ _ Hrun) as (Hparent & Hinv);
    [intros K HK; now contradiction HK|].
  destruct (anyChild data) eqn:Eany; cbn [negb].
  - destruct (anyChild_true _ Eany) as (c & sku & parent & spec & Hin & Hc).
    pose proof (Hparent _ _ _ _ Hin Hc) as Hp.
    pose proof (buildRelationships_children _ _ _ _ H Hp) as Hget.
    assert (Hf : In c (filter (isChildOf parent) data)).
    { apply filter_In. split; [exact Hin|]. unfold isChildOf.
      rewrite Hc. apply String.eqb_refl. }
    destruct (filter (isChildOf parent) data) as [|c0 cs]; [destruct Hf|].
    destruct (configurableChildrenByParent rels); [discriminate Hget|].
    reflexivity.
  - destruct (first_own_key (configurableChildrenByParent rels))
      as [->|(K & l & HK)]; [reflexivity|]. exfalso.
    assert (Hp : Obj.inPrototype K = false).
    { apply Hinv. rewrite HK. discriminate. }
    rewrite (buildRelationships_children _ _ _ _ H Hp) in HK.
    destruct (filter (isChildOf K) data) as [|c cs] eqn:Ef; [discriminate|].
    assert (Hin : In c (filter (isChildOf K) data))
      by (rewrite Ef; now left).
    apply filter_In in Hin. destruct Hin as [Hin Hc].
    unfold isChildOf in Hc. rewrite (anyChild_false _ _ Eany Hin) in Hc.
    discriminate.
Qed.

Lemma rewriteRow_placeholders opts rels addl r r' k :
  rewriteRow opts rels addl r = Ok r' ->
  Obj.get (configurableChildrenByParent rels) (skuOf r) = Obj.Missing ->
  k = "configurable_variations" \/ k = "configurable_variation_labels" ->
  ~ In k addl ->
  read r' k
  = if (List.length (Obj.keys (configurableChildrenByParent rels)) =? 0)%nat
    then cell r k else VStr "".
Proof.
  unfold rewriteRow, addConfigurableData. intros H Hget Hk Haddl.
  rewrite Hget in H. cbn [bind] in H. inversion H; subst r'; clear H.
  rewrite read_purgeFakeColumns.
  - rewrite read_autoStockStatus by (destruct Hk; subst; discriminate).
    unfold squashAdditionalAttributes, addPlaceholders.
    rewrite !(read_set_other _ "additional_attributes")
      by (destruct Hk; subst; discriminate).
    destruct (_ =? _)%nat; [apply read_ofRecord|].
    destruct Hk as [->| ->].
    + rewrite read_set_other by discriminate.
      now rewrite read_set_same by discriminate.
    + now rewrite read_set_same by discriminate.
  - destruct Hk; subst; reflexivity.
  - now apply includes_not_In.
Qed.

(** X13: in a dataset with a child row, every row of the answer that is
    not the row of a parent has an empty [configurable_variations] cell and
    an empty [configurable_variation_labels] cell, unless the column is
    one of those removed as an additional attribute; in a dataset without
    a child row the two columns are left as they were parsed. *)
Theorem placeholder_columns_on_other_rows (opts : options)
    (data : list record) (out : list row) :
  transform opts data = Ok out ->
  Forall2
    (fun r r' =>
       filter (isChildOf (skuOf r)) data = [] ->
       forall k,
         k = "configurable_variations"
         \/ k = "configurable_variation_labels" ->
         ~ In k (findAdditionalAttributeHeaders (headersOf data)) ->
         read r' k = if anyChild data then VStr "" else cell r k)
    (nonBlankRows data) out.
Proof.
  intros H.
  destruct (transform_rows _ _ _ H) as (rels & Hrels & Hacc & Hrows).
  apply Forall2_In_l in Hrows. revert Hrows. apply Forall2_impl.
  intros r r' [Hin Hr] Hnone k Hk Haddl.
  destruct (nonBlankRows_In _ _ Hin) as (Hdata & sku & Hsku & Hb).
  assert (Hget : Obj.get (configurableChildrenByParent rels) (skuOf r)
                 = Obj.Missing).
  { destruct Hacc as (_ & _ & Hproto).
    assert (Hp : Obj.inPrototype (skuOf r) = false).
    { apply Hproto. unfold skuOf. rewrite Hsku.
      exact (nonBlankSkus_In _ _ _ Hdata Hsku Hb). }
    apply get_missing. split; [|exact Hp].
    rewrite (buildRelationships_children _ _ _ _ Hrels Hp). now rewrite Hnone. }
  rewrite (rewriteRow_placeholders _ _ _ _ _ _ Hr Hget Hk Haddl).
  rewrite (buildRelationships_any_child _ _ _ Hrels).
  now destruct (anyChild data).
Qed.

Lemma placeholder_columns_on_other_rows_witness :
  exists out,
    handler noParameters Sample.family = Ok out
    /\ Forall2
         (fun r r' =>
            filter (isChildOf (skuOf r)) Sample.family = [] ->
            forall k,
              k = "configurable_variations"
              \/ k = "configurable_variation_labels" ->
              ~ In k (findAdditionalAttributeHeaders
                        (headersOf Sample.family)) ->
              read r' k
              = if anyChild Sample.family then VStr "" else cell r k)
         (nonBlankRows Sample.family) out.
Proof.
  eexists. split; [vm_compute; reflexivity|].
  apply (placeholder_columns_on_other_rows (establishOptions noParameters)).
  vm_compute. reflexivity.
Defined.

(** ** Quantities written in decimal digits *)

Lemma isDigit_bounds c :
  Str.isDigit c = true -> (48 <= nat_of_ascii c <= 57)%nat.
Proof.
  unfold Str.isDigit. intros H. apply andb_true_iff in H.
  destruct H as [H1 H2]. apply Nat.leb_le in H1, H2. lia.
Qed.

Lemma digitValue_digit c :
  Str.isDigit c = true ->
  Num.digitValue 10 c = Some (Z.of_nat (nat_of_ascii c) - 48)%Z.
Proof.
  intros H. pose proof (isDigit_bounds c H) as Hb.
  unfold Num.digitValue. rewrite H.
  destruct (Z.ltb_spec (Z.of_nat (nat_of_ascii c) - 48) 10);
    [reflexivity|lia].
Qed.

Lemma mathInt_digits s : forall acc n,
  Obj.digitsValue acc s = Some n ->
  fold_left (fun a d => (a * 10 + d)%Z) (Num.digitsPrefix 10 s) (Z.of_N acc)
  = Z.of_N n.
Proof.
  induction s as [|c s IH]; intros acc n H.
  - inversion H. reflexivity.
  - cbn [Obj.digitsValue] in H. destruct (Str.isDigit c) eqn:Ec;
      [|discriminate].
    cbn [Num.digitsPrefix]. rewrite (digitValue_digit c Ec).
    cbn [fold_left]. rewrite <- (IH _ _ H). f_equal.
    pose proof (isDigit_bounds c Ec). lia.
Qed.

Lemma digitsValue_any s : forall acc acc' n,
  Obj.digitsValue acc s = Some n ->
  exists n', Obj.digitsValue acc' s = Some n'.
Proof.
  induction s as [|c s IH]; intros acc acc' n H; cbn [Obj.digitsValue] in *.
  - eauto.
  - destruct (Str.isDigit c); [|discriminate]. exact (IH _ _ _ H).
Qed.

Lemma digit_not_whiteSpace c :
  Str.isDigit c = true -> Str.isWhiteSpace c = false.
Proof.
  intros H. pose proof (isDigit_bounds c H) as Hb. unfold Str.isWhiteSpace.
  destruct (Nat.leb_spec (nat_of_ascii c) 13); [lia|].
  destruct (Nat.eqb_spec (nat_of_ascii c) 32); [lia|].
  destruct (Nat.eqb_spec (nat_of_ascii c) 160); [lia|].
  now rewrite andb_false_r.
Qed.

Lemma stripSign_digit c r :
  Str.isDigit c = true -> Num.stripSign (String c r) = (false, String c r).
Proof.
  destruct c as [[] [] [] [] [] [] [] []]; intros H;
    try discriminate H; reflexivity.
Qed.

Lemma stripPrefix_digits c r n :
  Obj.digitsValue 0 r = Some n ->
  Num.stripPrefix (String c r) = (10%Z, String c r).
Proof.
  intros H. destruct r as [|d r].
  - destruct c as [[] [] [] [] [] [] [] []]; reflexivity.
  - cbn [Obj.digitsValue] in H. destruct (Str.isDigit d) eqn:Ed;
      [|discriminate]. clear H.
    destruct c as [[] [] [] [] [] [] [] []]; try reflexivity.
    destruct d as [[] [] [] [] [] [] [] []]; try discriminate Ed;
      reflexivity.
Qed.

Lemma roundMagnitude_small m :
  (0 <= m < 2 ^ 53)%Z -> Num.roundMagnitude m = m.
Proof.
  intros [H0 H1]. unfold Num.roundMagnitude.
  destruct (Z.leb_spec (Z.log2 m + 1) 53) as [_|Hbits]; [reflexivity|].
  exfalso. destruct (Z.eq_dec m 0) as [->|Hm].
  - cbn in Hbits. lia.
  - assert (Z.log2 m < 53)%Z by (apply Z.log2_lt_pow2; lia). lia.
Qed.

Lemma ofZ_small n : (0 <= n < 2 ^ 53)%Z -> Num.ofZ n = Num.Finite n.
Proof.
  intros H. unfold Num.ofZ. rewrite Z.abs_eq by lia.
  rewrite (roundMagnitude_small n H).
  assert (Hlt : (2 ^ 53 < 2 ^ 1024)%Z) by (apply Z.pow_lt_mono_r; lia).
  destruct (Z.leb_spec (2 ^ 1024) n) as [Hbig|_]; [lia|].
  f_equal. destruct (Z.eq_dec n 0) as [->|Hn]; [reflexivity|].
  rewrite Z.sgn_pos by lia. lia.
Qed.

Lemma decimal_digits s n :
  decimal s = Some n ->
  exists c r m,
    s = String c r /\ Str.isDigit c = true
    /\ Obj.digitsValue 0 s = Some m /\ n = Z.of_N m.
Proof.
  unfold decimal. destruct s as [|c r]; [discriminate|].
  destruct (Obj.digitsValue 0 (String c r)) as [m|] eqn:E; [|discriminate].
  intros H. inversion H; subst n. exists c, r, m.
  repeat split; try reflexivity; try exact E.
  cbn [Obj.digitsValue] in E. now destruct (Str.isDigit c).
Qed.

(** [parseInt] of a string of decimal digits is the integer they write, as
    long as a double holds it exactly. *)
Lemma parseInt_decimal s n :
  decimal s = Some n -> (n < 2 ^ 53)%Z -> Num.parseInt s = Num.Finite n.
Proof.
  intros H Hn.
  destruct (decimal_digits s n H) as (c & r & m & -> & Hc & Hm & ->).
  unfold Num.parseInt. cbn [Str.trimStart].
  rewrite (digit_not_whiteSpace c Hc), (stripSign_digit c r Hc).
  assert (Hr : exists m', Obj.digitsValue 0 r = Some m').
  { cbn [Obj.digitsValue] in Hm. rewrite Hc in Hm.
    exact (digitsValue_any _ _ 0%N _ Hm). }
  destruct Hr as (m' & Hr). rewrite (stripPrefix_digits c r m' Hr).
  pose proof (mathInt_digits (String c r) 0 m Hm) as Hfold.
  change (Z.of_N 0) with 0%Z in Hfold.
  destruct (Num.digitsPrefix 10 (String c r)) as [|d ds] eqn:Eds.
  - cbn [Num.digitsPrefix] in Eds. rewrite (digitValue_digit c Hc) in Eds.
    discriminate.
  - unfold Num.mathInt. rewrite Hfold. apply ofZ_small. lia.
Qed.

(** X14: with a threshold written in decimal digits, the handler compares
    numbers, not strings: a row of the answer whose parsed [qty] is written
    in decimal digits and whose [is_in_stock] cell was not empty has the
    number 1 under [is_in_stock] when the quantity is at least the threshold
    and the number 0 otherwise (both below [2^53], the threshold not zero,
    and [is_in_stock] not among the columns removed). *)
Theorem stock_flag_compares_quantities (q : query) (data : list record)
    (out : list row) (t : string) (nt : Z) :
  auto_stock_status_threshold q = Some t ->
  decimal t = Some nt ->
  (0 < nt < 2 ^ 53)%Z ->
  handler q data = Ok out ->
  ~ In "is_in_stock" (findAdditionalAttributeHeaders (headersOf data)) ->
  Forall2
    (fun r r' =>
       forall qty nq,
         Obj.getOwn r "qty" = Some qty ->
         decimal qty = Some nq ->
         (nq < 2 ^ 53)%Z ->
         populated (Obj.getOwn r "is_in_stock") <> None ->
         read r' "is_in_stock" = VNum (if (nt <=? nq)%Z then 1 else 0))
    (nonBlankRows data) out.
Proof.
  intros Hq Ht Hnt H Haddl. unfold handler in H.
  destruct (transform_rows _ _ _ H) as (rels & _ & _ & Hrows).
  revert Hrows. apply Forall2_impl.
  intros r r' Hr qty nq Hqty Hdec Hnq Hstock.
  assert (Hthreshold : autoStockStatusThreshold (establishOptions q)
                       = Some (Num.Finite nt)).
  { cbn [establishOptions autoStockStatusThreshold]. rewrite Hq.
    rewrite (parseInt_decimal t nt Ht) by lia. cbn [Num.truthy].
    destruct (Z.eqb_spec nt 0); [lia|reflexivity]. }
  unfold rewriteRow in Hr. apply bind_ok in Hr.
  destruct Hr as (r1 & Hr1 & Hr). inversion Hr; subst r'; clear Hr.
  rewrite read_purgeFakeColumns;
    [|reflexivity|now apply includes_not_In].
  assert (Hrq : read (squashAdditionalAttributes (establishOptions q)
                        (findAdditionalAttributeHeaders (headersOf data)) r1)
                     "qty" = VStr qty).
  { rewrite (read_before_override _ _ _ _ _ _ "qty" Hr1)
      by (unfold written; intros [E|[E|E]]; discriminate E).
    unfold cell, Obj.get. now rewrite Hqty. }
  assert (Hrs : truthy (read (squashAdditionalAttributes (establishOptions q)
                                (findAdditionalAttributeHeaders
                                   (headersOf data)) r1)
                             "is_in_stock") = true).
  { rewrite (read_before_override _ _ _ _ _ _ "is_in_stock" Hr1)
      by (unfold written; intros [E|[E|E]]; discriminate E).
    pose proof (cell_populated r "is_in_stock" eq_refl) as Hp.
    destruct (populated (Obj.getOwn r "is_in_stock")); [tauto|].
    now contradiction Hstock. }
  assert (Hne : qty <> "") by (intros ->; discriminate Hdec).
  unfold autoStockStatus. rewrite Hthreshold, Hrq, Hrs.
  cbn [Num.truthy truthy toString].
  destruct (Z.eqb_spec nt 0); [lia|].
  destruct (String.eqb_spec qty ""); [contradiction|]. cbn [negb andb].
  rewrite (parseInt_decimal qty nq Hdec Hnq). cbn [Num.ge].
  destruct (nt <=? nq)%Z; now rewrite read_set_same by discriminate.
Qed.

Lemma stock_flag_compares_quantities_witness :
  exists out,
    handler Sample.thresholdTen Sample.family = Ok out
    /\ Forall2
         (fun r r' =>
            forall qty nq,
              Obj.getOwn r "qty" = Some qty ->
              decimal qty = Some nq ->
              (nq < 2 ^ 53)%Z ->
              populated (Obj.getOwn r "is_in_stock") <> None ->
              read r' "is_in_stock" = VNum (if (10 <=? nq)%Z then 1 else 0))
         (nonBlankRows Sample.family) out.
Proof.
  eexists. split; [vm_compute; reflexivity|].
  apply (stock_flag_compares_quantities Sample.thresholdTen Sample.family _
           "10" 10%Z).
  - reflexivity.
  - reflexivity.
  - lia.
  - vm_compute. reflexivity.
  - vm_compute. intros [H | []]. discriminate H.
Defined.

(** ** The configurable columns of any parent row *)

Lemma last_default {A} (a : A) l x y : last (a :: l) x = last (a :: l) y.
Proof.
  revert a. induction l as [|b l IH]; intros a; [reflexivity|].
  change (last (a :: b :: l) x) with (last (b :: l) x).
  change (last (a :: b :: l) y) with (last (b :: l) y). apply IH.
Qed.

Lemma lastOf_last {A} (x : A) l : lastOf (x :: l) = Some (last l x).
Proof.
  revert x. induction l as [|y l IH]; intros x; [reflexivity|].
  change (lastOf (x :: y :: l))
    with (match lastOf (y :: l) with Some z => Some z | None => Some x end).
  rewrite (IH y). f_equal. destruct l as [|z l]; [reflexivity|].
  change (last (y :: z :: l) x) with (last (z :: l) x). apply last_default.
Qed.

Lemma rewriteRow_parent_labels opts rels addl r r' children labels :
  rewriteRow opts rels addl r = Ok r' ->
  Obj.get (configurableChildrenByParent rels) (skuOf r) = Obj.Own children ->
  Obj.get (configurableLabelsByParent rels) (skuOf r) = Obj.Own labels ->
  ~ In "configurable_variation_labels" addl ->
  read r' "configurable_variation_labels" = VStr labels.
Proof.
  unfold rewriteRow, addConfigurableData. intros H Hc Hl Hp.
  rewrite Hc, Hl in H. cbn [bind] in H. inversion H; subst r'; clear H.
  rewrite read_purgeFakeColumns;
    [|reflexivity|now apply includes_not_In].
  rewrite read_autoStockStatus by discriminate.
  unfold squashAdditionalAttributes.
  rewrite read_set_other by discriminate.
  now rewrite read_set_same by discriminate.
Qed.

(** The values kept for a child whose SKU is not blank are those of its
    own row. *)
Lemma buildRelationships_child_values opts data rels c parent :
  buildRelationships opts data = Ok rels ->
  acceptedSkus data ->
  In c data ->
  isChildOf parent c = true ->
  blank (skuOf c) = false ->
  variationsOf rels (skuOf c) = variationsFrom c.
Proof.
  unfold buildRelationships. intros Hrels (_ & Hnd & Hproto) Hin Hc Hb.
  destruct (isChildOf_child _ _ Hc) as (s & spec & Ec & Es & _).
  assert (E : skuOf c = s) by (unfold skuOf; now rewrite Es).
  rewrite E in *.
  destruct (relateRows_lookups _ _ _ _ _ Hrels) as (_ & _ & Hv).
  assert (Hs : s <> "__proto__").
  { apply not_inPrototype_proto, Hproto.
    exact (nonBlankSkus_In _ _ _ Hin Es Hb). }
  pose proof (Hv s Hs) as Hvs.
  rewrite (last_child_with_sku data c s Hnd Hin) in Hvs; try assumption.
  2: { unfold hasChildSku. rewrite Ec. apply String.eqb_refl. }
  unfold variationsOf, variationsFrom, attributeValuesOf.
  rewrite (proj2 (get_own _ _ _) Hvs). unfold skuOf. now rewrite Es.
Qed.

(** X15: the row of a parent carries, in [configurable_variations], one
    encoding for each of its child rows, in input order and joined by the
    value-group separator.  Each is the [key=value] encoding of the object
    that [Object.assign] makes of [{sku: childSku}] and the child's own
    values, [row[code]] for each code of its specification, assigned in
    the order of the specification; so the pairs come in the order of
    [Object.keys]: codes that are array indices first, then [sku], then the
    other codes as the specification first names them, and a code named
    [sku] takes the place of the SKU.  In [configurable_variation_labels]
    the row carries the labels of the specification of the last child.
    The children have SKUs that are not blank, and a column that is
    removed as an additional attribute is left aside. *)
Theorem parent_row_lists_every_child (opts : options) (data : list record)
    (out : list row) :
  transform opts data = Ok out ->
  Forall2
    (fun p r' =>
       forall c cs,
         filter (isChildOf (skuOf p)) data = c :: cs ->
         Forall (fun c' => blank (skuOf c') = false) (c :: cs) ->
         (~ In "configurable_variations"
               (findAdditionalAttributeHeaders (headersOf data)) ->
          read r' "configurable_variations"
          = VStr (Str.join (valueGroupSeperator opts)
                    (map (fun c' =>
                            convertColumnsToStringKeyValue
                              (variationsFrom c') (multiValueSeperator opts))
                         (c :: cs))))
         /\ (~ In "configurable_variation_labels"
                  (findAdditionalAttributeHeaders (headersOf data)) ->
             read r' "configurable_variation_labels"
             = VStr (labelsOf (multiValueSeperator opts)
                       (specOf (last cs c)))))
    (nonBlankRows data) out.
Proof.
  intros H.
  destruct (transform_rows _ _ _ H) as (rels & Hrels & Hacc & Hrows).
  apply Forall2_In_l in Hrows. revert Hrows. apply Forall2_impl.
  intros p r' [Hin Hr] c cs Hkids Hblank.
  destruct (nonBlankRows_In _ _ Hin) as (Hdata & sku & Hsku & Hb).
  assert (Hp : Obj.inPrototype (skuOf p) = false).
  { destruct Hacc as (_ & _ & Hproto). apply Hproto. unfold skuOf.
    rewrite Hsku. exact (nonBlankSkus_In _ _ _ Hdata Hsku Hb). }
  assert (Hchildren :
    Obj.get (configurableChildrenByParent rels) (skuOf p)
    = Obj.Own (map skuOf (c :: cs))).
  { apply get_own. rewrite (buildRelationships_children _ _ _ _ Hrels Hp).
    now rewrite Hkids. }
  split.
  - intros Hv.
    rewrite (rewriteRow_parent _ _ _ _ _ _ Hr Hchildren)
      by now apply includes_not_In.
    f_equal. unfold encodeVariations. f_equal. rewrite map_map.
    apply map_ext_in. intros c' Hc'. unfold encodeChild. f_equal.
    assert (Hf : In c' (filter (isChildOf (skuOf p)) data))
      by now rewrite Hkids.
    apply filter_In in Hf. destruct Hf as [Hc'data Hc'child].
    rewrite Forall_forall in Hblank.
    exact (buildRelationships_child_values _ _ _ _ _ Hrels Hacc Hc'data
             Hc'child (Hblank c' Hc')).
  - intros Hl.
    apply (rewriteRow_parent_labels _ _ _ _ _ _ _ Hr Hchildren); [|exact Hl].
    apply get_own. unfold buildRelationships in Hrels.
    destruct (relateRows_lookups _ _ _ _ _ Hrels) as (_ & Hlabels & _).
    rewrite (Hlabels _ Hp), Hkids. now rewrite lastOf_last.
Qed.

Lemma parent_row_lists_every_child_witness :
  exists out,
    handler noParameters Sample.family = Ok out
    /\ Forall2
         (fun p r' =>
            forall c cs,
              filter (isChildOf (skuOf p)) Sample.family = c :: cs ->
              Forall (fun c' => blank (skuOf c') = false) (c :: cs) ->
              (~ In "configurable_variations"
                    (findAdditionalAttributeHeaders
                       (headersOf Sample.family)) ->
               read r' "configurable_variations"
               = VStr (Str.join
                         (valueGroupSeperator (establishOptions noParameters))
                         (map (fun c' =>
                                 convertColumnsToStringKeyValue
                                   (variationsFrom c')
                                   (multiValueSeperator
                                      (establishOptions noParameters)))
                              (c :: cs))))
              /\ (~ In "configurable_variation_labels"
                       (findAdditionalAttributeHeaders
                          (headersOf Sample.family)) ->
                  read r' "configurable_variation_labels"
                  = VStr (labelsOf
                            (multiValueSeperator
                               (establishOptions noParameters))
                            (specOf (last cs c)))))
         (nonBlankRows Sample.family) out.
Proof.
  eexists. split; [vm_compute; reflexivity|].
  apply (parent_row_lists_every_child (establishOptions noParameters)).
  vm_compute. reflexivity.
Defined.

(** ** A repeated SKU *)

(** X16: [duplicate_skus_reported] on a dataset in which the SKU [A] comes
    three times: the message lists it twice. *)
Lemma duplicate_skus_reported_witness :
  handler noParameters Sample.repeated
  = Err (Thrown "Can't handle duplicate SKU: A, A").
Proof.
  refine (proj1 (duplicate_skus_reported (establishOptions noParameters)
                   Sample.repeated _ _ _) _).
  - discriminate.
  - intros r Hin. repeat (destruct Hin as [<-|Hin]; [now eexists|]).
    destruct Hin.
  - intros s Hin. vm_compute in Hin.
    repeat (destruct Hin as [<-|Hin]; [reflexivity|]). destruct Hin.
  - intros Hnd. vm_compute in Hnd. inversion Hnd as [|? ? Hnot _].
    apply Hnot. right. now left.
Defined.

(** ** The stock-status override on the rows of the answer *)




(** ** A child whose parent is not in the dataset: the rows of the answer *)



